(** * Lab_NLP: src/eda/soporte_preprocesamiento.py

    A shallow embedding of the exploratory-data-analysis helpers
    ([exploracion_datos], the [Visualizador] class and
    [detectar_orden_cat_bina]) together with the properties of their
    behaviour.

    The module is a thin layer over pandas and scipy.  The library calls
    it makes are modelled first (sections "pandas" and "scipy"), each
    from the documented behaviour of the call, with

    - counts as [Z] and every floating-point quantity (percentages,
      expected frequencies, the chi-squared statistic, p-values) as an
      exact rational [Q]: rounding of binary floats is not modelled;
    - the chi-squared survival function [scipy.stats.chi2.sf], which is
      transcendental, as a parameter [sf] of the analyzer;
    - [print] and [display] as events appended to an output trace, the
      formatted text of a message being represented by a constructor
      that carries the values interpolated into it;
    - exceptions as the [Lanza] result of a computation.

    The functions of the module itself follow, line by line, and then
    the theorems. *)

From Stdlib Require Import ZArith QArith Qround Qabs Qminmax Qcanon String Ascii List Lia Lqa.
From Stdlib Require Import Sorting.Permutation Sorting.Sorted.
From stdpp Require Import base gmap strings list.

Open Scope string_scope.
Open Scope list_scope.

(* ===================================================================== *)
(** * Exceptions and results *)
(* ===================================================================== *)

Inductive excepcion : Type :=
| KeyError (clave : string)
| ValueError (msg : string)
| TypeError (msg : string).

Inductive resultado (A : Type) : Type :=
| Normal (a : A)
| Lanza (e : excepcion).
Arguments Normal {A} a.
Arguments Lanza {A} e.

(* ===================================================================== *)
(** * pandas: cells, columns and frames *)
(* ===================================================================== *)

Module Pandas.

(** A cell.  [VNull] stands for every missing marker ([None], [NaN],
    [NaT]); a timestamp or a duration is an integer count.  Within one
    column all present cells have the same constructor. *)
Inductive valor : Type :=
| VInt (n : Z)
| VFloat (x : Qc)
| VBool (b : bool)
| VStr (s : string)
| VNull.

#[global] Instance valor_eq_dec : EqDecision valor.
Proof. solve_decision. Defined.

Definition isnull (v : valor) : bool :=
  match v with VNull => true | _ => false end.

(** Column types.  [int64] and [float64] stand for the integer and
    floating types of every width; [category] carries the category list
    and the [ordered] flag of a [pd.Categorical]. *)
Inductive dtype : Type :=
| int64
| float64
| bool_
| object
| datetime64
| timedelta64
| category (categories : list string) (ordered : bool).

(** [issubclass(dtype.type, np.number)]: what
    [select_dtypes(include=np.number)] keeps.  numpy derives
    [timedelta64] from its signed integers, so a duration counts as a
    number; [bool_] and [datetime64] do not. *)
Definition es_number (d : dtype) : bool :=
  match d with int64 | float64 | timedelta64 => true | _ => false end.

(** What [select_dtypes(include="O")] keeps. *)
Definition es_object (d : dtype) : bool :=
  match d with object => true | _ => false end.

Definition es_datetime (d : dtype) : bool :=
  match d with datetime64 => true | _ => false end.

Record Series : Type := mkSeries {
  s_dtype : dtype;
  s_values : list valor
}.

(** A frame: the length of its index and its columns, in order. *)
Record DataFrame : Type := mkDataFrame {
  n_filas : nat;
  columnas : list (string * Series)
}.

(** The invariants pandas maintains (and section 3 of the specification
    states): column names are unique and every column has one cell per
    row. *)
Definition bien_formado (df : DataFrame) : Prop :=
  NoDup (columnas df).*1 ∧
  Forall (λ c, length (s_values c.2) = n_filas df) (columnas df).

(** [df.shape] *)
Definition shape (df : DataFrame) : nat * nat :=
  (n_filas df, length (columnas df)).

(** [df.columns] *)
Definition nombres (df : DataFrame) : list string := (columnas df).*1.

Fixpoint buscar (nombre : string) (cols : list (string * Series)) : option Series :=
  match cols with
  | [] => None
  | (n, s) :: resto => if decide (n = nombre) then Some s else buscar nombre resto
  end.

(** [df[nombre]]: the column, or [KeyError(nombre)]. *)
Definition getitem (df : DataFrame) (nombre : string) : resultado Series :=
  match buscar nombre (columnas df) with
  | Some s => Normal s
  | None => Lanza (KeyError nombre)
  end.

Fixpoint reemplazar (nombre : string) (s : Series) (cols : list (string * Series))
  : list (string * Series) :=
  match cols with
  | [] => []
  | (n, s0) :: resto =>
      if decide (n = nombre) then (n, s) :: resto
      else (n, s0) :: reemplazar nombre s resto
  end.

(** [df[nombre] = s]: an existing column is replaced at its position, a
    new one is appended. *)
Definition setitem (df : DataFrame) (nombre : string) (s : Series) : DataFrame :=
  match buscar nombre (columnas df) with
  | Some _ => mkDataFrame (n_filas df) (reemplazar nombre s (columnas df))
  | None => mkDataFrame (n_filas df) (columnas df ++ [(nombre, s)])
  end.

(** [df.select_dtypes(include=...)]: the columns whose type passes the
    test, in the frame's order, over the same index. *)
Definition select_dtypes (incluye : dtype → bool) (df : DataFrame) : DataFrame :=
  mkDataFrame (n_filas df) (filter (λ c, incluye (s_dtype c.2) = true) (columnas df)).

(** [df.isnull().sum()]: per column, the number of missing cells. *)
Definition cuenta_nulos (s : Series) : nat :=
  length (filter (λ v, isnull v = true) (s_values s)).

Definition isnull_sum (df : DataFrame) : list (string * nat) :=
  map (λ c, (c.1, cuenta_nulos c.2)) (columnas df).

(** [s.nunique()]: the number of distinct present cells of a column;
    [df.nunique()] gives it for every column. *)
Definition distintos (s : Series) : nat :=
  length (remove_dups (filter (λ v, isnull v = false) (s_values s))).

Definition nunique (df : DataFrame) : list (string * nat) :=
  map (λ c, (c.1, distintos c.2)) (columnas df).

(** Row [i] of the frame, across the columns. *)
Definition fila (df : DataFrame) (i : nat) : list valor :=
  map (λ c, nth i (s_values c.2) VNull) (columnas df).

(** [df.empty] *)
Definition empty (df : DataFrame) : bool :=
  (n_filas df =? 0)%nat || (length (columnas df) =? 0)%nat.

(** [df.duplicated()]: row [i] is marked when an earlier row has the
    same cells (missing cells compare equal); an empty frame gives an
    empty mask. *)
Definition duplicated (df : DataFrame) : list bool :=
  if empty df then []
  else map (λ i, bool_decide (fila df i ∈ map (fila df) (seq 0 i))) (seq 0 (n_filas df)).

Definition cuenta_true (m : list bool) : nat :=
  length (filter (λ b, b = true) m).

(** [df.describe()] and [df.describe(include="O")].  Only the columns
    summarised and the failure cases are modelled; the statistics of the
    summary are not.  [describe()] refuses a frame without columns; it
    summarises the numeric and datetime columns, or every column when
    there is none.  [describe(include="O")] summarises the object
    columns and fails, in the concatenation of the per-column
    summaries, when there is none. *)
Definition describe (df : DataFrame) : resultado (list string) :=
  if (length (columnas df) =? 0)%nat
  then Lanza (ValueError "Cannot describe a DataFrame without columns")
  else
    let num := select_dtypes (λ d, es_number d || es_datetime d) df in
    if (length (columnas num) =? 0)%nat then Normal (nombres df)
    else Normal (nombres num).

Definition describe_O (df : DataFrame) : resultado (list string) :=
  if (length (columnas df) =? 0)%nat
  then Lanza (ValueError "Cannot describe a DataFrame without columns")
  else
    let obj := select_dtypes es_object df in
    if (length (columnas obj) =? 0)%nat
    then Lanza (ValueError "No objects to concatenate")
    else Normal (nombres obj).

End Pandas.

(* ===================================================================== *)
(** * Sorting *)
(* ===================================================================== *)

(** Insertion sort by a boolean "comes first" test.  pandas sorts with
    a quicksort whose order among equal keys is unspecified; here equal
    keys keep their relative order.  The theorems below rely on
    sortedness and on the result being a permutation only. *)
Section Ordenar.
Context {A : Type} (leb : A → A → bool).

Fixpoint insertar (x : A) (l : list A) : list A :=
  match l with
  | [] => [x]
  | y :: l' => if leb x y then x :: y :: l' else y :: insertar x l'
  end.

Definition ordenar (l : list A) : list A := foldr insertar [] l.
End Ordenar.

Module Crosstab.
Import Pandas.

(** A labelled two-dimensional table: the result of [pd.crosstab], or
    an array wrapped with [pd.DataFrame(..., index=, columns=)]. *)
Record Tabla (A : Type) : Type := mkTabla {
  index : list valor;
  columns : list valor;
  values : list (list A)
}.
Arguments mkTabla {A} index columns values.
Arguments index {A} t.
Arguments columns {A} t.
Arguments values {A} t.

(** The order in which group keys are listed: by value within a type
    (numbers numerically, text by code point, [False] before [True]). *)
Definition rango (v : valor) : nat :=
  match v with VBool _ => 0 | VInt _ => 1 | VFloat _ => 2 | VStr _ => 3 | VNull => 4 end.

Definition valor_leb (a b : valor) : bool :=
  match a, b with
  | VInt x, VInt y => (x <=? y)%Z
  | VFloat x, VFloat y => Qle_bool x y
  | VBool x, VBool y => implb x y
  | VStr x, VStr y => String.leb x y
  | _, _ => (rango a <=? rango b)%nat
  end.

(** The rows that enter the table: those where both cells are present.
    Grouping drops a missing key. *)
Definition pares_presentes (a b : Series) : list (valor * valor) :=
  filter (λ p, isnull p.1 = false ∧ isnull p.2 = false)
         (zip (s_values a) (s_values b)).

(** Distinct observed keys, sorted.  For a categorical column pandas
    keeps the order of its categories instead; which labels there are,
    and the count under each, are the same. *)
Definition etiquetas (l : list valor) : list valor :=
  ordenar valor_leb (remove_dups l).

Definition cuenta (ps : list (valor * valor)) (r c : valor) : Z :=
  Z.of_nat (length (filter (λ p, p = (r, c)) ps)).

(** [pd.crosstab(a, b)]: one row per distinct observed value of [a],
    one column per distinct observed value of [b], each cell the number
    of rows with that combination.  A value that is never observed has
    neither row nor column. *)
Definition crosstab (a b : Series) : Tabla Z :=
  let ps := pares_presentes a b in
  let idx := etiquetas ps.*1 in
  let cols := etiquetas ps.*2 in
  mkTabla idx cols (map (λ r, map (λ c, cuenta ps r c) cols) idx).

(** The cell at row [i] and column [j], and [t.values.sum()]. *)
Definition celda (t : Tabla Z) (i j : nat) : option Z :=
  fila ← values t !! i; fila !! j.

Definition sumaZ (l : list Z) : Z := foldr Z.add 0%Z l.

Definition total_tabla (t : Tabla Z) : Z := sumaZ (map sumaZ (values t)).

(** [pd.Categorical(valores, categories=, ordered=)]: the categories
    must be unique; a cell that is not one of them becomes missing. *)
Definition restringir (categories : list string) (v : valor) : valor :=
  match v with
  | VStr s => if bool_decide (s ∈ categories) then v else VNull
  | _ => VNull
  end.

Definition Categorical (valores : list valor) (categories : list string) (ordered : bool)
  : resultado Series :=
  if bool_decide (NoDup categories)
  then Normal (mkSeries (category categories ordered) (map (restringir categories) valores))
  else Lanza (ValueError "Categorical categories must be unique").

End Crosstab.

(* ===================================================================== *)
(** * scipy: the chi-squared test of independence *)
(* ===================================================================== *)

Module Scipy.
Import Pandas Crosstab.

Definition suma (l : list Q) : Q := foldr Qplus 0%Q l.

Definition a_float (obs : list (list Z)) : list (list Q) := map (map inject_Z) obs.

(** The marginal sums of a two-dimensional array: over axis 1 (one per
    row) and over axis 0 (one per column). *)
Definition margen_filas (obs : list (list Q)) : list Q := map suma obs.

Definition margen_columnas (n_cols : nat) (obs : list (list Q)) : list Q :=
  foldr (zip_with Qplus) (repeat 0%Q n_cols) obs.

Definition total (obs : list (list Q)) : Q := suma (map suma obs).

(** [scipy.stats.contingency.expected_freq]: the outer product of the
    margins divided by the grand total. *)
Definition expected_freq (n_cols : nat) (obs : list (list Q)) : list (list Q) :=
  map (λ r, map (λ c, (r * c / total obs)%Q) (margen_columnas n_cols obs))
      (margen_filas obs).

Definition signo (x : Q) : Q :=
  match (x ?= 0)%Q with Lt => (-1)%Q | Eq => 0%Q | Gt => 1%Q end.

(** Yates' continuity correction, applied cell by cell. *)
Definition yates (obs expected : list (list Q)) : list (list Q) :=
  zip_with (zip_with (λ o e,
    let diff := (e - o)%Q in
    (o + Qmin 0.5 (Qabs diff) * signo diff)%Q)) obs expected.

(** Pearson's statistic: the sum over the cells of (o - e)^2 / e. *)
Definition pearson (obs expected : list (list Q)) : Q :=
  suma (map suma (zip_with (zip_with (λ o e, ((o - e) * (o - e) / e)%Q)) obs expected)).

Section Chi2.
(** [scipy.stats.chi2.sf]: the survival function of the chi-squared
    distribution, at a statistic and a number of degrees of freedom. *)
Variable sf : Q → Z → Q.

(** [chi2_contingency(observed)] with its defaults ([correction=True],
    Pearson's statistic), on a two-dimensional table: the statistic, the
    p-value, the degrees of freedom and the expected frequencies.  The
    message of the third failure also names a position, which is left
    out. *)
Definition chi2_contingency (observed : Tabla Z)
  : resultado (Q * Q * Z * list (list Q)) :=
  let n_filas := length (index observed) in
  let n_cols := length (columns observed) in
  if existsb (existsb (λ x, (x <? 0)%Z)) (values observed)
  then Lanza (ValueError "All values in `observed` must be nonnegative.")
  else if (n_filas * n_cols =? 0)%nat
  then Lanza (ValueError "No data; `observed` has size 0.")
  else
    let obs := a_float (values observed) in
    let expected := expected_freq n_cols obs in
    if existsb (existsb (λ x, Qeq_bool x 0)) expected
    then Lanza (ValueError
      "The internally computed table of expected frequencies has a zero element.")
    else
      let dof := (Z.of_nat (n_filas * n_cols) - Z.of_nat (n_filas + n_cols) + 2 - 1)%Z in
      if (dof =? 0)%Z then Normal (0%Q, 1%Q, dof, expected)
      else
        let obs' := if (dof =? 1)%Z then yates obs expected else obs in
        let chi2 := pearson obs' expected in
        Normal (chi2, sf chi2 dof, dof, expected).
End Chi2.

End Scipy.

(* ===================================================================== *)
(** * Output trace *)
(* ===================================================================== *)

Module Traza.
Import Pandas Crosstab.

(** The text of each [print] of the module, by the values it formats. *)
Inductive mensaje : Type :=
| MsgForma (filas cols : nat)       (* "El número de filas es .. y el número de columnas es .." *)
| MsgRaya                           (* "\n----------\n" *)
| MsgDuplicados (n : nat)           (* "En este conjunto de datos tenemos .. valores duplicados" *)
| MsgNumericas                      (* "Las principales estadísticas de las variables númericas son:" *)
| MsgCategoricas                    (* "Las principales estadísticas de las variables categóricas son:" *)
| MsgNulos                          (* "Los columnas con valores nulos y sus porcentajes son: " *)
| MsgUnicos                         (* "Valores unicos que las variables" *)
| MsgInfo                           (* "Las características principales del dataframe son:" *)
| MsgEvaluando (cat : string)       (* "Estamos evaluando la variable .." *)
| MsgSi (cat : string) (p : Q)      (* "Para la categoría .. SÍ hay diferencias significativas, p = .." *)
| MsgNo (cat : string) (p : Q)      (* "Para la categoría .. NO hay diferencias significativas, p = ..\n" *)
| MsgSeparador.                     (* "--------"*10 *)

(** What [display] is given. *)
Inductive mostrable : Type :=
| DResumen (cols : list string)          (* a [describe] summary, one row per column *)
| DNulos (filas : list (string * Q))     (* the one-column frame '%_nulos' *)
| DUnicos (filas : list (string * nat))  (* [nunique().reset_index()] *)
| DObservada (t : Tabla Z)               (* the contingency table *)
| DEsperada (t : Tabla Z)                (* the rounded expected frequencies *)
| DNone.                                 (* the [None] that [info()] returns *)

Inductive evento : Type :=
| EvPrint (m : mensaje)                  (* [print(...)] *)
| EvDisplay (x : mostrable)              (* [display(...)] *)
| EvInfo (cols : list string).           (* what [dataframe.info()] prints itself *)

(** A computation that writes to the trace and either returns or
    raises; what was written before an exception stays written. *)
Definition M (A : Type) : Type := list evento * resultado A.

#[global] Instance M_ret : MRet M := λ A a, ([], Normal a).

#[global] Instance M_bind : MBind M := λ A B f m,
  match m with
  | (o, Normal a) => let '(o', r) := f a in (o ++ o', r)
  | (o, Lanza e) => (o, Lanza e)
  end.

Definition emitir (e : evento) : M unit := ([e], Normal tt).

Definition evaluar {A} (r : resultado A) : M A := ([], r).

(** [for x in l: cuerpo(x)] *)
Fixpoint for_each {A} (l : list A) (cuerpo : A → M unit) : M unit :=
  match l with
  | [] => mret tt
  | x :: l' => cuerpo x ;; for_each l' cuerpo
  end.

End Traza.

(* ===================================================================== *)
(** * Text and number helpers *)
(* ===================================================================== *)

(** [str.upper()] on the ASCII letters.  A character outside ASCII is
    left as it is, where Python converts it as well: the two agree on
    the names for which [es_ascii] holds. *)
Definition upper_ascii (c : ascii) : ascii :=
  let n := nat_of_ascii c in
  if ((97 <=? n) && (n <=? 122))%nat then ascii_of_nat (n - 32) else c.

Fixpoint upper (s : string) : string :=
  match s with
  | EmptyString => EmptyString
  | String c s' => String (upper_ascii c) (upper s')
  end.

Definition Qltb (x y : Q) : bool :=
  match (x ?= y)%Q with Lt => true | _ => false end.

(** [round()] to no decimals: to the nearest integer, a tie going to
    the even one. *)
Definition redondear (x : Q) : Z :=
  let f := Qfloor x in
  match (x - inject_Z f ?= 1 # 2)%Q with
  | Lt => f
  | Gt => (f + 1)%Z
  | Eq => if Z.even f then f else (f + 1)%Z
  end.

(** [x / n * 100] *)
Definition porcentaje (x n : nat) : Q :=
  (inject_Z (Z.of_nat x) / inject_Z (Z.of_nat n) * 100)%Q.

(* ===================================================================== *)
(** * soporte_preprocesamiento.py *)
(* ===================================================================== *)

Import Pandas Crosstab Scipy Traza.

Definition print (m : mensaje) : M unit := emitir (EvPrint m).
Definition display (x : mostrable) : M unit := emitir (EvDisplay x).

(** The null report of [exploracion_datos]:
    [(dataframe_nulos[dataframe_nulos.values > 0] / dataframe.shape[0]) * 100],
    as the column ['%_nulos'], sorted by it with [ascending=False]. *)
Definition tabla_nulos (dataframe : DataFrame) : list (string * Q) :=
  let dataframe_nulos := isnull_sum dataframe in
  ordenar (λ x y : string * Q, Qle_bool y.2 x.2)
    (map (λ c, (c.1, porcentaje c.2 (shape dataframe).1))
         (filter (λ c : string * nat, (0 < c.2)%nat) dataframe_nulos)).

Definition exploracion_datos (dataframe : DataFrame) (nunique info : bool) : M unit :=
  print (MsgForma (shape dataframe).1 (shape dataframe).2) ;;
  print MsgRaya ;;
  print (MsgDuplicados (cuenta_true (duplicated dataframe))) ;;
  print MsgRaya ;;
  print MsgNumericas ;;
  resumen ← evaluar (describe dataframe);
  display (DResumen resumen) ;;
  print MsgRaya ;;
  print MsgCategoricas ;;
  resumen_o ← evaluar (describe_O dataframe);
  display (DResumen resumen_o) ;;
  print MsgRaya ;;
  print MsgNulos ;;
  display (DNulos (tabla_nulos dataframe)) ;;
  (if nunique then
     print MsgRaya ;;
     print MsgUnicos ;;
     display (DUnicos (Pandas.nunique dataframe))
   else mret tt) ;;
  (if info then
     print MsgRaya ;;
     print MsgInfo ;;
     emitir (EvInfo (nombres dataframe)) ;;
     display DNone
   else mret tt).

(** Frames are objects: a [Visualizador] keeps a reference to the frame
    it was given, not a copy.  The store maps references to frames. *)
Definition ref : Type := positive.

Module Visualizador.

Record objeto : Type := mkObjeto { dataframe : ref }.

(** [self.dataframe = dataframe] *)
Definition __init__ (dataframe : ref) : objeto := mkObjeto dataframe.

(** Returns two new frames; [None] only for a reference that is not in
    the store. *)
Definition separar_dataframes (self : objeto) (h : gmap ref DataFrame)
  : option (DataFrame * DataFrame) :=
  df ← h !! dataframe self;
  Some (select_dtypes es_number df, select_dtypes es_object df).

Definition order_defecto : list string :=
  ["Jan"; "Feb"; "Mar"; "Apr"; "May"; "Jun"; "Jul"; "Aug"; "Sep"; "Oct"; "Nov"; "Dec"].

(** Whether [s.mean()] is defined: a categorical column has no mean,
    and neither has an object column with a text cell. *)
Definition es_texto (v : valor) : bool :=
  match v with VStr _ => true | _ => false end.

Definition promediable (s : Series) : bool :=
  match s_dtype s with
  | category _ _ => false
  | object => negb (existsb es_texto (s_values s))
  | _ => true
  end.

(** What follows the assignment, lines 255 to 270, on the frame as the
    assignment left it.  The drawing calls ([sns.lineplot],
    [plt.axhline], [sns.despine], [plt.xlabel]) do not touch the frame.
    [sns.lineplot] is given the response column by name and raises
    [ValueError] when the frame does not have it;
    [self.dataframe[var_respuesta].mean()] raises [TypeError] when the
    column has no mean.  Other failures of the drawing calls are not
    modelled. *)
Definition trazado (df : DataFrame) (var_respuesta : string) : resultado unit :=
  match getitem df var_respuesta with
  | Lanza _ => Lanza (ValueError "Could not interpret value for `y`")
  | Normal s =>
      if promediable s then Normal tt
      else Lanza (TypeError "Could not convert to numeric")
  end.

Definition analisis_temporal (self : objeto) (var_respuesta var_temporal : string)
    (order : list string) (h : gmap ref DataFrame)
  : option (gmap ref DataFrame * resultado unit) :=
  df ← h !! dataframe self;
  Some
    match getitem df var_temporal with
    | Lanza e => (h, Lanza e)
    | Normal columna =>
        match Categorical (s_values columna) order true with
        | Lanza e => (h, Lanza e)
        | Normal cat =>
            let df' := setitem df var_temporal cat in
            let h' := <[dataframe self := df']> h in
            (h', trazado df' var_respuesta)
        end
    end.

End Visualizador.

Section Analizador.
Variable sf : Q → Z → Q.

(** The body of the loop of [detectar_orden_cat_bina]: lines 345 to 355.
    [df[categoria]] is evaluated before [df[var_respuesta]]. *)
Definition cuerpo (df : DataFrame) (var_respuesta : string) (sig_level : Q)
    (categoria : string) : M unit :=
  print (MsgEvaluando (upper categoria)) ;;
  a ← evaluar (getitem df categoria);
  b ← evaluar (getitem df var_respuesta);
  let df_crosstab := crosstab a b in
  display (DObservada df_crosstab) ;;
  '(chi2, p, dof, expected) ← evaluar (chi2_contingency sf df_crosstab);
  (if Qltb p sig_level then
     print (MsgSi (upper categoria) p) ;;
     display (DEsperada (mkTabla (index df_crosstab) (columns df_crosstab)
                                 (map (map redondear) expected)))
   else
     print (MsgNo (upper categoria) p)) ;;
  print MsgSeparador.

Definition detectar_orden_cat_bina (df : DataFrame) (lista_cat : list string)
    (var_respuesta : string) (sig_level : Q) : M unit :=
  for_each lista_cat (cuerpo df var_respuesta sig_level).
End Analizador.

Definition sig_level_defecto : Q := 0.05%Q.

(* ===================================================================== *)
(** * Vocabulary of the statements *)
(* ===================================================================== *)

(** What a call yields whatever the survival function is. *)
Definition resulta (llamada : (Q → Z → Q) → M unit) (r : M unit) : Prop :=
  ∀ sf, llamada sf = r.

(** A computation that returns normally. *)
Definition completa (m : M unit) : Prop := m.2 = Normal tt.

(** The traces of [f] over a list, one after the other. *)
Definition trazas {A} (f : A → M unit) (l : list A) : list evento :=
  concat (map (λ x, (f x).1) l).

(** The two complete reports of one loop iteration. *)
Definition informe_si (categoria : string) (t : Tabla Z) (p : Q) (expected : list (list Q))
  : list evento :=
  [EvPrint (MsgEvaluando (upper categoria)); EvDisplay (DObservada t);
   EvPrint (MsgSi (upper categoria) p);
   EvDisplay (DEsperada (mkTabla (index t) (columns t) (map (map redondear) expected)));
   EvPrint MsgSeparador].

Definition informe_no (categoria : string) (t : Tabla Z) (p : Q) : list evento :=
  [EvPrint (MsgEvaluando (upper categoria)); EvDisplay (DObservada t);
   EvPrint (MsgNo (upper categoria) p); EvPrint MsgSeparador].

(** A row of the cross-section: both cells present. *)
Definition presentes (p : valor * valor) : Prop :=
  isnull p.1 = false ∧ isnull p.2 = false.

(** How many elements of [ps] have key [x]. *)
Definition veces {A K : Type} `{EqDecision K} (k : A → K) (ps : list A) (x : K) : nat :=
  length (filter (λ p, k p = x) ps).

(** Degrees of freedom and expected frequencies of a table. *)
Definition grados (t : Tabla Z) : Z :=
  ((Z.of_nat (length (index t)) - 1) * (Z.of_nat (length (columns t)) - 1))%Z.

Definition esperadas (t : Tabla Z) : list (list Q) :=
  expected_freq (length (columns t)) (a_float (values t)).

(** A table given by a function of its labels, with its row totals,
    its column totals and its grand total. *)
Definition tabla_de {A B : Type} (f : A → B → Q) (la : list A) (lb : list B)
  : list (list Q) :=
  map (λ r, map (f r) lb) la.

Definition total_fila {A B : Type} (f : A → B → Q) (lb : list B) (r : A) : Q :=
  suma (map (f r) lb).

Definition total_columna {A B : Type} (f : A → B → Q) (la : list A) (c : B) : Q :=
  suma (map (λ r, f r c) la).

Definition gran_total {A B : Type} (f : A → B → Q) (la : list A) (lb : list B) : Q :=
  suma (map (total_fila f lb) la).

(** The cells of a contingency table, as floats. *)
Definition cuenta_q (ps : list (valor * valor)) (r c : valor) : Q :=
  inject_Z (cuenta ps r c).

(** Agreement of two quantities within the tolerance 1e-6. *)
Definition tolerancia : Q := 1e-6%Q.

Definition cerca (x y : Q) : Prop := (Qabs (x - y) <= tolerancia)%Q.

(** The profiler: frames with an object column, and what follows the
    null report in the trace. *)
Definition tiene_object (df : DataFrame) : bool :=
  existsb (λ c : string * Series, es_object (s_dtype c.2)) (columnas df).

Definition cola_exploracion (df : DataFrame) (nunique info : bool) : list evento :=
  (if nunique
   then [EvPrint MsgRaya; EvPrint MsgUnicos; EvDisplay (DUnicos (Pandas.nunique df))]
   else [])
  ++ (if info
      then [EvPrint MsgRaya; EvPrint MsgInfo; EvInfo (nombres df); EvDisplay DNone]
      else []).

(** Column types that are neither numeric nor object. *)
Definition otro_tipo (d : dtype) : Prop :=
  d = bool_ ∨ d = datetime64 ∨ ∃ cats ord, d = category cats ord.

(* ===================================================================== *)
(** * Example data *)
(* ===================================================================== *)

Definition texto (l : list string) : Series := mkSeries object (map VStr l).
Definition enteros (l : list Z) : Series := mkSeries int64 (map VInt l).
Definition flotante (x : Q) : valor := VFloat (Q2Qc x).

(** A survival function that is constant: the theorems hold for every
    [sf], the examples need one to run. *)
Definition sf_constante (p : Q) : Q → Z → Q := λ _ _, p.

(** Four rows: [A] has a single value, [B] has two, [C] is missing
    throughout. *)
Definition df_mini : DataFrame :=
  mkDataFrame 4
    [("A", texto ["x"; "x"; "x"; "x"]);
     ("B", texto ["u"; "v"; "u"; "v"]);
     ("C", mkSeries object [VNull; VNull; VNull; VNull]);
     ("y", enteros [0; 1; 1; 0]%Z)].

(** Scenario 6 of section 8 of the specification: 80 rows,
    ("M",1) x 30, ("M",0) x 10, ("F",1) x 10, ("F",0) x 30. *)
Definition col_gender : Series := texto (replicate 40 "M" ++ replicate 40 "F").

Definition col_bought : Series :=
  enteros (replicate 30 1 ++ replicate 10 0 ++ replicate 10 1 ++ replicate 30 0)%Z.

Definition df_tienda : DataFrame :=
  mkDataFrame 80 [("Gender", col_gender); ("Bought", col_bought)].

(** Missing cells: three in [n], one in [m], none elsewhere. *)
Definition df_nulos : DataFrame :=
  mkDataFrame 4
    [("g", texto ["M"; "M"; "F"; "F"]);
     ("y", enteros [1; 0; 1; 1]%Z);
     ("n", mkSeries float64 [VNull; flotante 1; VNull; VNull]);
     ("m", mkSeries object [VNull; VStr "a"; VStr "b"; VStr "c"])].

(** Two of the five rows miss one of their two cells. *)
Definition df_huecos : DataFrame :=
  mkDataFrame 5
    [("g", mkSeries object [VStr "M"; VNull; VStr "F"; VStr "F"; VStr "M"]);
     ("y", mkSeries float64 [flotante 1; flotante 0; VNull; flotante 1; flotante 0])].

(** No row; with and without columns. *)
Definition df_sin_columnas : DataFrame := mkDataFrame 0 [].

Definition df_sin_filas_numerico : DataFrame :=
  mkDataFrame 0 [("edad", mkSeries int64 [])].

Definition df_sin_filas : DataFrame :=
  mkDataFrame 0 [("edad", mkSeries int64 []); ("ciudad", mkSeries object [])].

(** One column of each type. *)
Definition df_tipos : DataFrame :=
  mkDataFrame 2
    [("edad", enteros [31; 45]%Z);
     ("ciudad", texto ["Lugo"; "Vigo"]);
     ("activo", mkSeries bool_ [VBool true; VBool false]);
     ("precio", mkSeries float64 [flotante 3.5; VNull]);
     ("alta", mkSeries datetime64 [VInt 1700000000; VInt 1700086400]);
     ("espera", mkSeries timedelta64 [VInt 3600; VInt 60]);
     ("mes", mkSeries (category ["Jan"; "Feb"] true) [VStr "Jan"; VStr "Feb"])].

(** Months, one of them outside the order list. *)
Definition df_meses : DataFrame :=
  mkDataFrame 3
    [("Month", texto ["Feb"; "June"; "Jan"]);
     ("PageValues", enteros [10; 20; 30]%Z)].

Definition almacen : gmap ref DataFrame :=
  {[ 1%positive := df_meses; 2%positive := df_tipos ]}.

(* ===================================================================== *)
(** * Tactics *)
(* ===================================================================== *)

(** Unfolds the trace monad. *)
Ltac desplegar :=
  unfold print, display, emitir, evaluar, mbind, mret, M_bind, M_ret; simpl.

(** Close [x ∈ l] and decidable facts on closed terms. *)
Ltac pertenece := vm_compute; repeat constructor.
Ltac decidir := apply (bool_decide_unpack _); vm_compute; exact I.

(* ===================================================================== *)
(** * Vocabulary of the further properties *)
(* ===================================================================== *)

(** The rows of a frame, first to last. *)
Definition filas_de (df : DataFrame) : list (list valor) :=
  map (fila df) (seq 0 (n_filas df)).

(** The column names announced by the headings of a trace, and the
    tables it displays. *)
Definition encabezados (o : list evento) : list string :=
  omap (λ e, match e with EvPrint (MsgEvaluando c) => Some c | _ => None end) o.

Definition observadas (o : list evento) : list (Tabla Z) :=
  omap (λ e, match e with EvDisplay (DObservada t) => Some t | _ => None end) o.

(** A name written with ASCII characters only.  On such a name [upper]
    is [str.upper()]. *)
Definition es_ascii (s : string) : bool :=
  forallb (λ c, (nat_of_ascii c <? 128)%nat) (list_ascii_of_string s).

(** The null reports that a trace displays. *)
Definition informes_nulos (o : list evento) : list (list (string * Q)) :=
  omap (λ e, match e with EvDisplay (DNulos t) => Some t | _ => None end) o.

(** A cell restricted by two order lists in turn. *)
Definition en_ambas (order1 order2 : list string) (v : valor) : Prop :=
  v ∈ VStr <$> order1 ∧ v ∈ VStr <$> order2.

(** More example data: a frame with a repeated row, and numeric frames
    with an even and an odd number of columns. *)
Definition df_repetidas : DataFrame :=
  mkDataFrame 4
    [("g", mkSeries object [VStr "M"; VStr "F"; VStr "M"; VNull]);
     ("y", enteros [1; 0; 1; 1]%Z)].

Definition df_solo_numerico : DataFrame :=
  mkDataFrame 2
    [("edad", enteros [31; 45]%Z);
     ("precio", mkSeries float64 [flotante 3.5; VNull]);
     ("visitas", enteros [7; 9]%Z)].

(** Column [j] of a table, top to bottom. *)
Definition columna_tabla (t : Tabla Z) (j : nat) : list Z :=
  map (λ fila, nth j fila 0%Z) (values t).

(** The shape every contingency table has: labels that are present
    and distinct, one row of cells per row label and one cell per
    column label, no negative cell, and no row or column that is zero
    throughout. *)
Definition tabla_bien_formada (t : Tabla Z) : Prop :=
  NoDup (index t) ∧ NoDup (columns t) ∧
  Forall (λ v, isnull v = false) (index t ++ columns t) ∧
  length (values t) = length (index t) ∧
  Forall (λ fila, length fila = length (columns t) ∧
                  Forall (λ z, (0 ≤ z)%Z) fila ∧ (1 ≤ sumaZ fila)%Z) (values t) ∧
  ∀ j, (j < length (columns t))%nat → (1 ≤ sumaZ (columna_tabla t j))%Z.

(* ===================================================================== *)
(** * matplotlib and seaborn: the drawing methods of [Visualizador] *)
(* ===================================================================== *)

Module Graficos.
Import Pandas.

Inductive titulo : Type :=
| TitNumericas                        (* "Distribución de variables numéricas" *)
| TitCategoricas                      (* "Distribución de variables categóricas" *)
| TitDispersion (num_col : string)    (* "Dispersión .. vs variables categóricas" *)
| TitColumna (columna : string)       (* the column name *)
| TitRelacion (columna vr : string).  (* "Relación .. vs .." *)

(** The calls that draw, by the arguments that say what is drawn and
    where.  The axes of a grid are numbered along its rows, as
    [axes.flat] lists them; sizes, colours and fonts are left out. *)
Inductive llamada : Type :=
| Figure                                           (* a new figure *)
| Subplots (nrows ncols : nat)                     (* a grid of axes in it *)
| Histplot (x : string) (hue : option string) (ax : nat)
| Countplot (x : string) (hue : option string) (por_frecuencia : bool) (ax : nat)
| Boxplot (x : string) (ax : nat)
| Scatterplot (x hue : string) (ax : option nat)   (* [None]: the current axes *)
| Heatmap (etiquetas : list string) (mask : list (list bool))
| Delaxes (ax : nat)
| SetTitle (ax : nat) (t : titulo)
| TickParams (ax : nat)
| QuitarXlabel (ax : nat)                          (* [ax.set(xlabel=None)] *)
| SetXlabel (ax : nat) (s : string)
| SetYlabel (ax : nat)
| LegendAx (ax : nat)
| Suptitle (t : titulo)
| TightLayout
| Legend
| Xlabel (s : string)
| Ylabel
| PrintSinCategoricas.   (* print("No hay columnas categóricas en el DataFrame.") *)

(** What these methods can raise. *)
Inductive fallo : Type :=
| RejillaVacia                   (* ValueError of [plt.subplots]: no row or no column *)
| SinFlat                        (* AttributeError: an [Axes] has no attribute [flat] *)
| FueraDeRango                   (* IndexError of [axes[i]] *)
| NombreDesconocido (v : string) (* ValueError of seaborn: a name that is not a column *)
| OtroFallo.                     (* any other failure inside a seaborn call *)

Inductive salida (A : Type) : Type :=
| Hecho (a : A)
| Falla (f : fallo).
Arguments Hecho {A} a.
Arguments Falla {A} f.

(** A drawing computation: the calls made so far, and how it ended. *)
Definition G (A : Type) : Type := list llamada * salida A.

#[global] Instance G_ret : MRet G := λ A a, ([], Hecho a).

#[global] Instance G_bind : MBind G := λ A B f m,
  match m with
  | (o, Hecho a) => let '(o', r) := f a in (o ++ o', r)
  | (o, Falla e) => (o, Falla e)
  end.

Definition trazar (c : llamada) : G unit := ([c], Hecho tt).

Definition lanzar {A} (f : fallo) : G A := ([], Falla f).

(** [try: m except: manejador]: a bare [except] catches every failure;
    what [m] drew before failing stays drawn. *)
Definition intentar {A} (m manejador : G A) : G A :=
  match m with
  | (o, Hecho a) => (o, Hecho a)
  | (o, Falla _) => let '(o', r) := manejador in (o ++ o', r)
  end.

(** [for x in l] and [for indice, x in enumerate(l)] *)
Fixpoint para_cada {A} (l : list A) (cuerpo : A → G unit) : G unit :=
  match l with
  | [] => mret tt
  | x :: l' => cuerpo x ;; para_cada l' cuerpo
  end.

Fixpoint para_cada_desde {A} (indice : nat) (l : list A) (cuerpo : nat → A → G unit)
  : G unit :=
  match l with
  | [] => mret tt
  | x :: l' => cuerpo indice x ;; para_cada_desde (S indice) l' cuerpo
  end.

Definition para_cada_enumerado {A} (l : list A) (cuerpo : nat → A → G unit) : G unit :=
  para_cada_desde 0 l cuerpo.

(** [math.ceil(n / 2)] *)
Definition ceil_mitad (n : nat) : nat := (n + 1) / 2.

(** What [plt.subplots] returns with its default [squeeze=True]: the
    one [Axes] of a 1 x 1 grid, an array of them otherwise. *)
Inductive ejes : Type :=
| UnEje
| Arreglo (n : nat).

(** [plt.subplots(nrows, ncols)]: the figure is opened first; a grid
    with no row or no column is refused. *)
Definition subplots (nrows ncols : nat) : G ejes :=
  trazar Figure ;;
  if (nrows =? 0)%nat || (ncols =? 0)%nat then lanzar RejillaVacia
  else
    trazar (Subplots nrows ncols) ;;
    mret (if (nrows * ncols =? 1)%nat then UnEje else Arreglo (nrows * ncols)).

(** [axes.flat]: the flat view of an array, given here by its size. *)
Definition flat (axes : ejes) : G nat :=
  match axes with
  | UnEje => lanzar SinFlat
  | Arreglo n => mret n
  end.

(** [axes[i]] and [axes[-1]] on a flat view of [n] axes. *)
Definition indexar (n i : nat) : G nat :=
  if (i <? n)%nat then mret i else lanzar FueraDeRango.

Definition ultimo (n : nat) : G nat :=
  if (n =? 0)%nat then lanzar FueraDeRango else mret (n - 1)%nat.

(** [categorical_columns[0]] *)
Definition primero (l : list string) : G string :=
  match l with
  | [] => lanzar FueraDeRango
  | c :: _ => mret c
  end.

(** What [select_dtypes(include=['object', 'category'])] keeps, and the
    columns [corr(numeric_only=True)] works on: integers, floats and
    booleans. *)
Definition es_categorica (d : dtype) : bool :=
  match d with object | category _ _ => true | _ => false end.

Definition es_numerico (d : dtype) : bool :=
  match d with int64 | float64 | bool_ => true | _ => false end.

(** [np.triu(np.ones_like(m, dtype=bool))] for a square [m] of side
    [n]: [True] on the diagonal and above it. *)
Definition triu_unos (n : nat) : list (list bool) :=
  map (λ i, map (λ j, (i <=? j)%nat) (seq 0 n)) (seq 0 n).

Section Seaborn.
(** Whether a seaborn call fails for a reason other than its names. *)
Variable falla_seaborn : DataFrame → llamada → bool.

(** A seaborn call with [data=df]: the names it is given are looked up
    first, in the order [x], [hue]. *)
Definition seaborn (df : DataFrame) (variables : list string) (c : llamada) : G unit :=
  match filter (λ v, v ∉ nombres df) variables with
  | v :: _ => lanzar (NombreDesconocido v)
  | [] => if falla_seaborn df c then lanzar OtroFallo else trazar c
  end.

(** Lines 123 to 137.  [tqdm] only reports progress. *)
Definition plot_numericas (df : DataFrame) : G unit :=
  let lista_num := nombres (select_dtypes es_number df) in
  axes ← subplots 2 (ceil_mitad (length lista_num));
  axes ← flat axes;
  para_cada_enumerado lista_num (λ indice columna,
    ax ← indexar axes indice;
    seaborn df [columna] (Histplot columna None ax)) ;;
  trazar (Suptitle TitNumericas) ;;
  trazar TightLayout.

(** Lines 139 to 158.  The bars are ordered by [value_counts()] of the
    column. *)
Definition plot_categoricas (df : DataFrame) : G unit :=
  let dataframe_cat := select_dtypes es_object df in
  axes ← subplots 2 (ceil_mitad (length (nombres dataframe_cat)));
  axes ← flat axes;
  para_cada_enumerado (nombres dataframe_cat) (λ indice columna,
    ax ← indexar axes indice;
    seaborn df [columna] (Countplot columna None true ax) ;;
    ax ← indexar axes indice;
    trazar (TickParams ax) ;;
    ax ← indexar axes indice;
    trazar (SetTitle ax (TitColumna columna)) ;;
    ax ← indexar axes indice;
    trazar (QuitarXlabel ax)) ;;
  trazar TightLayout ;;
  trazar (Suptitle TitCategoricas).

(** Lines 161 to 192. *)
Definition visualizar_categoricas_numericas (df : DataFrame) : G unit :=
  let categorical_columns := nombres (select_dtypes es_categorica df) in
  let numerical_columns := nombres (select_dtypes es_number df) in
  if (0 <? length categorical_columns)%nat then
    para_cada numerical_columns (λ num_col,
      intentar
        (axes ← subplots (length categorical_columns) 1;
         axes ← flat axes;
         trazar (Suptitle (TitDispersion num_col)) ;;
         para_cada_enumerado categorical_columns (λ indice cat_col,
           ax ← indexar axes indice;
           seaborn df [num_col; cat_col] (Scatterplot num_col cat_col (Some ax)) ;;
           ax ← indexar axes indice;
           trazar (SetXlabel ax num_col) ;;
           ax ← indexar axes indice;
           trazar (SetYlabel ax) ;;
           ax ← indexar axes indice;
           trazar (LegendAx ax)) ;;
         trazar TightLayout)
        (hue ← primero categorical_columns;
         seaborn df [num_col; hue] (Scatterplot num_col hue None) ;;
         trazar Legend ;;
         trazar (Xlabel num_col) ;;
         trazar Ylabel ;;
         trazar TightLayout))
  else trazar PrintSinCategoricas.

(** Lines 195 to 225.  The title is set for every column, also on the
    axes that were just removed. *)
Definition plot_relacion (df : DataFrame) (vr : string) : G unit :=
  let lista_num := nombres (select_dtypes es_number df) in
  let lista_cat := nombres (select_dtypes es_object df) in
  axes ← subplots (ceil_mitad (length (nombres df))) 2;
  axes ← flat axes;
  para_cada_enumerado (nombres df) (λ indice columna,
    (if decide (columna = vr) then
       ax ← indexar axes indice;
       trazar (Delaxes ax)
     else if decide (columna ∈ lista_num) then
       ax ← indexar axes indice;
       seaborn df [columna; vr] (Histplot columna (Some vr) ax)
     else if decide (columna ∈ lista_cat) then
       ax ← indexar axes indice;
       seaborn df [columna; vr] (Countplot columna (Some vr) false ax)
     else mret tt) ;;
    ax ← indexar axes indice;
    trazar (SetTitle ax (TitRelacion columna vr))) ;;
  trazar TightLayout.

(** Lines 277 to 306. *)
Definition deteccion_outliers (df : DataFrame) : G unit :=
  let lista_num := nombres (select_dtypes es_number df) in
  axes ← subplots 2 (ceil_mitad (length lista_num));
  axes ← flat axes;
  para_cada_enumerado lista_num (λ indice columna,
    ax ← indexar axes indice;
    seaborn df [columna] (Boxplot columna ax)) ;;
  (if (length lista_num mod 2 =? 0)%nat then mret tt
   else ax ← ultimo axes; trazar (Delaxes ax)) ;;
  trazar TightLayout.

(** Lines 308 to 339.  The heat map is given the correlation matrix,
    here by its labels, and the mask; a masked cell is not drawn. *)
Definition correlacion (df : DataFrame) : G unit :=
  trazar Figure ;;
  let numericas := nombres (select_dtypes es_numerico df) in
  let mask := triu_unos (length numericas) in
  let c := Heatmap numericas mask in
  if falla_seaborn df c then lanzar OtroFallo else trazar c.
End Seaborn.

End Graficos.

(** The drawings of a trace, by kind: column and axes. *)
Definition histogramas (o : list Graficos.llamada) : list (string * nat) :=
  omap (λ c, match c with Graficos.Histplot x _ ax => Some (x, ax) | _ => None end) o.

Definition barras (o : list Graficos.llamada) : list (string * nat) :=
  omap (λ c, match c with Graficos.Countplot x _ _ ax => Some (x, ax) | _ => None end) o.

Definition cajas (o : list Graficos.llamada) : list (string * nat) :=
  omap (λ c, match c with Graficos.Boxplot x ax => Some (x, ax) | _ => None end) o.

Definition dispersiones (o : list Graficos.llamada) : list (string * string * option nat) :=
  omap (λ c, match c with Graficos.Scatterplot x hue ax => Some (x, hue, ax) | _ => None end) o.

Definition borrados (o : list Graficos.llamada) : list nat :=
  omap (λ c, match c with Graficos.Delaxes ax => Some ax | _ => None end) o.

Definition titulados (o : list Graficos.llamada) : list (nat * Graficos.titulo) :=
  omap (λ c, match c with Graficos.SetTitle ax t => Some (ax, t) | _ => None end) o.

Definition rejillas (o : list Graficos.llamada) : list (nat * nat) :=
  omap (λ c, match c with Graficos.Subplots r k => Some (r, k) | _ => None end) o.

(** The axes a figure is left with: those of its grid that were not
    removed. *)
Definition ejes_restantes (o : list Graficos.llamada) : list nat :=
  filter (λ ax, ax ∉ borrados o)
         (flat_map (λ g, seq 0 (g.1 * g.2)) (rejillas o)).

(** A seaborn that never fails for a reason of its own. *)
Definition seaborn_fiable : DataFrame → Graficos.llamada → bool := λ _ _, false.

(** The cells of a heat map that are drawn, by row and column.
    [sns.heatmap] leaves out the cells that the mask hides and also the
    cells whose value is missing; the correlations are not computed
    here, so [nulo i j] stands for "the correlation of columns [i] and
    [j] is NaN". *)
Fixpoint celdas_fila (nulo_i : nat → bool) (i j : nat) (fila : list bool)
  : list (nat * nat) :=
  match fila with
  | [] => []
  | b :: resto =>
      (if b || nulo_i j then [] else [(i, j)]) ++ celdas_fila nulo_i i (S j) resto
  end.

Fixpoint celdas_desde (nulo : nat → nat → bool) (i : nat) (mask : list (list bool))
  : list (nat * nat) :=
  match mask with
  | [] => []
  | fila :: resto => celdas_fila (nulo i) i 0 fila ++ celdas_desde nulo (S i) resto
  end.

Definition celdas_dibujadas (nulo : nat → nat → bool) (mask : list (list bool))
  : list (nat * nat) :=
  celdas_desde nulo 0 mask.

(** The number of cells that a mask leaves open. *)
Definition cuenta_sin_mascara (mask : list (list bool)) : nat :=
  length (filter (λ b, b = false) (concat mask)).

(* ===================================================================== *)
(** * Lemmas: sorting, counting, sums *)
(* ===================================================================== *)

Section OrdenarLemas.
Context {A : Type} (leb : A → A → bool).

Lemma insertar_Permutation x l : insertar leb x l ≡ₚ x :: l.
Proof.
  induction l as [|y l IH]; simpl; [done|].
  destruct (leb x y); [done|].
  rewrite IH. apply Permutation_swap.
Qed.

Lemma ordenar_Permutation l : ordenar leb l ≡ₚ l.
Proof.
  induction l as [|x l IH]; simpl; [done|].
  rewrite insertar_Permutation. by f_equiv.
Qed.

Hypothesis leb_total : ∀ x y, leb x y = false → leb y x = true.

Lemma insertar_Sorted x l :
  Sorted (λ a b, leb a b = true) l → Sorted (λ a b, leb a b = true) (insertar leb x l).
Proof.
  induction 1 as [|y l Hs IH Hhd]; simpl.
  - by repeat constructor.
  - destruct (leb x y) eqn:E.
    + constructor; [by constructor|by constructor].
    + constructor; [done|].
      destruct Hhd as [|z l' Hyz]; simpl.
      * constructor. by apply leb_total.
      * destruct (leb x z); constructor; [by apply leb_total|done].
Qed.

Lemma ordenar_Sorted l : Sorted (λ a b, leb a b = true) (ordenar leb l).
Proof.
  induction l as [|x l IH]; simpl; [constructor|]. by apply insertar_Sorted.
Qed.
End OrdenarLemas.

Lemma NoDup_fst_funcional {A B} (l : list (A * B)) x y1 y2 :
  NoDup l.*1 → (x, y1) ∈ l → (x, y2) ∈ l → y1 = y2.
Proof.
  induction l as [|[a b] l IH]; simpl; intros Hnd H1 H2.
  { by apply elem_of_nil in H1. }
  apply NoDup_cons in Hnd as [Hnotin Hnd].
  apply elem_of_cons in H1 as [[= -> ->]|H1], H2 as [[= ?]|H2]; subst; auto.
  - destruct Hnotin. apply list_elem_of_fmap. by exists (a, y2).
  - destruct Hnotin. apply list_elem_of_fmap. by exists (a, y1).
Qed.

Lemma existsb_false {A} (f : A → bool) (l : list A) :
  existsb f l = false ↔ Forall (λ x, f x = false) l.
Proof.
  induction l as [|x l IH]; simpl; [by split; [constructor|]|].
  rewrite orb_false_iff, IH, Forall_cons. done.
Qed.

Lemma filter_particion {A} (P : A → Prop) `{∀ x, Decision (P x)} (l : list A) :
  (length (filter P l) + length (filter (λ x, ¬ P x) l) = length l)%nat.
Proof.
  induction l as [|x l IH]; [done|].
  rewrite !filter_cons. destruct (decide (P x)).
  - rewrite decide_False by tauto. simpl. lia.
  - rewrite decide_True by tauto. simpl. lia.
Qed.

Section Conteo.
Context {A K : Type} `{EqDecision K} (k : A → K).

Lemma veces_cons p ps x :
  veces k (p :: ps) x = ((if decide (k p = x) then 1 else 0) + veces k ps x)%nat.
Proof. unfold veces. rewrite filter_cons. by case_decide. Qed.

Lemma suma_indicador (L : list K) (y : K) :
  NoDup L → y ∈ L →
  sum_list (map (λ x, if decide (y = x) then 1 else 0)%nat L) = 1%nat.
Proof.
  induction 1 as [|x L Hnotin Hnd IH]; intros Hin.
  { by apply elem_of_nil in Hin. }
  simpl. case_decide as E.
  - subst x. f_equal. clear IH Hin Hnd.
    induction L as [|z L IH]; [done|]. simpl.
    apply not_elem_of_cons in Hnotin as [Hne Hnotin].
    rewrite decide_False by done. by apply IH.
  - apply elem_of_cons in Hin as [?|Hin]; [done|]. by apply IH.
Qed.

(** Every element falls under exactly one key of a duplicate-free list
    that has them all: the counts per key add up to the length. *)
Lemma suma_veces (L : list K) (ps : list A) :
  NoDup L → (∀ p, p ∈ ps → k p ∈ L) →
  sum_list (map (veces k ps) L) = length ps.
Proof.
  intros Hnd. induction ps as [|p ps IH]; intros Hin.
  { clear Hnd Hin. induction L as [|x L IH]; [done|]. simpl. by rewrite IH. }
  transitivity (sum_list (map (λ x, if decide (k p = x) then 1 else 0)%nat L)
                + sum_list (map (veces k ps) L))%nat.
  - clear IH Hin Hnd. induction L as [|x L IH]; [done|].
    simpl. rewrite IH, veces_cons. lia.
  - rewrite suma_indicador, IH; [done| |done|].
    + intros q Hq. apply Hin. by right.
    + apply Hin. by left.
Qed.

Lemma veces_pos (ps : list A) x : x ∈ map k ps → (0 < veces k ps x)%nat.
Proof.
  intros (p & -> & Hp)%list_elem_of_fmap. unfold veces.
  assert (p ∈ filter (λ q, k q = k p) ps) as Hin by by apply list_elem_of_filter.
  destruct (filter _ ps); [by apply elem_of_nil in Hin|simpl; lia].
Qed.
End Conteo.

Lemma sumaZ_of_nat {A} (g : A → nat) (L : list A) :
  sumaZ (map (λ x, Z.of_nat (g x)) L) = Z.of_nat (sum_list (map g L)).
Proof. induction L as [|x L IH]; simpl; [done|]. rewrite IH. lia. Qed.

Lemma suma_inject (l : list Z) : (suma (map inject_Z l) == inject_Z (sumaZ l))%Q.
Proof.
  induction l as [|x l IH]; simpl; [reflexivity|].
  rewrite IH, inject_Z_plus. reflexivity.
Qed.

Lemma suma_ext {A} (f g : A → Q) (l : list A) :
  (∀ x, x ∈ l → (f x == g x)%Q) → (suma (map f l) == suma (map g l))%Q.
Proof.
  induction l as [|x l IH]; intros H; simpl; [reflexivity|].
  rewrite (H x), IH; [reflexivity| |by left]. intros y Hy. apply H. by right.
Qed.

Lemma suma_mas {A} (f g : A → Q) (l : list A) :
  (suma (map (λ x, f x + g x) l) == suma (map f l) + suma (map g l))%Q.
Proof.
  induction l as [|x l IH]; simpl; [reflexivity|]. rewrite IH. ring.
Qed.

Lemma suma_ceros {A} (l : list A) : (suma (map (λ _, 0) l) == 0)%Q.
Proof. induction l as [|x l IH]; simpl; [reflexivity|]. rewrite IH. ring. Qed.

(** Summing by columns or by rows gives the same total. *)
Lemma suma_intercambio {A B} (f : A → B → Q) (la : list A) (lb : list B) :
  (suma (map (λ c, suma (map (λ r, f r c) la)) lb)
   == suma (map (λ r, suma (map (f r) lb)) la))%Q.
Proof.
  induction la as [|r la IH]; simpl.
  - apply suma_ceros.
  - rewrite suma_mas, IH. reflexivity.
Qed.

Lemma suma_escala {A} (g : A → Q) (k n : Q) (l : list A) :
  (suma (map (λ x, g x * k / n) l) == suma (map g l) * k / n)%Q.
Proof.
  induction l as [|x l IH]; simpl.
  - unfold Qdiv. ring.
  - rewrite IH. unfold Qdiv. ring.
Qed.

Lemma suma_escala_l {A} (g : A → Q) (k n : Q) (l : list A) :
  (suma (map (λ x, k * g x / n) l) == k * suma (map g l) / n)%Q.
Proof.
  induction l as [|x l IH]; simpl.
  - unfold Qdiv. ring.
  - rewrite IH. unfold Qdiv. ring.
Qed.

Lemma inject_Z_of_nat_cero (n : nat) : (inject_Z (Z.of_nat n) == 0)%Q → n = 0%nat.
Proof. intros H. apply (proj1 (inject_Z_injective _ 0)) in H. lia. Qed.

Lemma Qeq_cerca x y : (x == y)%Q → cerca x y.
Proof.
  intros H. unfold cerca. assert (x - y == 0)%Q as -> by (rewrite H; ring).
  done.
Qed.

Lemma Qltb_lt x y : Qltb x y = true ↔ (x < y)%Q.
Proof.
  unfold Qltb. rewrite Qlt_alt. destruct (x ?= y)%Q; split; congruence.
Qed.

(** [redondear] gives a nearest integer. *)
Lemma redondear_cercano x : (Qabs (x - inject_Z (redondear x)) <= 1 # 2)%Q.
Proof.
  pose proof (Qfloor_le x) as Hlo. pose proof (Qlt_floor x) as Hhi.
  rewrite inject_Z_plus in Hhi. change (inject_Z 1) with 1%Q in Hhi.
  unfold redondear. apply Qabs_Qle_condition.
  destruct (x - inject_Z (Qfloor x) ?= 1 # 2)%Q eqn:E.
  - apply Qeq_alt in E. destruct (Z.even _).
    + split; lra.
    + rewrite inject_Z_plus. change (inject_Z 1) with 1%Q. split; lra.
  - apply Qlt_alt in E. split; lra.
  - apply Qgt_alt in E. rewrite inject_Z_plus. change (inject_Z 1) with 1%Q. split; lra.
Qed.

(* ===================================================================== *)
(** * The dataset profiler *)
(* ===================================================================== *)

(** The only null report in the trace of [exploracion_datos] is
    [tabla_nulos]. *)
Lemma exploracion_muestra_tabla_nulos df nu inf t :
  EvDisplay (DNulos t) ∈ (exploracion_datos df nu inf).1 → t = tabla_nulos df.
Proof.
  unfold exploracion_datos.
  destruct (describe df) as [r1|e1], (describe_O df) as [r2|e2];
    destruct nu, inf; desplegar.
  all: intros H;
    repeat (apply elem_of_cons in H as [H|H]; [try discriminate H; try (by inversion H)|]).
  all: try by apply elem_of_nil in H.
Qed.

Lemma tabla_nulos_Permutation df :
  tabla_nulos df ≡ₚ
  map (λ c : string * Series, (c.1, porcentaje (cuenta_nulos c.2) (n_filas df)))
      (filter (λ c : string * Series, (0 < cuenta_nulos c.2)%nat) (columnas df)).
Proof.
  unfold tabla_nulos. rewrite ordenar_Permutation. unfold isnull_sum. simpl.
  induction (columnas df) as [|[n s] cols IH]; [done|].
  rewrite fmap_cons, !filter_cons. simpl.
  case_decide; simpl; by rewrite IH.
Qed.

Lemma tabla_nulos_nombres df :
  (tabla_nulos df).*1 ≡ₚ
  (filter (λ c : string * Series, (0 < cuenta_nulos c.2)%nat) (columnas df)).*1.
Proof. rewrite tabla_nulos_Permutation. by rewrite <- list_fmap_compose. Qed.

Lemma tabla_nulos_Sorted df :
  StronglySorted (λ x y : string * Q, (y.2 <= x.2)%Q) (tabla_nulos df).
Proof.
  apply Sorted_StronglySorted.
  { intros x y z Hxy Hyz. by eapply Qle_trans. }
  unfold tabla_nulos.
  set (leb := λ x y : string * Q, Qle_bool y.2 x.2).
  assert (Htot : ∀ x y, leb x y = false → leb y x = true).
  { intros x y H. unfold leb in *. apply Qle_bool_iff.
    destruct (Qlt_le_dec x.2 y.2) as [Hlt|Hle]; [by apply Qlt_le_weak|].
    apply Qle_bool_iff in Hle. congruence. }
  generalize (ordenar_Sorted leb Htot
    (map (λ c : string * nat, (c.1, porcentaje c.2 (shape df).1))
       (filter (λ c : string * nat, (0 < c.2)%nat) (isnull_sum df)))).
  induction 1 as [|x l Hs IH Hhd]; constructor; [done|].
  destruct Hhd; constructor. by apply Qle_bool_iff.
Qed.

Lemma filter_length_existsb (cols : list (string * Series)) :
  (length (filter (λ c : string * Series, es_object (s_dtype c.2) = true) cols) =? 0)%nat
  = negb (existsb (λ c : string * Series, es_object (s_dtype c.2)) cols).
Proof.
  induction cols as [|c cols IH]; [done|].
  rewrite filter_cons. simpl. case_decide as E; rewrite ?E; [done|].
  apply not_true_is_false in E. by rewrite E.
Qed.

Lemma describe_Normal df :
  columnas df ≠ [] → ∃ r, describe df = Normal r.
Proof.
  intros H. unfold describe. destruct (columnas df) eqn:E; [done|]. simpl.
  destruct (_ =? 0)%nat; eauto.
Qed.

Lemma describe_O_Normal df :
  tiene_object df = true → ∃ r, describe_O df = Normal r.
Proof.
  unfold tiene_object, describe_O, select_dtypes. cbn [columnas].
  rewrite filter_length_existsb. intros H. rewrite H.
  destruct (columnas df); [done|]. simpl. eauto.
Qed.

Lemma describe_O_Lanza df :
  tiene_object df = false → ∃ msg, describe_O df = Lanza (ValueError msg).
Proof.
  unfold tiene_object, describe_O, select_dtypes. cbn [columnas].
  rewrite filter_length_existsb. intros ->.
  destruct (columnas df); simpl; eauto.
Qed.

(** The whole trace of a call on a frame with an object column. *)
Lemma exploracion_datos_traza df nu inf :
  tiene_object df = true →
  ∃ r1 r2,
    exploracion_datos df nu inf =
      ([EvPrint (MsgForma (n_filas df) (length (columnas df))); EvPrint MsgRaya;
        EvPrint (MsgDuplicados (cuenta_true (duplicated df))); EvPrint MsgRaya;
        EvPrint MsgNumericas; EvDisplay (DResumen r1); EvPrint MsgRaya;
        EvPrint MsgCategoricas; EvDisplay (DResumen r2); EvPrint MsgRaya;
        EvPrint MsgNulos; EvDisplay (DNulos (tabla_nulos df))]
       ++ cola_exploracion df nu inf, Normal tt).
Proof.
  intros Ho. destruct (describe_O_Normal df Ho) as [r2 E2].
  destruct (describe_Normal df) as [r1 E1].
  { unfold tiene_object in Ho. by destruct (columnas df). }
  exists r1, r2. unfold exploracion_datos, cola_exploracion, shape.
  rewrite E1, E2. by destruct nu, inf.
Qed.

(** The trace of a call on a frame without an object column. *)
Lemma exploracion_datos_traza_falla df nu inf :
  tiene_object df = false →
  ∃ o msg,
    exploracion_datos df nu inf =
      ([EvPrint (MsgForma (n_filas df) (length (columnas df))); EvPrint MsgRaya;
        EvPrint (MsgDuplicados (cuenta_true (duplicated df))); EvPrint MsgRaya;
        EvPrint MsgNumericas] ++ o, Lanza (ValueError msg)) ∧
    (o = [] ∨ ∃ r1, o = [EvDisplay (DResumen r1); EvPrint MsgRaya; EvPrint MsgCategoricas]).
Proof.
  intros Ho. destruct (describe_O_Lanza df Ho) as [msg E2].
  unfold exploracion_datos, shape. rewrite E2.
  destruct (describe df) as [r1|[k|msg1|msg1]] eqn:E1; desplegar.
  - exists [EvDisplay (DResumen r1); EvPrint MsgRaya; EvPrint MsgCategoricas], msg.
    split; [done|]. right. by exists r1.
  - unfold describe in E1. by repeat case_match.
  - exists [], msg1. split; [done|]. by left.
  - unfold describe in E1. by repeat case_match.
Qed.

(** The null report: exact and sorted. *)
Lemma tabla_nulos_exacta df :
  bien_formado df →
  (∀ nombre s, (nombre, s) ∈ columnas df →
     (nombre ∈ (tabla_nulos df).*1 ↔ (0 < cuenta_nulos s)%nat) ∧
     (∀ p, (nombre, p) ∈ tabla_nulos df → p = porcentaje (cuenta_nulos s) (n_filas df))) ∧
  (∀ nombre, nombre ∈ (tabla_nulos df).*1 → nombre ∈ nombres df) ∧
  NoDup (tabla_nulos df).*1 ∧
  StronglySorted (λ x y : string * Q, (y.2 <= x.2)%Q) (tabla_nulos df).
Proof.
  intros [Hnd Hlen].
  assert (Hent : ∀ nombre p, (nombre, p) ∈ tabla_nulos df →
            ∃ s, (nombre, s) ∈ columnas df ∧ (0 < cuenta_nulos s)%nat ∧
                 p = porcentaje (cuenta_nulos s) (n_filas df)).
  { intros nombre p. rewrite tabla_nulos_Permutation.
    intros ([n s] & [= -> ->] & [H0 Hin]%list_elem_of_filter)%list_elem_of_fmap.
    by exists s. }
  assert (Huniq : ∀ nombre s s',
            (nombre, s) ∈ columnas df → (nombre, s') ∈ columnas df → s = s').
  { intros nombre s s'. by apply NoDup_fst_funcional. }
  split; [|split; [|split]].
  - intros nombre s H. split; [split|].
    + rewrite tabla_nulos_nombres.
      intros ([n s'] & -> & [H0 Hin]%list_elem_of_filter)%list_elem_of_fmap.
      simpl in *. by rewrite (Huniq _ _ _ H Hin).
    + intros H0. rewrite tabla_nulos_nombres.
      apply list_elem_of_fmap. exists (nombre, s). split; [done|].
      by apply list_elem_of_filter.
    + intros p (s' & Hin & _ & ->)%Hent. by rewrite (Huniq _ _ _ H Hin).
  - intros nombre. rewrite tabla_nulos_nombres.
    intros ([n s'] & -> & [H0 Hin]%list_elem_of_filter)%list_elem_of_fmap.
    apply list_elem_of_fmap. by exists (n, s').
  - rewrite tabla_nulos_nombres. apply NoDup_fmap_fst.
    + intros n s s' [_ H1]%list_elem_of_filter [_ H2]%list_elem_of_filter.
      by eapply Huniq.
    + apply NoDup_filter. by eapply NoDup_fmap_1.
  - apply tabla_nulos_Sorted.
Qed.

(** C7.  In every frame with unique column names and at least one
    object column, the profiler displays one null report; the report
    lists a column exactly when the column has at least one missing
    cell (a column without missing cells never appears), lists no
    column twice and none that the frame does not have, gives each
    listed column the percentage of rows in which it is missing, and is
    sorted by that percentage in descending order.  In a frame without
    an object column the profiler raises [ValueError] in one of the two
    summaries and displays no null report. *)
Theorem informe_nulos_exacto_y_ordenado df nu inf :
  bien_formado df →
  (tiene_object df = true →
     ∃ t, informes_nulos (exploracion_datos df nu inf).1 = [t] ∧
          (∀ nombre s, (nombre, s) ∈ columnas df →
             (nombre ∈ t.*1 ↔ (0 < cuenta_nulos s)%nat) ∧
             (∀ p, (nombre, p) ∈ t → p = porcentaje (cuenta_nulos s) (n_filas df))) ∧
          (∀ nombre, nombre ∈ t.*1 → nombre ∈ nombres df) ∧
          NoDup t.*1 ∧
          StronglySorted (λ x y : string * Q, (y.2 <= x.2)%Q) t) ∧
  (tiene_object df = false →
     informes_nulos (exploracion_datos df nu inf).1 = [] ∧
     ∃ msg, (exploracion_datos df nu inf).2 = Lanza (ValueError msg)).
Proof.
  intros Hbf. split; intros Ho.
  - exists (tabla_nulos df). split; [|by apply tabla_nulos_exacta].
    destruct (exploracion_datos_traza df nu inf Ho) as (r1 & r2 & ->).
    unfold cola_exploracion. by destruct nu, inf.
  - destruct (exploracion_datos_traza_falla df nu inf Ho) as (o & msg & -> & Ho').
    split; [|by exists msg].
    by destruct Ho' as [->|[r1 ->]].
Qed.

(** On [df_nulos] the report is [n] (75 %) then [m] (25 %); [g] and [y],
    which miss nothing, are not in it. *)
Lemma informe_nulos_testigo :
  bien_formado df_nulos ∧ tiene_object df_nulos = true ∧
  informes_nulos (exploracion_datos df_nulos true false).1
    = [[("n", 300 # 4); ("m", 100 # 4)]] ∧
  ("n" ∈ [("n", 300 # 4); ("m", 100 # 4)].*1) ∧
  ("y" ∉ [("n", 300 # 4); ("m", 100 # 4)].*1) ∧
  StronglySorted (λ x y : string * Q, (y.2 <= x.2)%Q) [("n", 300 # 4); ("m", 100 # 4)].
Proof.
  assert (Hbf : bien_formado df_nulos) by (split; decidir).
  assert (Ho : tiene_object df_nulos = true) by reflexivity.
  destruct (informe_nulos_exacto_y_ordenado df_nulos true false Hbf) as [Hsi _].
  destruct (Hsi Ho) as (t & Ht & Hcols & _ & _ & Hord).
  assert (Heq : t = [("n", 300 # 4); ("m", 100 # 4)]).
  { vm_compute in Ht. by injection Ht as <-. }
  subst t.
  split; [exact Hbf|]. split; [exact Ho|]. split; [exact Ht|].
  split; [|split; [|exact Hord]].
  - apply (Hcols "n" (mkSeries float64 [VNull; flotante 1; VNull; VNull]));
      [pertenece|vm_compute; lia].
  - intros Hy.
    apply (Hcols "y" (enteros [1; 0; 1; 1]%Z)) in Hy; [|pertenece].
    vm_compute in Hy. lia.
Defined.

(** C7, counterexample.  [df_solo_numerico] has no object column.  Its
    column "precio" has a missing cell, but the profiler raises before
    the null report and displays none. *)
Lemma informe_nulos_no_se_muestra :
  bien_formado df_solo_numerico ∧
  (∃ s, ("precio", s) ∈ columnas df_solo_numerico ∧ (0 < cuenta_nulos s)%nat) ∧
  informes_nulos (exploracion_datos df_solo_numerico true false).1 = [] ∧
  (exploracion_datos df_solo_numerico true false).2
    = Lanza (ValueError "No objects to concatenate").
Proof.
  split; [split; decidir|]. split.
  - exists (mkSeries float64 [flotante 3.5; VNull]). split; [pertenece|vm_compute; lia].
  - split; reflexivity.
Qed.

Lemma duplicated_sin_filas df : n_filas df = 0%nat → cuenta_true (duplicated df) = 0%nat.
Proof. intros H. unfold duplicated, empty. by rewrite H. Qed.

Lemma tabla_nulos_sin_filas df :
  bien_formado df → n_filas df = 0%nat → tabla_nulos df = [].
Proof.
  intros [_ Hlen] Hn. unfold tabla_nulos, isnull_sum. simpl.
  replace (filter _ _) with (@nil (string * nat)); [done|].
  symmetry. induction Hlen as [|[n s] cols Hc _ IH]; [done|].
  rewrite fmap_cons, filter_cons. simpl in *.
  rewrite decide_False; [done|].
  unfold cuenta_nulos. rewrite Hn in Hc. apply nil_length_inv in Hc. rewrite Hc. simpl. lia.
Qed.

Lemma nunique_sin_filas df :
  bien_formado df → n_filas df = 0%nat →
  Pandas.nunique df = map (λ c : string * Series, (c.1, 0%nat)) (columnas df).
Proof.
  intros [_ Hlen] Hn. unfold Pandas.nunique, distintos.
  induction Hlen as [|[n s] cols Hc _ IH]; [done|].
  simpl in *. rewrite Hn in Hc. apply nil_length_inv in Hc. rewrite Hc. simpl. by f_equal.
Qed.

(** C6, as the code has it.  On a frame without rows, the profiler
    completes exactly when the frame has an object column; it then
    reports zero rows, zero duplicates, a null report without entries
    and zero distinct values for every column.  Without an object column
    (and so without any column) the summaries raise [ValueError]. *)
Theorem exploracion_datos_sin_filas df nu inf :
  bien_formado df → n_filas df = 0%nat →
  (tiene_object df = true →
     ∃ r1 r2,
       exploracion_datos df nu inf =
         ([EvPrint (MsgForma 0 (length (columnas df))); EvPrint MsgRaya;
           EvPrint (MsgDuplicados 0); EvPrint MsgRaya;
           EvPrint MsgNumericas; EvDisplay (DResumen r1); EvPrint MsgRaya;
           EvPrint MsgCategoricas; EvDisplay (DResumen r2); EvPrint MsgRaya;
           EvPrint MsgNulos; EvDisplay (DNulos [])] ++ cola_exploracion df nu inf,
          Normal tt) ∧
       Forall (λ c, c.2 = 0%nat) (Pandas.nunique df)) ∧
  (tiene_object df = false →
     ∃ o msg, exploracion_datos df nu inf = (o, Lanza (ValueError msg))).
Proof.
  intros Hbf Hn. pose proof (tabla_nulos_sin_filas df Hbf Hn) as Hnul.
  pose proof (nunique_sin_filas df Hbf Hn) as Huni.
  pose proof (duplicated_sin_filas df Hn) as Hdup.
  unfold exploracion_datos, cola_exploracion, shape. rewrite Hn, Hnul, Hdup.
  split; intros Ho.
  - destruct (describe_O_Normal df Ho) as [r2 E2].
    destruct (describe_Normal df) as [r1 E1].
    { unfold tiene_object in Ho. by destruct (columnas df). }
    exists r1, r2. rewrite E1, E2. split.
    + by destruct nu, inf.
    + rewrite Huni. by apply Forall_fmap, Forall_true.
  - destruct (describe_O_Lanza df Ho) as [msg E2]. rewrite E2.
    destruct (describe df) as [r1|[k|msg1|msg1]] eqn:E1; desplegar; eauto.
    all: unfold describe in E1; by repeat case_match.
Qed.

(** A frame without rows and with an object column is profiled to the
    end. *)
Lemma exploracion_datos_sin_filas_testigo :
  bien_formado df_sin_filas ∧ n_filas df_sin_filas = 0%nat ∧
  tiene_object df_sin_filas = true ∧
  completa (exploracion_datos df_sin_filas true false) ∧
  EvDisplay (DNulos []) ∈ (exploracion_datos df_sin_filas true false).1.
Proof.
  assert (Hbf : bien_formado df_sin_filas) by (split; decidir).
  destruct (exploracion_datos_sin_filas df_sin_filas true false Hbf eq_refl)
    as [Hsi _].
  destruct (Hsi eq_refl) as (r1 & r2 & Heq & _).
  split; [exact Hbf|]. do 2 (split; [reflexivity|]).
  rewrite Heq. split; [reflexivity|].
  simpl. do 11 apply list_elem_of_further. apply list_elem_of_here.
Defined.

(** C6, counterexample.  The empty frame [pd.DataFrame()] and a frame
    with a numeric column and no row are both datasets with zero rows;
    the profiler raises [ValueError] on each, at the first and at the
    second summary. *)
Lemma exploracion_datos_vacio_falla :
  exploracion_datos df_sin_columnas true false =
    ([EvPrint (MsgForma 0 0); EvPrint MsgRaya; EvPrint (MsgDuplicados 0);
      EvPrint MsgRaya; EvPrint MsgNumericas],
     Lanza (ValueError "Cannot describe a DataFrame without columns")) ∧
  exploracion_datos df_sin_filas_numerico true false =
    ([EvPrint (MsgForma 0 1); EvPrint MsgRaya; EvPrint (MsgDuplicados 0);
      EvPrint MsgRaya; EvPrint MsgNumericas; EvDisplay (DResumen ["edad"]);
      EvPrint MsgRaya; EvPrint MsgCategoricas],
     Lanza (ValueError "No objects to concatenate")).
Proof. split; reflexivity. Qed.

(* ===================================================================== *)
(** * Visualizador.separar_dataframes *)
(* ===================================================================== *)

Lemma es_number_iff d :
  es_number d = true ↔ d = int64 ∨ d = float64 ∨ d = timedelta64.
Proof. destruct d; simpl; intuition congruence. Qed.

Lemma es_object_iff d : es_object d = true ↔ d = object.
Proof. destruct d; simpl; intuition congruence. Qed.

Lemma otro_tipo_iff d : otro_tipo d ↔ es_number d = false ∧ es_object d = false.
Proof.
  unfold otro_tipo. destruct d; simpl; split.
  all: try (intros [?|[?|(? & ? & ?)]]; (discriminate || done)).
  all: try (intros [? ?]; discriminate).
  all: intros _; eauto 6.
Qed.

(** C10.  The two frames returned have the rows of the input; the first
    has exactly its columns of a numpy number type (integers, floats
    and durations) and the second exactly its [object] columns, each in
    the input's order; a boolean, datetime or categorical column is in
    neither, so the two parts cover the input only when it has no such
    column. *)
Theorem separar_dataframes_partes (h : gmap ref DataFrame) (d : ref) (df : DataFrame) :
  h !! d = Some df →
  ∃ num cat,
    Visualizador.separar_dataframes (Visualizador.__init__ d) h = Some (num, cat) ∧
    n_filas num = n_filas df ∧ n_filas cat = n_filas df ∧
    (∀ c, c ∈ columnas num ↔
          c ∈ columnas df ∧
          (s_dtype c.2 = int64 ∨ s_dtype c.2 = float64 ∨ s_dtype c.2 = timedelta64)) ∧
    (∀ c, c ∈ columnas cat ↔ c ∈ columnas df ∧ s_dtype c.2 = object) ∧
    sublist (columnas num) (columnas df) ∧
    sublist (columnas cat) (columnas df) ∧
    (∀ c, c ∈ columnas df → otro_tipo (s_dtype c.2) →
          (c ∉ columnas num) ∧ (c ∉ columnas cat)) ∧
    ((∀ c, c ∈ columnas df → c ∈ columnas num ∨ c ∈ columnas cat) ↔
     Forall (λ c, ¬ otro_tipo (s_dtype c.2)) (columnas df)).
Proof.
  intros Hd. unfold Visualizador.separar_dataframes, Visualizador.__init__. simpl.
  rewrite Hd. simpl. do 2 eexists. split; [reflexivity|]. simpl.
  set (num := filter (λ c : string * Series, es_number (s_dtype c.2) = true) (columnas df)).
  set (cat := filter (λ c : string * Series, es_object (s_dtype c.2) = true) (columnas df)).
  assert (Hnum : ∀ c, c ∈ num ↔ c ∈ columnas df ∧ es_number (s_dtype c.2) = true).
  { intros c. unfold num. rewrite list_elem_of_filter. tauto. }
  assert (Hcat : ∀ c, c ∈ cat ↔ c ∈ columnas df ∧ es_object (s_dtype c.2) = true).
  { intros c. unfold cat. rewrite list_elem_of_filter. tauto. }
  split; [done|]. split; [done|].
  split; [intros c; by rewrite Hnum, es_number_iff|].
  split; [intros c; by rewrite Hcat, es_object_iff|].
  split; [apply sublist_filter|]. split; [apply sublist_filter|].
  split.
  - intros c Hc [Hn Ho]%otro_tipo_iff. rewrite Hnum, Hcat, Hn, Ho. split; intros [_ ?]; done.
  - split.
    + intros Hcov. apply Forall_forall. intros c Hc [Hn Ho]%otro_tipo_iff.
      destruct (Hcov c Hc) as [[_ H]%Hnum|[_ H]%Hcat]; congruence.
    + intros Hall c Hc. rewrite Forall_forall in Hall. specialize (Hall c Hc).
      rewrite otro_tipo_iff in Hall. rewrite Hnum, Hcat.
      destruct (es_number (s_dtype c.2)); [by left|].
      destruct (es_object (s_dtype c.2)); [by right|]. by destruct Hall.
Qed.

(** On [df_tipos] the numeric part is [edad], [precio], [espera], the
    object part is [ciudad], and [activo], [alta] and [mes] are in
    neither. *)
Lemma separar_dataframes_testigo :
  almacen !! 2%positive = Some df_tipos ∧
  ∃ num cat,
    Visualizador.separar_dataframes (Visualizador.__init__ 2%positive) almacen
      = Some (num, cat) ∧
    nombres num = ["edad"; "precio"; "espera"] ∧ nombres cat = ["ciudad"] ∧
    ¬ (∀ c, c ∈ columnas df_tipos → c ∈ columnas num ∨ c ∈ columnas cat).
Proof.
  split; [reflexivity|].
  destruct (separar_dataframes_partes almacen 2%positive df_tipos eq_refl)
    as (num & cat & Heq & _ & _ & _ & _ & _ & _ & _ & Hcubre).
  exists num, cat. split; [exact Heq|].
  vm_compute in Heq. injection Heq as <- <-.
  split; [reflexivity|]. split; [reflexivity|].
  intros Hc. apply Hcubre in Hc. apply Forall_cons in Hc as [_ Hc].
  apply Forall_cons in Hc as [_ Hc]. apply Forall_cons in Hc as [Hc _].
  apply Hc. by left.
Defined.

(* ===================================================================== *)
(** * The contingency table *)
(* ===================================================================== *)

Lemma etiquetas_elem (l : list valor) x : x ∈ etiquetas l ↔ x ∈ l.
Proof. unfold etiquetas. by rewrite ordenar_Permutation, elem_of_remove_dups. Qed.

Lemma etiquetas_NoDup (l : list valor) : NoDup (etiquetas l).
Proof. unfold etiquetas. rewrite ordenar_Permutation. apply NoDup_remove_dups. Qed.

Lemma cuenta_fila (ps : list (valor * valor)) r c :
  cuenta ps r c = Z.of_nat (veces snd (filter (λ p, p.1 = r) ps) c).
Proof.
  unfold cuenta, veces. f_equal.
  induction ps as [|[x y] ps IH]; [done|].
  rewrite !filter_cons. simpl.
  destruct (decide (x = r)) as [->|Hne].
  - rewrite filter_cons. simpl.
    destruct (decide (y = c)) as [->|Hne].
    + rewrite decide_True by done. simpl. by rewrite IH.
    + rewrite decide_False by congruence. done.
  - rewrite decide_False by congruence. done.
Qed.

Lemma cuenta_columna (ps : list (valor * valor)) r c :
  cuenta ps r c = Z.of_nat (veces fst (filter (λ p, p.2 = c) ps) r).
Proof.
  unfold cuenta, veces. f_equal.
  induction ps as [|[x y] ps IH]; [done|].
  rewrite !filter_cons. simpl.
  destruct (decide (y = c)) as [->|Hne].
  - rewrite filter_cons. simpl.
    destruct (decide (x = r)) as [->|Hne].
    + rewrite decide_True by done. simpl. by rewrite IH.
    + rewrite decide_False by congruence. done.
  - rewrite decide_False by congruence. done.
Qed.

Lemma suma_fila_crosstab (ps : list (valor * valor)) r :
  sumaZ (map (cuenta ps r) (etiquetas ps.*2)) = Z.of_nat (veces fst ps r).
Proof.
  erewrite map_ext; [|intros c; apply cuenta_fila].
  rewrite sumaZ_of_nat, suma_veces; [done|apply etiquetas_NoDup|].
  intros p [_ Hp]%list_elem_of_filter. apply etiquetas_elem, list_elem_of_fmap. eauto.
Qed.

Lemma suma_columna_crosstab (ps : list (valor * valor)) c :
  sumaZ (map (λ r, cuenta ps r c) (etiquetas ps.*1)) = Z.of_nat (veces snd ps c).
Proof.
  erewrite map_ext; [|intros r; apply cuenta_columna].
  rewrite sumaZ_of_nat, suma_veces; [done|apply etiquetas_NoDup|].
  intros p [_ Hp]%list_elem_of_filter. apply etiquetas_elem, list_elem_of_fmap. eauto.
Qed.

(** The cells of the table add up to the number of rows of the
    cross-section. *)
Lemma total_crosstab (a b : Series) :
  total_tabla (crosstab a b) = Z.of_nat (length (pares_presentes a b)).
Proof.
  unfold total_tabla, crosstab. cbn [values]. rewrite map_map.
  erewrite map_ext; [|intros r; apply suma_fila_crosstab].
  rewrite sumaZ_of_nat, suma_veces; [done|apply etiquetas_NoDup|].
  intros p Hp. apply etiquetas_elem, list_elem_of_fmap. eauto.
Qed.

Lemma pares_presentes_notnull (a b : Series) p :
  p ∈ pares_presentes a b → p.1 ≠ VNull ∧ p.2 ≠ VNull.
Proof.
  intros [[H1 H2] _]%list_elem_of_filter. split; intros E; rewrite E in *; done.
Qed.

Lemma cuenta_todas_las_filas (a b : Series) r c :
  r ≠ VNull → c ≠ VNull →
  cuenta (pares_presentes a b) r c
  = Z.of_nat (length (filter (λ p, p = (r, c)) (zip (s_values a) (s_values b)))).
Proof.
  intros Hr Hc. unfold cuenta, pares_presentes. f_equal.
  induction (zip (s_values a) (s_values b)) as [|[x y] l IH]; [done|].
  rewrite !filter_cons. simpl.
  destruct (decide ((x, y) = (r, c))) as [[= -> ->]|Hne].
  - rewrite decide_True; [|by destruct r, c].
    rewrite filter_cons, decide_True by done. simpl. by rewrite IH.
  - case_decide; [|done]. by rewrite filter_cons, decide_False.
Qed.

Lemma buscar_Some nombre cols s :
  buscar nombre cols = Some s → (nombre, s) ∈ cols.
Proof.
  induction cols as [|[n s0] cols IH]; simpl; [done|].
  case_decide as E; [intros [= ->]; subst; by left|]. intros H. right. by apply IH.
Qed.

Lemma buscar_None nombre cols :
  nombre ∉ cols.*1 → buscar nombre cols = None.
Proof.
  induction cols as [|[n s] cols IH]; simpl; [done|].
  intros [Hne Hnotin]%not_elem_of_cons. rewrite decide_False by done. by apply IH.
Qed.

Lemma getitem_Normal df nombre s :
  getitem df nombre = Normal s → (nombre, s) ∈ columnas df.
Proof.
  unfold getitem. destruct (buscar _ _) eqn:E; [|done].
  intros [= ->]. by apply buscar_Some.
Qed.

Lemma getitem_KeyError df nombre :
  nombre ∉ nombres df → getitem df nombre = Lanza (KeyError nombre).
Proof. intros H. unfold getitem. by rewrite buscar_None. Qed.

Lemma getitem_length df nombre s :
  bien_formado df → getitem df nombre = Normal s → length (s_values s) = n_filas df.
Proof.
  intros [_ Hlen] H%getitem_Normal. rewrite Forall_forall in Hlen. by apply (Hlen _ H).
Qed.

(** C9.  In the table built from two columns of a frame, no label is
    the missing value, every cell is the number of rows of the frame
    with that pair of values, and the cells add up to the number of rows
    in which both values are present: the row count of the frame less
    the rows that miss one of the two. *)
Theorem crosstab_cuenta_filas_completas df categoria var_respuesta a b :
  bien_formado df →
  getitem df categoria = Normal a →
  getitem df var_respuesta = Normal b →
  let t := crosstab a b in
  let filas := zip (s_values a) (s_values b) in
  length filas = n_filas df ∧
  (VNull ∉ index t) ∧ (VNull ∉ columns t) ∧
  (∀ i j r c, index t !! i = Some r → columns t !! j = Some c →
     celda t i j = Some (Z.of_nat (length (filter (λ p, p = (r, c)) filas)))) ∧
  total_tabla t = Z.of_nat (length (filter presentes filas)) ∧
  (total_tabla t + Z.of_nat (length (filter (λ p, ¬ presentes p) filas))
   = Z.of_nat (n_filas df))%Z.
Proof.
  intros Hbf Ha Hb t filas.
  assert (Hlen : length filas = n_filas df).
  { unfold filas.
    rewrite length_zip, (getitem_length _ _ _ Hbf Ha), (getitem_length _ _ _ Hbf Hb). lia. }
  assert (Hidx : ∀ r, r ∈ index t → r ≠ VNull).
  { intros r (p & -> & Hp)%etiquetas_elem%list_elem_of_fmap.
    by apply pares_presentes_notnull in Hp as []. }
  assert (Hcol : ∀ c, c ∈ columns t → c ≠ VNull).
  { intros c (p & -> & Hp)%etiquetas_elem%list_elem_of_fmap.
    by apply pares_presentes_notnull in Hp as []. }
  split; [done|]. split; [by intros ?%Hidx|]. split; [by intros ?%Hcol|].
  split; [|split].
  - intros i j r c Hi Hj.
    pose proof (Hidx r (list_elem_of_lookup_2 _ _ _ Hi)) as Hr.
    pose proof (Hcol c (list_elem_of_lookup_2 _ _ _ Hj)) as Hc.
    unfold celda. subst t. unfold crosstab in *. cbn [index columns values] in *.
    rewrite list_lookup_fmap, Hi. simpl.
    rewrite list_lookup_fmap, Hj. simpl. f_equal.
    by apply cuenta_todas_las_filas.
  - apply total_crosstab.
  - unfold t. rewrite total_crosstab. unfold pares_presentes. fold filas.
    rewrite <- Hlen, <- (filter_particion presentes filas). unfold presentes. lia.
Qed.

(** In [df_huecos] two of the five rows miss a value: the table of [g]
    by [y] counts three rows. *)
Lemma crosstab_cuenta_filas_completas_testigo :
  bien_formado df_huecos ∧
  n_filas df_huecos = 5%nat ∧
  ∃ a b, getitem df_huecos "g" = Normal a ∧ getitem df_huecos "y" = Normal b ∧
         total_tabla (crosstab a b) = 3%Z ∧
         (VNull ∉ index (crosstab a b)).
Proof.
  assert (Hbf : bien_formado df_huecos) by (split; decidir).
  split; [exact Hbf|]. split; [reflexivity|].
  eexists _, _. split; [reflexivity|]. split; [reflexivity|].
  edestruct (crosstab_cuenta_filas_completas df_huecos "g" "y" _ _ Hbf eq_refl eq_refl)
    as (_ & Hnull & _ & _ & Htot & _).
  split; [exact Htot|exact Hnull].
Defined.

(* ===================================================================== *)
(** * Expected frequencies *)
(* ===================================================================== *)

Lemma margen_columnas_tabla {A B} (f : A → B → Q) (la : list A) (lb : list B) :
  margen_columnas (length lb) (map (λ r, map (f r) lb) la)
  = map (λ c, suma (map (λ r, f r c) la)) lb.
Proof.
  unfold margen_columnas. induction la as [|r la IH]; simpl.
  - induction lb as [|c lb IH]; simpl; [done|]. by rewrite IH.
  - rewrite IH. clear IH. induction lb as [|c lb IH]; simpl; [done|]. by rewrite IH.
Qed.

Lemma margen_filas_obs {A B} (f : A → B → Q) la lb :
  margen_filas (tabla_de f la lb) = map (total_fila f lb) la.
Proof. unfold margen_filas, tabla_de. by rewrite map_map. Qed.

Lemma margen_columnas_obs {A B} (f : A → B → Q) la lb :
  margen_columnas (length lb) (tabla_de f la lb) = map (total_columna f la) lb.
Proof. apply margen_columnas_tabla. Qed.

Lemma total_obs {A B} (f : A → B → Q) la lb :
  total (tabla_de f la lb) = gran_total f la lb.
Proof. unfold total, tabla_de, gran_total. by rewrite map_map. Qed.

Section Esperadas.
Context {A B : Type} (f : A → B → Q) (la : list A) (lb : list B).

Local Abbreviation obs := (tabla_de f la lb).
Local Abbreviation R := (total_fila f lb).
Local Abbreviation C := (total_columna f la).
Local Abbreviation N := (gran_total f la lb).

Lemma suma_C : (suma (map C lb) == N)%Q.
Proof. apply suma_intercambio. Qed.

Lemma expected_freq_obs :
  expected_freq (length lb) obs = tabla_de (λ r c, (R r * C c / N)%Q) la lb.
Proof.
  unfold expected_freq. rewrite margen_filas_obs, margen_columnas_obs, total_obs.
  unfold tabla_de. rewrite map_map. apply map_ext. intros r. by rewrite map_map.
Qed.

Hypothesis N_no_cero : ¬ (N == 0)%Q.

Lemma fila_esperada r : (total_fila (λ r c, R r * C c / N) lb r == R r)%Q.
Proof. unfold total_fila at 1. rewrite suma_escala_l, suma_C. field. done. Qed.

Lemma columna_esperada c : (total_columna (λ r c, R r * C c / N) la c == C c)%Q.
Proof.
  unfold total_columna at 1. rewrite suma_escala.
  change (suma (map R la)) with N. field. done.
Qed.

Lemma margen_filas_esperadas :
  Forall2 Qeq (margen_filas (expected_freq (length lb) obs)) (margen_filas obs).
Proof.
  rewrite expected_freq_obs, !margen_filas_obs.
  apply Forall2_fmap, Forall_Forall2_diag, Forall_forall. intros r _. apply fila_esperada.
Qed.

Lemma margen_columnas_esperadas :
  Forall2 Qeq (margen_columnas (length lb) (expected_freq (length lb) obs))
              (margen_columnas (length lb) obs).
Proof.
  rewrite expected_freq_obs, !margen_columnas_obs.
  apply Forall2_fmap, Forall_Forall2_diag, Forall_forall. intros c _.
  apply columna_esperada.
Qed.

Lemma total_esperadas : (total (expected_freq (length lb) obs) == total obs)%Q.
Proof.
  rewrite expected_freq_obs, !total_obs. unfold gran_total.
  apply suma_ext. intros r _. apply fila_esperada.
Qed.
End Esperadas.

Section TablaCruzada.
Context (a b : Series).

Local Abbreviation ps := (pares_presentes a b).
Local Abbreviation idx := (etiquetas (pares_presentes a b).*1).
Local Abbreviation cols := (etiquetas (pares_presentes a b).*2).

Lemma a_float_crosstab :
  a_float (values (crosstab a b)) = tabla_de (cuenta_q ps) idx cols.
Proof.
  unfold a_float, crosstab, tabla_de. cbn [values]. rewrite map_map.
  apply map_ext. intros r. by rewrite map_map.
Qed.

Lemma margen_fila_crosstab r :
  (total_fila (cuenta_q ps) cols r == inject_Z (Z.of_nat (veces fst ps r)))%Q.
Proof.
  unfold total_fila, cuenta_q.
  rewrite <- (map_map (cuenta ps r) inject_Z), suma_inject.
  by rewrite suma_fila_crosstab.
Qed.

Lemma margen_columna_crosstab c :
  (total_columna (cuenta_q ps) idx c == inject_Z (Z.of_nat (veces snd ps c)))%Q.
Proof.
  unfold total_columna, cuenta_q.
  rewrite <- (map_map (λ r, cuenta ps r c) inject_Z), suma_inject.
  by rewrite suma_columna_crosstab.
Qed.

Lemma total_a_float_crosstab :
  (total (a_float (values (crosstab a b))) == inject_Z (Z.of_nat (length ps)))%Q.
Proof.
  unfold total, a_float. rewrite map_map.
  rewrite (suma_ext _ (λ fila, inject_Z (sumaZ fila))) by (intros; apply suma_inject).
  rewrite <- (map_map sumaZ inject_Z), suma_inject.
  by rewrite <- total_crosstab.
Qed.

Lemma index_vacio : idx = [] ↔ ps = [].
Proof.
  split.
  - intros H. destruct ps as [|p l] eqn:E; [done|].
    assert (p.1 ∈ etiquetas (p :: l).*1) as Hin
      by (apply etiquetas_elem; rewrite fmap_cons; left).
    rewrite H in Hin. by apply elem_of_nil in Hin.
  - by intros ->.
Qed.

Lemma columns_vacio : cols = [] ↔ ps = [].
Proof.
  split.
  - intros H. destruct ps as [|p l] eqn:E; [done|].
    assert (p.2 ∈ etiquetas (p :: l).*2) as Hin
      by (apply etiquetas_elem; rewrite fmap_cons; left).
    rewrite H in Hin. by apply elem_of_nil in Hin.
  - by intros ->.
Qed.
End TablaCruzada.

Lemma total_crosstab_no_cero a b :
  pares_presentes a b ≠ [] →
  ¬ (total (a_float (values (crosstab a b))) == 0)%Q.
Proof.
  intros Hps. rewrite total_a_float_crosstab.
  intros H%inject_Z_of_nat_cero. by apply nil_length_inv in H.
Qed.

(** Every label of the table was observed, so no expected frequency is
    zero. *)
Lemma esperadas_no_cero a b :
  pares_presentes a b ≠ [] →
  existsb (existsb (λ x, Qeq_bool x 0)) (esperadas (crosstab a b)) = false.
Proof.
  intros Hps. pose proof (total_crosstab_no_cero a b Hps) as HN.
  unfold esperadas. rewrite a_float_crosstab in *.
  change (columns (crosstab a b)) with (etiquetas (pares_presentes a b).*2).
  rewrite expected_freq_obs. rewrite total_obs in HN.
  set (N := gran_total _ _ _) in *. unfold tabla_de.
  apply existsb_false, Forall_fmap, Forall_forall. intros r Hr. simpl.
  apply existsb_false, Forall_fmap, Forall_forall. intros c Hc. simpl.
  apply not_true_is_false. intros H%Qeq_bool_iff.
  apply Qmult_integral in H as [H|H].
  - apply Qmult_integral in H as [H|H].
    + rewrite margen_fila_crosstab in H. apply inject_Z_of_nat_cero in H.
      apply etiquetas_elem, veces_pos in Hr. lia.
    + rewrite margen_columna_crosstab in H. apply inject_Z_of_nat_cero in H.
      apply etiquetas_elem, veces_pos in Hc. lia.
  - apply HN. rewrite <- (Qinv_involutive N), H. reflexivity.
Qed.

Lemma crosstab_no_negativa a b :
  existsb (existsb (λ x, (x <? 0)%Z)) (values (crosstab a b)) = false.
Proof.
  unfold crosstab. cbn [values].
  apply existsb_false, Forall_fmap, Forall_forall. intros r _. simpl.
  apply existsb_false, Forall_fmap, Forall_forall. intros c _. simpl.
  unfold cuenta. apply Z.ltb_ge. lia.
Qed.

Lemma crosstab_tamano a b :
  pares_presentes a b ≠ [] →
  (0 < length (index (crosstab a b)))%nat ∧ (0 < length (columns (crosstab a b)))%nat.
Proof.
  intros Hps. unfold crosstab. cbn [index columns]. split.
  - destruct (etiquetas _.*1) eqn:E; [by apply index_vacio in E|simpl; lia].
  - destruct (etiquetas _.*2) eqn:E; [by apply columns_vacio in E|simpl; lia].
Qed.

(** The table has no more rows than the column has distinct values. *)
Lemma index_le_distintos a b :
  (length (index (crosstab a b)) ≤ distintos a)%nat.
Proof.
  unfold crosstab, distintos. cbn [index].
  apply submseteq_length, NoDup_submseteq; [apply etiquetas_NoDup|].
  intros x (p & -> & [[Hp _] Hin]%list_elem_of_filter)%etiquetas_elem%list_elem_of_fmap.
  apply elem_of_remove_dups, list_elem_of_filter. split; [done|].
  destruct p as [u v]. by apply elem_of_zip_l in Hin.
Qed.

Section Chi2Lemas.
Variable sf : Q → Z → Q.

Lemma chi2_contingency_vacia a b :
  pares_presentes a b = [] →
  chi2_contingency sf (crosstab a b)
  = Lanza (ValueError "No data; `observed` has size 0.").
Proof.
  intros Hps. unfold chi2_contingency, crosstab. rewrite Hps. done.
Qed.

(** On a table with a cell, the test returns: with [p = 1] when there
    are no degrees of freedom, from the statistic otherwise. *)
Lemma chi2_contingency_crosstab a b :
  pares_presentes a b ≠ [] →
  let t := crosstab a b in
  let obs := a_float (values t) in
  chi2_contingency sf t =
    if (grados t =? 0)%Z then Normal (0%Q, 1%Q, grados t, esperadas t)
    else
      let obs' := if (grados t =? 1)%Z then yates obs (esperadas t) else obs in
      Normal (pearson obs' (esperadas t), sf (pearson obs' (esperadas t)) (grados t),
              grados t, esperadas t).
Proof.
  intros Hps t obs. unfold chi2_contingency. fold t.
  unfold t at 1. rewrite crosstab_no_negativa.
  destruct (crosstab_tamano a b Hps) as [Hr Hc]. fold t in Hr, Hc.
  destruct (_ * _ =? 0)%nat eqn:E; [apply Nat.eqb_eq in E; nia|].
  fold (esperadas t). unfold t at 1. rewrite (esperadas_no_cero a b Hps). fold t.
  replace (Z.of_nat (length (index t) * length (columns t))
           - Z.of_nat (length (index t) + length (columns t)) + 2 - 1)%Z
    with (grados t) by (unfold grados; nia).
  done.
Qed.
End Chi2Lemas.

(** C5.  For the table of any two columns, with at least two rows and
    two columns of its own, the test returns, and the expected
    frequencies it returns (row total times column total over grand
    total) have the row totals, the column totals and the grand total
    of the observed table within 1e-6; both grand totals are the number
    of rows of the cross-section.  Numbers are exact rationals here, so
    the totals are in fact equal. *)
Theorem esperadas_conservan_margenes (sf : Q → Z → Q) (a b : Series) :
  let t := crosstab a b in
  let obs := a_float (values t) in
  let n := length (columns t) in
  (2 ≤ length (index t))%nat → (2 ≤ length (columns t))%nat →
  ∃ chi2 p dof expected,
    chi2_contingency sf t = Normal (chi2, p, dof, expected) ∧
    expected = expected_freq n obs ∧
    Forall2 cerca (margen_filas expected) (margen_filas obs) ∧
    Forall2 cerca (margen_columnas n expected) (margen_columnas n obs) ∧
    cerca (total expected) (total obs) ∧
    (total obs == inject_Z (Z.of_nat (length (pares_presentes a b))))%Q ∧
    cerca (total expected) (inject_Z (Z.of_nat (length (pares_presentes a b)))).
Proof.
  intros t obs n Hr Hc.
  assert (Hps : pares_presentes a b ≠ []).
  { intros E. unfold t, crosstab in Hr. rewrite E in Hr. simpl in Hr. lia. }
  pose proof (total_crosstab_no_cero a b Hps) as HN.
  pose proof (total_a_float_crosstab a b) as Htot.
  assert (∃ chi2 p dof, chi2_contingency sf t = Normal (chi2, p, dof, esperadas t))
    as (chi2 & p & dof & Hchi).
  { unfold t. rewrite (chi2_contingency_crosstab sf a b Hps). simpl.
    destruct (_ =? 0)%Z; eauto. }
  exists chi2, p, dof, (esperadas t). split; [done|]. split; [done|].
  unfold esperadas, obs, n, t in *.
  change (columns (crosstab a b)) with (etiquetas (pares_presentes a b).*2).
  rewrite a_float_crosstab in *. rewrite total_obs in HN.
  split; [|split; [|split; [|split]]].
  - eapply Forall2_impl; [by apply margen_filas_esperadas|]. apply Qeq_cerca.
  - eapply Forall2_impl; [by apply margen_columnas_esperadas|]. apply Qeq_cerca.
  - apply Qeq_cerca. by apply total_esperadas.
  - done.
  - apply Qeq_cerca. rewrite total_esperadas by done. done.
Qed.

(** The table of [Gender] by [Bought] of [df_tienda] is two by two; its
    expected frequencies add up to the 80 rows. *)
Lemma esperadas_conservan_margenes_testigo :
  (2 ≤ length (index (crosstab col_gender col_bought)))%nat ∧
  (2 ≤ length (columns (crosstab col_gender col_bought)))%nat ∧
  ∃ chi2 p dof expected,
    chi2_contingency (sf_constante 0.001) (crosstab col_gender col_bought)
      = Normal (chi2, p, dof, expected) ∧
    cerca (total expected) 80.
Proof.
  split; [vm_compute; lia|]. split; [vm_compute; lia|].
  destruct (esperadas_conservan_margenes (sf_constante 0.001) col_gender col_bought)
    as (chi2 & p & dof & expected & Hchi & _ & _ & _ & _ & _ & Htot);
    [vm_compute; lia..|].
  exists chi2, p, dof, expected. split; [exact Hchi|exact Htot].
Defined.

(* ===================================================================== *)
(** * The association analyzer *)
(* ===================================================================== *)

Section AnalizadorLemas.
Variable sf : Q → Z → Q.
Variables (df : DataFrame) (var_respuesta : string) (sig_level : Q).

(** One iteration, by the first call that raises. *)
Lemma cuerpo_eq categoria :
  cuerpo sf df var_respuesta sig_level categoria =
  match getitem df categoria with
  | Lanza e => ([EvPrint (MsgEvaluando (upper categoria))], Lanza e)
  | Normal a =>
      match getitem df var_respuesta with
      | Lanza e => ([EvPrint (MsgEvaluando (upper categoria))], Lanza e)
      | Normal b =>
          let t := crosstab a b in
          match chi2_contingency sf t with
          | Lanza e =>
              ([EvPrint (MsgEvaluando (upper categoria)); EvDisplay (DObservada t)],
               Lanza e)
          | Normal (_, p, _, expected) =>
              (if Qltb p sig_level then informe_si categoria t p expected
               else informe_no categoria t p, Normal tt)
          end
      end
  end.
Proof.
  unfold cuerpo.
  destruct (getitem df categoria) as [a|e]; [|done].
  destruct (getitem df var_respuesta) as [b|e]; [|done].
  desplegar.
  destruct (chi2_contingency sf (crosstab a b)) as [[[[chi2 p] dof] expected]|e]; [|done].
  simpl. by destruct (Qltb p sig_level).
Qed.

(** An iteration completes exactly when both columns exist and some row
    has both values. *)
Lemma cuerpo_completa categoria :
  completa (cuerpo sf df var_respuesta sig_level categoria) ↔
  ∃ a b, getitem df categoria = Normal a ∧ getitem df var_respuesta = Normal b ∧
         pares_presentes a b ≠ [].
Proof.
  unfold completa. rewrite cuerpo_eq. split.
  - destruct (getitem df categoria) as [a|e]; [|done].
    destruct (getitem df var_respuesta) as [b|e]; [|done].
    cbv zeta. intros H. exists a, b. repeat split.
    intros Hps. by rewrite (chi2_contingency_vacia sf a b Hps) in H.
  - intros (a & b & -> & -> & Hps). cbv zeta.
    rewrite (chi2_contingency_crosstab sf a b Hps). cbv zeta.
    by destruct (_ =? 0)%Z.
Qed.

Lemma cuerpo_completa_muestra categoria :
  completa (cuerpo sf df var_respuesta sig_level categoria) →
  ∃ a b, getitem df categoria = Normal a ∧ getitem df var_respuesta = Normal b ∧
         EvDisplay (DObservada (crosstab a b))
           ∈ (cuerpo sf df var_respuesta sig_level categoria).1.
Proof.
  intros (a & b & Ha & Hb & Hps)%cuerpo_completa. exists a, b.
  split; [done|]. split; [done|].
  rewrite cuerpo_eq, Ha, Hb. cbv zeta.
  rewrite (chi2_contingency_crosstab sf a b Hps). cbv zeta.
  destruct (_ =? 0)%Z; simpl; destruct (Qltb _ _); simpl;
    apply list_elem_of_further, list_elem_of_here.
Qed.
End AnalizadorLemas.

Section Bucle.
Context {A : Type} (f : A → M unit).

Lemma for_each_cons (x : A) (l : list A) :
  for_each (x :: l) f =
  match (f x).2 with
  | Normal _ => ((f x).1 ++ (for_each l f).1, (for_each l f).2)
  | Lanza e => ((f x).1, Lanza e)
  end.
Proof.
  simpl. destruct (f x) as [o [[]|e]]; desplegar; [|done].
  by destruct (for_each l f).
Qed.

Lemma for_each_app (l1 l2 : list A) :
  Forall (λ x, completa (f x)) l1 →
  for_each (l1 ++ l2) f = (trazas f l1 ++ (for_each l2 f).1, (for_each l2 f).2).
Proof.
  induction 1 as [|x l Hx _ IH]; simpl.
  - by destruct (for_each l2 f).
  - unfold trazas, completa in *. simpl. rewrite IH.
    destruct (f x) as [o r]. simpl in Hx. subst r.
    desplegar. by rewrite app_assoc.
Qed.
End Bucle.

(** C4.  When the test of a column returns a p-value [p], the iteration
    writes, in this order: the heading, the observed table, then either
    the "significant" message and the expected table, each expected
    frequency rounded to an integer at most 1/2 away, when
    [p < sig_level], or the "not significant" message alone otherwise;
    then the separator. *)
Theorem regla_de_decision (sf : Q → Z → Q) df var_respuesta sig_level categoria a b
    chi2 p dof expected :
  getitem df categoria = Normal a →
  getitem df var_respuesta = Normal b →
  chi2_contingency sf (crosstab a b) = Normal (chi2, p, dof, expected) →
  let t := crosstab a b in
  let mostrada := map (map redondear) expected in
  ((p < sig_level)%Q →
     cuerpo sf df var_respuesta sig_level categoria =
       ([EvPrint (MsgEvaluando (upper categoria)); EvDisplay (DObservada t);
         EvPrint (MsgSi (upper categoria) p);
         EvDisplay (DEsperada (mkTabla (index t) (columns t) mostrada));
         EvPrint MsgSeparador], Normal tt)) ∧
  (¬ (p < sig_level)%Q →
     cuerpo sf df var_respuesta sig_level categoria =
       ([EvPrint (MsgEvaluando (upper categoria)); EvDisplay (DObservada t);
         EvPrint (MsgNo (upper categoria) p);
         EvPrint MsgSeparador], Normal tt)) ∧
  Forall2 (Forall2 (λ e z, (Qabs (e - inject_Z z) <= 1 # 2)%Q)) expected mostrada.
Proof.
  intros Ha Hb Hchi t mostrada. subst t. rewrite cuerpo_eq, Ha, Hb. cbv zeta. rewrite Hchi.
  split; [|split].
  - intros Hp%Qltb_lt. by rewrite Hp.
  - intros Hp. destruct (Qltb p sig_level) eqn:E; [by apply Qltb_lt in E|done].
  - unfold mostrada. apply Forall2_fmap_r, Forall_Forall2_diag, Forall_forall. intros fila _.
    apply Forall2_fmap_r, Forall_Forall2_diag, Forall_forall. intros x _.
    apply redondear_cercano.
Qed.

(** On [df_tienda], with a p-value of 0.001 and of 0.5. *)
Lemma regla_de_decision_testigo :
  cuerpo (sf_constante 0.001) df_tienda "Bought" sig_level_defecto "Gender" =
    ([EvPrint (MsgEvaluando "GENDER");
      EvDisplay (DObservada (mkTabla [VStr "F"; VStr "M"] [VInt 0; VInt 1]
                                     [[30; 10]; [10; 30]]%Z));
      EvPrint (MsgSi "GENDER" 0.001);
      EvDisplay (DEsperada (mkTabla [VStr "F"; VStr "M"] [VInt 0; VInt 1]
                                    [[20; 20]; [20; 20]]%Z));
      EvPrint MsgSeparador], Normal tt) ∧
  cuerpo (sf_constante 0.5) df_tienda "Bought" sig_level_defecto "Gender" =
    ([EvPrint (MsgEvaluando "GENDER");
      EvDisplay (DObservada (mkTabla [VStr "F"; VStr "M"] [VInt 0; VInt 1]
                                     [[30; 10]; [10; 30]]%Z));
      EvPrint (MsgNo "GENDER" 0.5);
      EvPrint MsgSeparador], Normal tt).
Proof.
  split.
  - edestruct (regla_de_decision (sf_constante 0.001) df_tienda "Bought"
                 sig_level_defecto "Gender") as (Hsi & _ & _);
      [reflexivity|reflexivity|vm_compute; reflexivity|].
    rewrite Hsi; [vm_compute; reflexivity|reflexivity].
  - edestruct (regla_de_decision (sf_constante 0.5) df_tienda "Bought"
                 sig_level_defecto "Gender") as (_ & Hno & _);
      [reflexivity|reflexivity|vm_compute; reflexivity|].
    rewrite Hno; [vm_compute; reflexivity|discriminate].
Defined.

(** C1, as the code has it.  There is no "cannot test" report.  When
    the column has fewer than two distinct values, or the response has
    fewer than two in the cross-section, and some row has both values,
    the test returns statistic 0, p-value 1 and 0 degrees of freedom,
    and for a significance level of at most 1 the column is reported as
    "not significant", nothing being raised.  When no row has both
    values the table is empty and the [ValueError] of the test leaves
    the call. *)
Theorem categoria_sin_variacion (sf : Q → Z → Q) df var_respuesta sig_level categoria a b :
  getitem df categoria = Normal a →
  getitem df var_respuesta = Normal b →
  (sig_level <= 1)%Q →
  let t := crosstab a b in
  (distintos a < 2 ∨ length (columns t) < 2)%nat →
  (pares_presentes a b ≠ [] →
     chi2_contingency sf t = Normal (0%Q, 1%Q, 0%Z, esperadas t) ∧
     cuerpo sf df var_respuesta sig_level categoria =
       ([EvPrint (MsgEvaluando (upper categoria)); EvDisplay (DObservada t);
         EvPrint (MsgNo (upper categoria) 1);
         EvPrint MsgSeparador], Normal tt)) ∧
  (pares_presentes a b = [] →
     t = mkTabla [] [] [] ∧
     cuerpo sf df var_respuesta sig_level categoria =
       ([EvPrint (MsgEvaluando (upper categoria)); EvDisplay (DObservada t)],
        Lanza (ValueError "No data; `observed` has size 0."))).
Proof.
  intros Ha Hb Hsig t Hdeg. rewrite cuerpo_eq, Ha, Hb. cbv zeta. fold t. split.
  - intros Hps. destruct (crosstab_tamano a b Hps) as [Hr Hc]. fold t in Hr, Hc.
    pose proof (index_le_distintos a b) as Hle. fold t in Hle.
    assert (Hchi : chi2_contingency sf t = Normal (0%Q, 1%Q, 0%Z, esperadas t)).
    { unfold t. rewrite (chi2_contingency_crosstab sf a b Hps). cbv zeta. fold t.
      assert (grados t = 0%Z) as -> by (unfold grados; nia). done. }
    split; [done|]. rewrite Hchi.
    destruct (Qltb 1 sig_level) eqn:E; [|done].
    apply Qltb_lt in E. lra.
  - intros Hps. split; [unfold t, crosstab; by rewrite Hps|].
    unfold t. by rewrite (chi2_contingency_vacia sf a b Hps).
Qed.

(** Column [A] of [df_mini] has the single value "x". *)
Lemma categoria_sin_variacion_testigo :
  distintos (texto ["x"; "x"; "x"; "x"]) = 1%nat ∧
  cuerpo (sf_constante 0.001) df_mini "y" sig_level_defecto "A" =
    ([EvPrint (MsgEvaluando "A");
      EvDisplay (DObservada (mkTabla [VStr "x"] [VInt 0; VInt 1] [[2; 2]]%Z));
      EvPrint (MsgNo "A" 1);
      EvPrint MsgSeparador], Normal tt).
Proof.
  split; [reflexivity|].
  edestruct (categoria_sin_variacion (sf_constante 0.001) df_mini "y"
               sig_level_defecto "A") as [Hsi _];
    [reflexivity|reflexivity|discriminate|left; vm_compute; lia|].
  destruct Hsi as [_ Heq]; [discriminate|].
  rewrite Heq. reflexivity.
Defined.

(** C1, counterexample.  Column [A] of [df_mini] has one observed value
    in the whole frame; the call reports it as "NO hay diferencias
    significativas" with p = 1, the same message as for any column that
    fails the threshold, and nothing tells it could not be tested. *)
Lemma un_solo_valor_se_informa_como_no_significativa :
  resulta (λ sf, detectar_orden_cat_bina sf df_mini ["A"] "y" sig_level_defecto)
    ([EvPrint (MsgEvaluando "A");
      EvDisplay (DObservada (mkTabla [VStr "x"] [VInt 0; VInt 1] [[2; 2]]%Z));
      EvPrint (MsgNo "A" 1);
      EvPrint MsgSeparador], Normal tt).
Proof. intros sf. reflexivity. Qed.

Section Lote.
Variable sf : Q → Z → Q.
Variables (df : DataFrame) (var_respuesta : string) (sig_level : Q).

(** C2, as the code has it.  The columns are processed in the given
    order, each by the same iteration.  After columns that complete,
    the next column either completes, and the call goes on with the
    rest of the list, or raises, and the call ends there with that
    exception: nothing is reported for the columns after it.  A column
    completes exactly when it and the response exist and some row has
    both values, also when it has a single distinct value. *)
Theorem lote_en_orden (previas : list string) (categoria : string) (resto : list string) :
  Forall (λ c, completa (cuerpo sf df var_respuesta sig_level c)) previas →
  let informe := cuerpo sf df var_respuesta sig_level in
  let llamada := detectar_orden_cat_bina sf df in
  llamada (previas ++ categoria :: resto) var_respuesta sig_level =
    match (informe categoria).2 with
    | Normal _ =>
        (trazas informe previas ++ (informe categoria).1
           ++ (llamada resto var_respuesta sig_level).1,
         (llamada resto var_respuesta sig_level).2)
    | Lanza e => (trazas informe previas ++ (informe categoria).1, Lanza e)
    end ∧
  (completa (informe categoria) ↔
     ∃ a b, getitem df categoria = Normal a ∧ getitem df var_respuesta = Normal b ∧
            pares_presentes a b ≠ []).
Proof.
  intros Hprev informe llamada. split; [|apply cuerpo_completa].
  unfold llamada, detectar_orden_cat_bina. fold informe.
  rewrite for_each_app by done. rewrite for_each_cons.
  by destruct (informe categoria).2.
Qed.

(** C3, as the code has it.  A column that the frame does not have
    raises [KeyError] with its name when the loop reaches it: after
    columns that complete, whose tables have been built and displayed
    by then, the call writes the heading of the unknown column and
    raises; no table is built for it or for the columns after it. *)
Theorem columna_desconocida (previas : list string) (categoria : string) (resto : list string) :
  categoria ∉ nombres df →
  Forall (λ c, completa (cuerpo sf df var_respuesta sig_level c)) previas →
  detectar_orden_cat_bina sf df (previas ++ categoria :: resto) var_respuesta sig_level =
    (trazas (cuerpo sf df var_respuesta sig_level) previas
       ++ [EvPrint (MsgEvaluando (upper categoria))],
     Lanza (KeyError categoria)) ∧
  Forall (λ c, ∃ a b, getitem df c = Normal a ∧ getitem df var_respuesta = Normal b ∧
                      EvDisplay (DObservada (crosstab a b))
                        ∈ trazas (cuerpo sf df var_respuesta sig_level) previas) previas.
Proof.
  intros Hz Hprev. split.
  - unfold detectar_orden_cat_bina. rewrite for_each_app by done.
    rewrite for_each_cons, cuerpo_eq, (getitem_KeyError _ _ Hz). done.
  - apply Forall_forall. intros c Hc.
    rewrite Forall_forall in Hprev.
    destruct (cuerpo_completa_muestra sf df var_respuesta sig_level c (Hprev c Hc))
      as (a & b & Ha & Hb & Hin).
    exists a, b. split; [done|]. split; [done|].
    unfold trazas. apply list_elem_of_In, in_concat.
    exists (cuerpo sf df var_respuesta sig_level c).1. split.
    + apply in_map_iff. exists c. split; [done|]. by apply list_elem_of_In.
    + by apply list_elem_of_In.
Qed.
End Lote.

(** [A] completes, [C] has no row with both values: the call ends at
    [C] and [B] is not reported. *)
Lemma lote_en_orden_testigo :
  Forall (λ c, completa (cuerpo (sf_constante 0.001) df_mini "y" sig_level_defecto c)) ["A"] ∧
  detectar_orden_cat_bina (sf_constante 0.001) df_mini (["A"] ++ "C" :: ["B"])
      "y" sig_level_defecto =
    ([EvPrint (MsgEvaluando "A");
      EvDisplay (DObservada (mkTabla [VStr "x"] [VInt 0; VInt 1] [[2; 2]]%Z));
      EvPrint (MsgNo "A" 1);
      EvPrint MsgSeparador;
      EvPrint (MsgEvaluando "C");
      EvDisplay (DObservada (mkTabla [] [] []))],
     Lanza (ValueError "No data; `observed` has size 0.")).
Proof.
  assert (Hprev : Forall (λ c, completa (cuerpo (sf_constante 0.001) df_mini "y"
                                           sig_level_defecto c)) ["A"])
    by (constructor; [reflexivity|constructor]).
  split; [exact Hprev|].
  destruct (lote_en_orden (sf_constante 0.001) df_mini "y" sig_level_defecto
              ["A"] "C" ["B"] Hprev) as [Heq _].
  rewrite Heq. reflexivity.
Defined.

(** C2, counterexample.  In [df_mini] column [C] is missing in every
    row and column [B] can be tested.  The call on [C] then [B] raises
    at [C], whatever the survival function, and reports nothing for
    [B]; the call on [B] alone completes. *)
Lemma un_fallo_interrumpe_el_lote :
  resulta (λ sf, detectar_orden_cat_bina sf df_mini ["C"; "B"] "y" sig_level_defecto)
    ([EvPrint (MsgEvaluando "C"); EvDisplay (DObservada (mkTabla [] [] []))],
     Lanza (ValueError "No data; `observed` has size 0.")) ∧
  (∀ sf, completa (detectar_orden_cat_bina sf df_mini ["B"] "y" sig_level_defecto)).
Proof.
  split; [intros sf; reflexivity|].
  intros sf. unfold completa, detectar_orden_cat_bina.
  rewrite for_each_cons.
  assert (Hb : completa (cuerpo sf df_mini "y" sig_level_defecto "B")).
  { apply cuerpo_completa. eexists _, _.
    split; [reflexivity|]. split; [reflexivity|]. discriminate. }
  unfold completa in Hb. rewrite Hb. reflexivity.
Qed.

(** [Z] is not a column of [df_mini]; [A], before it, is reported. *)
Lemma columna_desconocida_testigo :
  ("Z" ∉ nombres df_mini) ∧
  detectar_orden_cat_bina (sf_constante 0.001) df_mini (["A"] ++ "Z" :: ["B"])
      "y" sig_level_defecto =
    ([EvPrint (MsgEvaluando "A");
      EvDisplay (DObservada (mkTabla [VStr "x"] [VInt 0; VInt 1] [[2; 2]]%Z));
      EvPrint (MsgNo "A" 1);
      EvPrint MsgSeparador;
      EvPrint (MsgEvaluando "Z")],
     Lanza (KeyError "Z")).
Proof.
  assert (Hz : "Z" ∉ nombres df_mini) by decidir.
  split; [exact Hz|].
  destruct (columna_desconocida (sf_constante 0.001) df_mini "y" sig_level_defecto
              ["A"] "Z" ["B"] Hz) as [Heq _].
  { constructor; [reflexivity|constructor]. }
  rewrite Heq. reflexivity.
Defined.

(** C3, counterexample.  With the unknown column [Z] second in the
    list, the table of [A] is built and displayed before [KeyError]
    is raised. *)
Lemma tabla_anterior_a_la_columna_desconocida :
  resulta (λ sf, detectar_orden_cat_bina sf df_mini ["A"; "Z"] "y" sig_level_defecto)
    ([EvPrint (MsgEvaluando "A");
      EvDisplay (DObservada (mkTabla [VStr "x"] [VInt 0; VInt 1] [[2; 2]]%Z));
      EvPrint (MsgNo "A" 1);
      EvPrint MsgSeparador;
      EvPrint (MsgEvaluando "Z")],
     Lanza (KeyError "Z")).
Proof. intros sf. reflexivity. Qed.

(* ===================================================================== *)
(** * Visualizador.analisis_temporal *)
(* ===================================================================== *)

Lemma reemplazar_nombres nombre s cols : (reemplazar nombre s cols).*1 = cols.*1.
Proof.
  induction cols as [|[n s0] cols IH]; simpl; [done|].
  case_decide; simpl; [done|]. f_equal. apply IH.
Qed.

Lemma buscar_reemplazar nombre s cols otro :
  is_Some (buscar nombre cols) →
  buscar otro (reemplazar nombre s cols)
  = if decide (otro = nombre) then Some s else buscar otro cols.
Proof.
  induction cols as [|[n s0] cols IH]; simpl; [by intros [? ?]|].
  destruct (decide (n = nombre)) as [->|Hne]; simpl.
  - intros _. destruct (decide (nombre = otro)) as [->|Hne].
    + by rewrite decide_True.
    + by rewrite decide_False.
  - intros H. destruct (decide (n = otro)) as [->|Hne'].
    + by rewrite decide_False.
    + by apply IH.
Qed.

Lemma restringir_spec order v :
  (v ∈ VStr <$> order → restringir order v = v) ∧
  (v ∉ VStr <$> order → restringir order v = VNull).
Proof.
  split.
  - intros (s & -> & Hs)%list_elem_of_fmap. simpl. by rewrite bool_decide_eq_true_2.
  - intros Hv. destruct v as [| | |s|]; try done. simpl.
    rewrite bool_decide_eq_false_2; [done|].
    intros Hs. apply Hv, list_elem_of_fmap. eauto.
Qed.

(** C8.  A [Visualizador] holds the caller's frame.  When that frame
    has the temporal column and the order list has no repeated entry, a
    call to [analisis_temporal] leaves in the store, under the caller's
    reference, a frame with the same rows and column names in which the
    temporal column is an ordered categorical over the order list, each
    of its cells kept when it is in the list and missing otherwise, and
    every other column is as before; no other frame of the store
    changes.  This holds whether or not the drawing that follows
    raises. *)
Theorem analisis_temporal_reemplaza_columna
    (h : gmap ref DataFrame) (d : ref) (df : DataFrame)
    (var_respuesta var_temporal : string) (order : list string) (columna : Series) :
  h !! d = Some df →
  getitem df var_temporal = Normal columna →
  NoDup order →
  ∃ h' r df',
    Visualizador.analisis_temporal (Visualizador.__init__ d)
      var_respuesta var_temporal order h = Some (h', r) ∧
    h' !! d = Some df' ∧
    (∀ d', d' ≠ d → h' !! d' = h !! d') ∧
    n_filas df' = n_filas df ∧
    nombres df' = nombres df ∧
    (∃ nueva, getitem df' var_temporal = Normal (mkSeries (category order true) nueva) ∧
       Forall2 (λ v w, (v ∈ VStr <$> order → w = v) ∧ (v ∉ VStr <$> order → w = VNull))
               (s_values columna) nueva) ∧
    (∀ c, c ≠ var_temporal → getitem df' c = getitem df c).
Proof.
  intros Hd Hcol Hord.
  unfold Visualizador.analisis_temporal, Visualizador.__init__. simpl.
  rewrite Hd. simpl. rewrite Hcol. unfold Categorical.
  rewrite bool_decide_eq_true_2 by done.
  set (cat := mkSeries _ _). set (df' := setitem df var_temporal cat).
  set (h' := <[d := df']> h).
  assert (Hb : is_Some (buscar var_temporal (columnas df))).
  { unfold getitem in Hcol. destruct (buscar _ _); [eauto|done]. }
  assert (Hcols : columnas df' = reemplazar var_temporal cat (columnas df)).
  { unfold df', setitem. by destruct Hb as [s ->]. }
  assert (Hget : ∀ c, getitem df' c
                      = if decide (c = var_temporal) then Normal cat else getitem df c).
  { intros c. unfold getitem. rewrite Hcols, buscar_reemplazar by done. by case_decide. }
  exists h', (Visualizador.trazado df' var_respuesta), df'.
  split; [reflexivity|].
  split; [apply lookup_insert_eq|].
  split; [intros d' Hne; by apply lookup_insert_ne|].
  split; [unfold df', setitem; by destruct (buscar _ _)|].
  split; [unfold nombres; rewrite Hcols; apply reemplazar_nombres|].
  split.
  - eexists. split; [rewrite Hget, decide_True by done; reflexivity|].
    apply Forall2_fmap_r, Forall_Forall2_diag, Forall_forall. intros v _.
    apply restringir_spec.
  - intros c Hne. by rewrite Hget, decide_False.
Qed.

(** The caller keeps [df_meses] under reference 1.  After the call with
    the default order, the caller's frame has "June", which is not a
    month of the list, replaced by a missing cell; [PageValues] and
    the frame under reference 2 are as before. *)
Lemma analisis_temporal_testigo :
  almacen !! 1%positive = Some df_meses ∧
  NoDup Visualizador.order_defecto ∧
  ∃ h' r df',
    Visualizador.analisis_temporal (Visualizador.__init__ 1%positive)
      "PageValues" "Month" Visualizador.order_defecto almacen = Some (h', r) ∧
    h' !! 1%positive = Some df' ∧
    h' !! 2%positive = Some df_tipos ∧
    getitem df' "Month"
      = Normal (mkSeries (category Visualizador.order_defecto true)
                         [VStr "Feb"; VNull; VStr "Jan"]) ∧
    getitem df' "PageValues" = Normal (enteros [10; 20; 30]%Z).
Proof.
  assert (Hord : NoDup Visualizador.order_defecto) by decidir.
  split; [reflexivity|]. split; [exact Hord|].
  destruct (analisis_temporal_reemplaza_columna almacen 1%positive df_meses
              "PageValues" "Month" Visualizador.order_defecto
              (texto ["Feb"; "June"; "Jan"]) eq_refl eq_refl Hord)
    as (h' & r & df' & Heq & Hd & Hotros & _ & _ & _ & Hresto).
  exists h', r, df'. split; [exact Heq|]. split; [exact Hd|].
  split; [by rewrite Hotros|].
  split; [|by rewrite Hresto].
  vm_compute in Heq. injection Heq as <- <-.
  vm_compute in Hd. injection Hd as <-. reflexivity.
Defined.

(* ===================================================================== *)
(** * Further properties: the dataset profiler *)
(* ===================================================================== *)

(** X1.  The profiler completes exactly on the frames that have an
    object column, whatever the two flags.  On a frame without columns
    it raises [ValueError] in [describe()], after the shape, the
    duplicate count and the heading of the numeric summary have been
    printed and before anything is displayed.  On a frame with columns
    but no object column it raises [ValueError] in
    [describe(include="O")], after the numeric summary has been
    displayed and the heading of the categorical summary printed.  In
    neither case is the null report reached. *)
Theorem exploracion_datos_completa_si_hay_texto df nu inf :
  (completa (exploracion_datos df nu inf) ↔ tiene_object df = true) ∧
  (columnas df = [] →
     ∃ msg, describe df = Lanza (ValueError msg) ∧
       exploracion_datos df nu inf =
         ([EvPrint (MsgForma (n_filas df) (length (columnas df))); EvPrint MsgRaya;
           EvPrint (MsgDuplicados (cuenta_true (duplicated df))); EvPrint MsgRaya;
           EvPrint MsgNumericas],
          Lanza (ValueError msg))) ∧
  (columnas df ≠ [] → tiene_object df = false →
     ∃ r1 msg, describe df = Normal r1 ∧ describe_O df = Lanza (ValueError msg) ∧
       exploracion_datos df nu inf =
         ([EvPrint (MsgForma (n_filas df) (length (columnas df))); EvPrint MsgRaya;
           EvPrint (MsgDuplicados (cuenta_true (duplicated df))); EvPrint MsgRaya;
           EvPrint MsgNumericas; EvDisplay (DResumen r1); EvPrint MsgRaya;
           EvPrint MsgCategoricas],
          Lanza (ValueError msg))).
Proof.
  split; [|split].
  - split.
    + intros Hc. destruct (tiene_object df) eqn:Ho; [done|].
      destruct (exploracion_datos_traza_falla df nu inf Ho) as (o & msg & Heq & _).
      unfold completa in Hc. by rewrite Heq in Hc.
    + intros Ho. destruct (exploracion_datos_traza df nu inf Ho) as (r1 & r2 & Heq).
      unfold completa. by rewrite Heq.
  - intros Hcols. eexists. unfold exploracion_datos, describe, shape.
    rewrite Hcols. simpl. split; reflexivity.
  - intros Hcols Ho.
    destruct (describe_Normal df Hcols) as [r1 E1].
    destruct (describe_O_Lanza df Ho) as [msg E2].
    exists r1, msg. split; [done|]. split; [done|].
    unfold exploracion_datos, shape. by rewrite E1, E2.
Qed.

Lemma remove_dups_snoc_length {A} `{EqDecision A} (l : list A) (x : A) :
  length (remove_dups (l ++ [x]))
  = (length (remove_dups l) + (if decide (x ∈ l) then 0 else 1))%nat.
Proof.
  case_decide as Hx.
  - rewrite Nat.add_0_r. apply Permutation_length, NoDup_Permutation;
      [apply NoDup_remove_dups..|].
    intros y. rewrite !elem_of_remove_dups, elem_of_app, list_elem_of_singleton.
    split; [intros [?| ->]; done|by left].
  - transitivity (length (x :: remove_dups l)); [|simpl; lia].
    apply Permutation_length, NoDup_Permutation; [apply NoDup_remove_dups| |].
    + apply NoDup_cons. split; [by rewrite elem_of_remove_dups|apply NoDup_remove_dups].
    + intros y. rewrite elem_of_cons, !elem_of_remove_dups, elem_of_app,
        list_elem_of_singleton. tauto.
Qed.

Lemma remove_dups_NoDup_id {A} `{EqDecision A} (l : list A) :
  NoDup l → remove_dups l = l.
Proof.
  induction 1 as [|x l Hx _ IH]; [done|]. simpl.
  destruct (decide_rel _ x l); [done|]. by rewrite IH.
Qed.

Lemma marcas_y_distintos {A} `{EqDecision A} (f : nat → A) (n : nat) :
  (cuenta_true (map (λ i, bool_decide (f i ∈ map f (seq 0 i))) (seq 0 n))
   + length (remove_dups (map f (seq 0 n))) = n)%nat.
Proof.
  induction n as [|n IH]; [done|].
  rewrite seq_S, !map_app. simpl.
  rewrite remove_dups_snoc_length. unfold cuenta_true in *.
  rewrite filter_app, length_app.
  destruct (decide (f n ∈ map f (seq 0 n))) as [Hin|Hin].
  - rewrite bool_decide_eq_true_2 by done. simpl. lia.
  - rewrite bool_decide_eq_false_2 by done. simpl. lia.
Qed.

Lemma exploracion_imprime_duplicados df nu inf k :
  EvPrint (MsgDuplicados k) ∈ (exploracion_datos df nu inf).1 →
  k = cuenta_true (duplicated df).
Proof.
  destruct (tiene_object df) eqn:Ho.
  - destruct (exploracion_datos_traza df nu inf Ho) as (r1 & r2 & ->). simpl.
    unfold cola_exploracion. destruct nu, inf; simpl; intros H.
    all: repeat (apply elem_of_cons in H as [H|H]; [try discriminate H; try (by inversion H)|]).
    all: by apply elem_of_nil in H.
  - destruct (exploracion_datos_traza_falla df nu inf Ho) as (o & msg & -> & [->|[r1 ->]]);
      simpl; intros H.
    all: repeat (apply elem_of_cons in H as [H|H]; [try discriminate H; try (by inversion H)|]).
    all: by apply elem_of_nil in H.
Qed.

(** X2.  The number of duplicates that the profiler prints, for a frame
    with at least one column, is the number of rows less the number of
    distinct rows: a row counts as a duplicate when an earlier row has
    the same cells, missing cells included. *)
Theorem duplicados_y_filas_distintas df nu inf k :
  columnas df ≠ [] →
  EvPrint (MsgDuplicados k) ∈ (exploracion_datos df nu inf).1 →
  (k + length (remove_dups (filas_de df)) = n_filas df)%nat ∧
  (k = 0%nat ↔ NoDup (filas_de df)).
Proof.
  intros Hcols ->%exploracion_imprime_duplicados.
  assert (Hsum : (cuenta_true (duplicated df) + length (remove_dups (filas_de df))
                  = n_filas df)%nat).
  { unfold duplicated, empty, filas_de.
    destruct (n_filas df) as [|n] eqn:En; [done|].
    destruct (columnas df) eqn:Ec; [done|]. simpl orb. cbv iota.
    apply marcas_y_distintos. }
  split; [done|].
  assert (Hlen : length (filas_de df) = n_filas df)
    by (unfold filas_de; by rewrite length_map, length_seq).
  split.
  - intros H0. rewrite H0 in Hsum. simpl in Hsum.
    rewrite <- Hlen in Hsum.
    assert (remove_dups (filas_de df) ⊆+ filas_de df) as Hsub.
    { apply NoDup_submseteq; [apply NoDup_remove_dups|].
      intros x. by rewrite elem_of_remove_dups. }
    apply submseteq_length_Permutation in Hsub; [|lia].
    rewrite <- Hsub. apply NoDup_remove_dups.
  - intros Hnd. rewrite (remove_dups_NoDup_id _ Hnd) in Hsum. lia.
Qed.

(** In [df_repetidas] the third row repeats the first: one duplicate,
    three distinct rows. *)
Lemma duplicados_y_filas_distintas_testigo :
  columnas df_repetidas ≠ [] ∧
  EvPrint (MsgDuplicados 1) ∈ (exploracion_datos df_repetidas true false).1 ∧
  length (remove_dups (filas_de df_repetidas)) = 3%nat ∧
  ¬ NoDup (filas_de df_repetidas).
Proof.
  assert (Hc : columnas df_repetidas ≠ []) by discriminate.
  assert (Hin : EvPrint (MsgDuplicados 1) ∈ (exploracion_datos df_repetidas true false).1)
    by pertenece.
  destruct (duplicados_y_filas_distintas df_repetidas true false 1 Hc Hin) as [Hsum Hiff].
  split; [exact Hc|]. split; [exact Hin|]. split.
  - change (n_filas df_repetidas) with 4%nat in Hsum. lia.
  - intros Hnd. apply Hiff in Hnd. discriminate.
Defined.

Lemma porcentaje_rango (k n : nat) :
  (0 < k)%nat → (k ≤ n)%nat → (0 < porcentaje k n)%Q ∧ (porcentaje k n <= 100)%Q.
Proof.
  intros Hk Hkn. unfold porcentaje.
  assert (Hn : (0 < inject_Z (Z.of_nat n))%Q).
  { rewrite <- (Zlt_Qlt 0). lia. }
  assert (Hk' : (0 < inject_Z (Z.of_nat k))%Q).
  { rewrite <- (Zlt_Qlt 0). lia. }
  assert (Hle : (inject_Z (Z.of_nat k) <= inject_Z (Z.of_nat n))%Q).
  { rewrite <- Zle_Qle. lia. }
  split.
  - apply Qmult_lt_0_compat; [|done].
    apply Qlt_shift_div_l; [done|]. by rewrite Qmult_0_l.
  - assert (inject_Z (Z.of_nat k) / inject_Z (Z.of_nat n) <= 1)%Q as H1.
    { apply Qle_shift_div_r; [done|]. by rewrite Qmult_1_l. }
    apply Qle_trans with (1 * 100)%Q; [by apply Qmult_le_compat_r|done].
Qed.

Lemma cuenta_nulos_le (s : Series) : (cuenta_nulos s ≤ length (s_values s))%nat.
Proof. unfold cuenta_nulos. apply length_filter. Qed.

(** X3.  In a frame whose columns have one cell per row, every
    percentage of the null report is above 0 and at most 100. *)
Theorem porcentajes_de_nulos_en_rango df nu inf t :
  bien_formado df →
  EvDisplay (DNulos t) ∈ (exploracion_datos df nu inf).1 →
  Forall (λ e : string * Q, (0 < e.2)%Q ∧ (e.2 <= 100)%Q) t.
Proof.
  intros [_ Hlen] ->%exploracion_muestra_tabla_nulos.
  apply Forall_forall. intros [nombre p].
  rewrite tabla_nulos_Permutation.
  intros ([n s] & [= -> ->] & [H0 Hin]%list_elem_of_filter)%list_elem_of_fmap. simpl in *.
  apply porcentaje_rango; [done|].
  rewrite Forall_forall in Hlen. rewrite <- (Hlen _ Hin). apply cuenta_nulos_le.
Qed.

(** In [df_nulos] the percentages are 75 and 25. *)
Lemma porcentajes_de_nulos_en_rango_testigo :
  bien_formado df_nulos ∧
  Forall (λ e : string * Q, (0 < e.2)%Q ∧ (e.2 <= 100)%Q)
         [("n", 300 # 4); ("m", 100 # 4)].
Proof.
  assert (Hbf : bien_formado df_nulos) by (split; decidir).
  split; [exact Hbf|].
  apply (porcentajes_de_nulos_en_rango df_nulos true false _ Hbf). pertenece.
Defined.

(** X4.  The two optional blocks follow the flags: the table of
    distinct counts is displayed exactly when [nunique] is set and the
    call completes, and [info()] is run exactly when [info] is set and
    the call completes; the table displayed is [dataframe.nunique()]. *)
Theorem bloques_opcionales df nu inf :
  ((∃ u, EvDisplay (DUnicos u) ∈ (exploracion_datos df nu inf).1) ↔
     nu = true ∧ completa (exploracion_datos df nu inf)) ∧
  ((∃ c, EvInfo c ∈ (exploracion_datos df nu inf).1) ↔
     inf = true ∧ completa (exploracion_datos df nu inf)) ∧
  (∀ u, EvDisplay (DUnicos u) ∈ (exploracion_datos df nu inf).1 → u = Pandas.nunique df).
Proof.
  destruct (tiene_object df) eqn:Ho.
  - destruct (exploracion_datos_traza df nu inf Ho) as (r1 & r2 & Heq).
    rewrite Heq. unfold completa, cola_exploracion. simpl.
    split; [|split].
    + split.
      * intros [u H]. destruct nu; [done|]. destruct inf; simpl in H.
        all: repeat (apply elem_of_cons in H as [H|H]; [discriminate H|]).
        all: by apply elem_of_nil in H.
      * intros [-> _]. eexists. simpl. do 14 apply list_elem_of_further.
        apply list_elem_of_here.
    + split.
      * intros [c H]. destruct inf; [done|]. destruct nu; simpl in H.
        all: repeat (apply elem_of_cons in H as [H|H]; [discriminate H|]).
        all: by apply elem_of_nil in H.
      * intros [-> _]. eexists. destruct nu; simpl.
        -- do 17 apply list_elem_of_further. apply list_elem_of_here.
        -- do 14 apply list_elem_of_further. apply list_elem_of_here.
    + intros u H. destruct nu, inf; simpl in H.
      all: repeat (apply elem_of_cons in H as [H|H];
                   [try discriminate H; try (by inversion H)|]).
      all: by apply elem_of_nil in H.
  - destruct (exploracion_datos_traza_falla df nu inf Ho) as (o & msg & Heq & Hform).
    rewrite Heq. unfold completa. simpl.
    assert (Hno : ∀ e, e ∈ o → (∀ u, e ≠ EvDisplay (DUnicos u)) ∧ (∀ c, e ≠ EvInfo c)).
    { intros e He. destruct Hform as [->|[r1 ->]].
      - by apply elem_of_nil in He.
      - repeat (apply elem_of_cons in He as [->|He]; [done|]). by apply elem_of_nil in He. }
    split; [|split].
    + split; [|by intros [_ ?]]. intros [u H].
      repeat (apply elem_of_cons in H as [H|H]; [discriminate H|]).
      by destruct (Hno _ H) as [Hu _]; destruct (Hu u).
    + split; [|by intros [_ ?]]. intros [c H].
      repeat (apply elem_of_cons in H as [H|H]; [discriminate H|]).
      by destruct (Hno _ H) as [_ Hc]; destruct (Hc c).
    + intros u H.
      repeat (apply elem_of_cons in H as [H|H]; [discriminate H|]).
      by destruct (Hno _ H) as [Hu _]; destruct (Hu u).
Qed.

(* ===================================================================== *)
(** * Further properties: Visualizador.analisis_temporal *)
(* ===================================================================== *)

Lemma getitem_elem df nombre :
  (∃ s, getitem df nombre = Normal s) ↔ nombre ∈ nombres df.
Proof.
  split.
  - intros [s H%getitem_Normal]. apply list_elem_of_fmap. by exists (nombre, s).
  - intros Hin. unfold getitem.
    destruct (buscar nombre (columnas df)) as [s|] eqn:E; [eauto|].
    exfalso. unfold nombres in Hin. clear -Hin E.
    induction (columnas df) as [|[n s] cols IH]; [by apply elem_of_nil in Hin|].
    simpl in *. case_decide; [done|].
    apply elem_of_cons in Hin as [?|Hin]; [done|]. by apply IH.
Qed.

Lemma getitem_setitem df nombre s c :
  nombre ∈ nombres df →
  getitem (setitem df nombre s) c
  = if decide (c = nombre) then Normal s else getitem df c.
Proof.
  intros [s0 H0]%getitem_elem.
  assert (Hb : is_Some (buscar nombre (columnas df))).
  { unfold getitem in H0. destruct (buscar _ _); [eauto|done]. }
  unfold getitem, setitem. destruct Hb as [s1 Hb]. rewrite Hb. cbn [columnas].
  rewrite buscar_reemplazar by (rewrite Hb; eauto). by case_decide.
Qed.

Lemma nombres_setitem df nombre s :
  nombre ∈ nombres df → nombres (setitem df nombre s) = nombres df.
Proof.
  intros [s0 H0]%getitem_elem. unfold getitem in H0. unfold setitem, nombres.
  destruct (buscar _ _); [|done]. apply reemplazar_nombres.
Qed.

Lemma reemplazar_reemplazar nombre s1 s2 cols :
  reemplazar nombre s2 (reemplazar nombre s1 cols) = reemplazar nombre s2 cols.
Proof.
  induction cols as [|[n s0] cols IH]; [done|]. simpl.
  case_decide as E; simpl.
  - by rewrite decide_True.
  - rewrite decide_False by done. by rewrite IH.
Qed.

Lemma setitem_setitem df nombre s1 s2 :
  nombre ∈ nombres df →
  setitem (setitem df nombre s1) nombre s2 = setitem df nombre s2.
Proof.
  intros Hin. pose proof Hin as [s0 H0]%getitem_elem.
  assert (Hin' : nombre ∈ nombres (setitem df nombre s1)) by by rewrite nombres_setitem.
  apply getitem_elem in Hin' as [s' Hs'].
  unfold getitem in H0, Hs'. unfold setitem at 1 3.
  destruct (buscar nombre (columnas (setitem df nombre s1))); [|done].
  destruct (buscar nombre (columnas df)) eqn:E; [|done].
  unfold setitem. rewrite E. cbn [n_filas columnas]. by rewrite reemplazar_reemplazar.
Qed.

Lemma restringir_dos order1 order2 v :
  (en_ambas order1 order2 v → restringir order2 (restringir order1 v) = v) ∧
  (¬ en_ambas order1 order2 v → restringir order2 (restringir order1 v) = VNull).
Proof.
  unfold en_ambas. split.
  - intros [H1 H2]. rewrite (proj1 (restringir_spec order1 v) H1).
    by apply restringir_spec.
  - intros Hno. destruct (decide (v ∈ VStr <$> order1)) as [H1|H1].
    + rewrite (proj1 (restringir_spec order1 v) H1).
      apply restringir_spec. tauto.
    + by rewrite (proj2 (restringir_spec order1 v) H1).
Qed.

Lemma restringir_idem order v :
  restringir order (restringir order v) = restringir order v.
Proof.
  destruct (decide (v ∈ VStr <$> order)) as [H|H].
  - by rewrite !(proj1 (restringir_spec order v) H).
  - by rewrite (proj2 (restringir_spec order v) H).
Qed.

(** The call, when the column exists and the order list is valid. *)
Lemma analisis_temporal_exito (h : gmap ref DataFrame) d df vr vt order col :
  h !! d = Some df →
  getitem df vt = Normal col →
  NoDup order →
  Visualizador.analisis_temporal (Visualizador.__init__ d) vr vt order h =
    Some (<[d := setitem df vt (mkSeries (category order true)
                                   (map (restringir order) (s_values col)))]> h,
          Visualizador.trazado
            (setitem df vt (mkSeries (category order true)
                              (map (restringir order) (s_values col)))) vr).
Proof.
  intros Hd Hcol Hord.
  unfold Visualizador.analisis_temporal, Visualizador.__init__. simpl.
  rewrite Hd. simpl. rewrite Hcol. unfold Categorical.
  by rewrite bool_decide_eq_true_2 by done.
Qed.

(** X5.  A call that raises before the assignment leaves the store as
    it was: [KeyError] with the name of the temporal column when the
    frame does not have it, [ValueError] when the order list repeats an
    entry. *)
Theorem analisis_temporal_falla_sin_mutar (h : gmap ref DataFrame) d df vr vt order :
  h !! d = Some df →
  (vt ∉ nombres df →
     Visualizador.analisis_temporal (Visualizador.__init__ d) vr vt order h
       = Some (h, Lanza (KeyError vt))) ∧
  (vt ∈ nombres df → ¬ NoDup order →
     ∃ msg, Visualizador.analisis_temporal (Visualizador.__init__ d) vr vt order h
              = Some (h, Lanza (ValueError msg))).
Proof.
  intros Hd. unfold Visualizador.analisis_temporal, Visualizador.__init__. simpl.
  rewrite Hd. simpl. split.
  - intros Hvt. by rewrite (getitem_KeyError _ _ Hvt).
  - intros [col Hcol]%getitem_elem Hord. rewrite Hcol. unfold Categorical.
    rewrite bool_decide_eq_false_2 by done. eauto.
Qed.

(** The store [almacen] has no column "Mes" under reference 1, and the
    list "Jan", "Jan" repeats an entry. *)
Lemma analisis_temporal_falla_sin_mutar_testigo :
  almacen !! 1%positive = Some df_meses ∧
  Visualizador.analisis_temporal (Visualizador.__init__ 1%positive)
    "PageValues" "Mes" Visualizador.order_defecto almacen
    = Some (almacen, Lanza (KeyError "Mes")) ∧
  ∃ msg,
    Visualizador.analisis_temporal (Visualizador.__init__ 1%positive)
      "PageValues" "Month" ["Jan"; "Jan"] almacen
      = Some (almacen, Lanza (ValueError msg)).
Proof.
  split; [reflexivity|].
  destruct (analisis_temporal_falla_sin_mutar almacen 1%positive df_meses
              "PageValues" "Mes" Visualizador.order_defecto eq_refl) as [Hkey _].
  destruct (analisis_temporal_falla_sin_mutar almacen 1%positive df_meses
              "PageValues" "Month" ["Jan"; "Jan"] eq_refl) as [_ Hval].
  split.
  - apply Hkey. decidir.
  - apply Hval; decidir.
Defined.

(** X6.  The response column is looked at only after the assignment,
    so a call that fails there leaves the caller's frame with the
    temporal column already replaced.  When the frame does not have the
    response column the call raises [ValueError]; when the response is
    the temporal column itself, another categorical column, or an
    object column with a text cell, it raises [TypeError], since such a
    column has no mean; when the response is an integer or floating
    column the call returns. *)
Theorem analisis_temporal_falla_tras_mutar (h : gmap ref DataFrame) d df vr vt order col :
  h !! d = Some df →
  getitem df vt = Normal col →
  NoDup order →
  ∃ h' r df',
    Visualizador.analisis_temporal (Visualizador.__init__ d) vr vt order h = Some (h', r) ∧
    h' !! d = Some df' ∧
    getitem df' vt = Normal (mkSeries (category order true)
                                      (map (restringir order) (s_values col))) ∧
    (vr ∉ nombres df → ∃ msg, r = Lanza (ValueError msg)) ∧
    (vr = vt → ∃ msg, r = Lanza (TypeError msg)) ∧
    (∀ s, vr ≠ vt → getitem df vr = Normal s →
       (((∃ cats ord, s_dtype s = category cats ord) ∨
         (s_dtype s = object ∧ ∃ texto, VStr texto ∈ s_values s)) →
        ∃ msg, r = Lanza (TypeError msg)) ∧
       (s_dtype s = int64 ∨ s_dtype s = float64 → r = Normal tt)).
Proof.
  intros Hd Hcol Hord.
  assert (Hvt : vt ∈ nombres df) by (apply getitem_elem; eauto).
  rewrite (analisis_temporal_exito h d df vr vt order col Hd Hcol Hord).
  set (cat := mkSeries (category order true) (map (restringir order) (s_values col))).
  exists (<[d := setitem df vt cat]> h), (Visualizador.trazado (setitem df vt cat) vr),
    (setitem df vt cat).
  split; [reflexivity|].
  split; [apply lookup_insert_eq|].
  split; [by rewrite getitem_setitem, decide_True|].
  unfold Visualizador.trazado. rewrite getitem_setitem by done.
  split; [|split].
  - intros Hvr. rewrite decide_False by (intros ->; done).
    rewrite (getitem_KeyError _ _ Hvr). eauto.
  - intros ->. rewrite decide_True by done. simpl. eauto.
  - intros s Hne Hs. rewrite decide_False, Hs by done.
    unfold Visualizador.promediable. split.
    + intros [(cats & ord & ->)|[-> (texto & Ht)]]; [eauto|].
      assert (existsb Visualizador.es_texto (s_values s) = true) as ->; [|simpl; eauto].
      apply existsb_exists. exists (VStr texto). split; [|done].
      by apply list_elem_of_In.
    + by intros [-> | ->].
Qed.

(** [df_meses] has no column "Ventas": the call raises [ValueError], and
    "June" has become a missing cell in the caller's frame.  With
    "Month" as the response too, the call raises [TypeError]. *)
Lemma analisis_temporal_falla_tras_mutar_testigo :
  almacen !! 1%positive = Some df_meses ∧
  ("Ventas" ∉ nombres df_meses) ∧
  (∃ h' msg df',
    Visualizador.analisis_temporal (Visualizador.__init__ 1%positive)
      "Ventas" "Month" Visualizador.order_defecto almacen
      = Some (h', Lanza (ValueError msg)) ∧
    h' !! 1%positive = Some df' ∧
    getitem df' "Month"
      = Normal (mkSeries (category Visualizador.order_defecto true)
                         [VStr "Feb"; VNull; VStr "Jan"])) ∧
  (∃ h' msg,
    Visualizador.analisis_temporal (Visualizador.__init__ 1%positive)
      "Month" "Month" Visualizador.order_defecto almacen
      = Some (h', Lanza (TypeError msg))).
Proof.
  assert (Hno : "Ventas" ∉ nombres df_meses) by decidir.
  split; [reflexivity|]. split; [exact Hno|]. split.
  - destruct (analisis_temporal_falla_tras_mutar almacen 1%positive df_meses
                "Ventas" "Month" Visualizador.order_defecto
                (texto ["Feb"; "June"; "Jan"]) eq_refl eq_refl)
      as (h' & r & df' & Heq & Hd & Hcol & Hfalla & _); [decidir|].
    destruct (Hfalla Hno) as [msg ->].
    exists h', msg, df'. split; [exact Heq|]. split; [exact Hd|exact Hcol].
  - destruct (analisis_temporal_falla_tras_mutar almacen 1%positive df_meses
                "Month" "Month" Visualizador.order_defecto
                (texto ["Feb"; "June"; "Jan"]) eq_refl eq_refl)
      as (h' & r & df' & Heq & _ & _ & _ & Hmisma & _); [decidir|].
    destruct (Hmisma eq_refl) as [msg ->].
    by exists h', msg.
Defined.

(** X7.  The call is idempotent on the store: a second call with the
    same arguments leaves the store as the first one left it, and ends
    the same way. *)
Theorem analisis_temporal_idempotente (h : gmap ref DataFrame) d df vr vt order col :
  h !! d = Some df →
  getitem df vt = Normal col →
  NoDup order →
  ∃ h' r,
    Visualizador.analisis_temporal (Visualizador.__init__ d) vr vt order h = Some (h', r) ∧
    Visualizador.analisis_temporal (Visualizador.__init__ d) vr vt order h' = Some (h', r).
Proof.
  intros Hd Hcol Hord.
  assert (Hvt : vt ∈ nombres df) by (apply getitem_elem; eauto).
  rewrite (analisis_temporal_exito h d df vr vt order col Hd Hcol Hord).
  set (cat := mkSeries (category order true) (map (restringir order) (s_values col))).
  eexists _, _. split; [reflexivity|].
  assert (Hcat : mkSeries (category order true) (map (restringir order) (s_values cat))
                 = cat).
  { unfold cat. simpl. f_equal. rewrite map_map. apply map_ext. intros v.
    apply restringir_idem. }
  rewrite (analisis_temporal_exito _ d (setitem df vt cat) vr vt order cat).
  - rewrite Hcat, setitem_setitem by done. by rewrite insert_insert_eq.
  - apply lookup_insert_eq.
  - by rewrite getitem_setitem, decide_True.
  - done.
Qed.

Lemma analisis_temporal_idempotente_testigo :
  almacen !! 1%positive = Some df_meses ∧
  ∃ h' r,
    Visualizador.analisis_temporal (Visualizador.__init__ 1%positive)
      "PageValues" "Month" Visualizador.order_defecto almacen = Some (h', r) ∧
    Visualizador.analisis_temporal (Visualizador.__init__ 1%positive)
      "PageValues" "Month" Visualizador.order_defecto h' = Some (h', r).
Proof.
  split; [reflexivity|].
  apply (analisis_temporal_idempotente almacen 1%positive df_meses "PageValues" "Month"
           Visualizador.order_defecto (texto ["Feb"; "June"; "Jan"]));
    [reflexivity|reflexivity|decidir].
Defined.

(** X8.  The replacement loses data for good.  After a call with one
    order list and a call with another, a cell of the temporal column
    is kept only if it is in both lists and is missing otherwise: a
    later call with a wider list does not bring back what an earlier
    call dropped. *)
Theorem analisis_temporal_no_recupera (h : gmap ref DataFrame) d df vr vt
    order1 order2 col :
  h !! d = Some df →
  getitem df vt = Normal col →
  NoDup order1 → NoDup order2 →
  ∃ h1 r1 h2 r2 df2 nueva,
    Visualizador.analisis_temporal (Visualizador.__init__ d) vr vt order1 h = Some (h1, r1) ∧
    Visualizador.analisis_temporal (Visualizador.__init__ d) vr vt order2 h1 = Some (h2, r2) ∧
    h2 !! d = Some df2 ∧
    getitem df2 vt = Normal (mkSeries (category order2 true) nueva) ∧
    Forall2 (λ v w, (en_ambas order1 order2 v → w = v) ∧
                    (¬ en_ambas order1 order2 v → w = VNull))
            (s_values col) nueva.
Proof.
  intros Hd Hcol Hord1 Hord2.
  assert (Hvt : vt ∈ nombres df) by (apply getitem_elem; eauto).
  rewrite (analisis_temporal_exito h d df vr vt order1 col Hd Hcol Hord1).
  set (cat1 := mkSeries (category order1 true) (map (restringir order1) (s_values col))).
  eexists _, _, _, _, _, _. split; [reflexivity|].
  rewrite (analisis_temporal_exito _ d (setitem df vt cat1) vr vt order2 cat1);
    [|apply lookup_insert_eq|by rewrite getitem_setitem, decide_True|done].
  split; [reflexivity|].
  split; [apply lookup_insert_eq|].
  split.
  - rewrite getitem_setitem, decide_True; [reflexivity|done|].
    by rewrite nombres_setitem.
  - unfold cat1. simpl. rewrite map_map.
    apply Forall2_fmap_r, Forall_Forall2_diag, Forall_forall. intros v _.
    apply restringir_dos.
Qed.

(** First only "Jan", then the twelve months: "Feb", which the second
    list has, stays missing. *)
Lemma analisis_temporal_no_recupera_testigo :
  almacen !! 1%positive = Some df_meses ∧
  ∃ h1 r1 h2 r2 df2,
    Visualizador.analisis_temporal (Visualizador.__init__ 1%positive)
      "PageValues" "Month" ["Jan"] almacen = Some (h1, r1) ∧
    Visualizador.analisis_temporal (Visualizador.__init__ 1%positive)
      "PageValues" "Month" Visualizador.order_defecto h1 = Some (h2, r2) ∧
    h2 !! 1%positive = Some df2 ∧
    getitem df2 "Month"
      = Normal (mkSeries (category Visualizador.order_defecto true)
                         [VNull; VNull; VStr "Jan"]).
Proof.
  split; [reflexivity|].
  destruct (analisis_temporal_no_recupera almacen 1%positive df_meses
              "PageValues" "Month" ["Jan"] Visualizador.order_defecto
              (texto ["Feb"; "June"; "Jan"]) eq_refl eq_refl)
    as (h1 & r1 & h2 & r2 & df2 & nueva & H1 & H2 & Hd & Hcol & _); [decidir..|].
  exists h1, r1, h2, r2, df2. split; [exact H1|]. split; [exact H2|].
  split; [exact Hd|].
  vm_compute in H1. injection H1 as <- <-.
  vm_compute in H2. injection H2 as <- <-.
  vm_compute in Hd. injection Hd as <-. reflexivity.
Defined.

(** X9.  After the call the temporal column is categorical, so
    [separar_dataframes] on the same object puts it in neither of its
    two parts; for every other column the two parts are as before. *)
Theorem analisis_temporal_saca_de_separar (h : gmap ref DataFrame) d df vr vt order col :
  h !! d = Some df →
  bien_formado df →
  getitem df vt = Normal col →
  NoDup order →
  ∃ h' r num cat num0 cat0,
    Visualizador.analisis_temporal (Visualizador.__init__ d) vr vt order h = Some (h', r) ∧
    Visualizador.separar_dataframes (Visualizador.__init__ d) h = Some (num0, cat0) ∧
    Visualizador.separar_dataframes (Visualizador.__init__ d) h' = Some (num, cat) ∧
    (vt ∉ nombres num) ∧ (vt ∉ nombres cat) ∧
    (∀ c, c ≠ vt → (c ∈ nombres num ↔ c ∈ nombres num0) ∧
                   (c ∈ nombres cat ↔ c ∈ nombres cat0)).
Proof.
  intros Hd [Hnd _] Hcol Hord.
  assert (Hvt : vt ∈ nombres df) by (apply getitem_elem; eauto).
  rewrite (analisis_temporal_exito h d df vr vt order col Hd Hcol Hord).
  set (cat := mkSeries (category order true) (map (restringir order) (s_values col))).
  set (df' := setitem df vt cat).
  exists (<[d := df']> h), (Visualizador.trazado df' vr),
    (select_dtypes es_number df'), (select_dtypes es_object df'),
    (select_dtypes es_number df), (select_dtypes es_object df).
  unfold Visualizador.separar_dataframes, Visualizador.__init__. simpl.
  rewrite Hd, lookup_insert_eq. simpl.
  split; [reflexivity|]. split; [reflexivity|]. split; [reflexivity|].
  assert (Hnd' : NoDup (columnas df').*1).
  { change (NoDup (nombres df')). unfold df'. by rewrite nombres_setitem. }
  assert (Hsel : ∀ (P : dtype → bool) (dfx : DataFrame) c,
            NoDup (columnas dfx).*1 →
            c ∈ nombres (select_dtypes P dfx) ↔
            ∃ s, getitem dfx c = Normal s ∧ P (s_dtype s) = true).
  { intros P dfx c Hn. unfold nombres, select_dtypes. cbn [columnas]. split.
    - intros ([n s] & -> & [HP Hin]%list_elem_of_filter)%list_elem_of_fmap.
      exists s. split; [|done]. simpl.
      destruct (proj2 (getitem_elem dfx n)) as [s' Hs'].
      { apply list_elem_of_fmap. by exists (n, s). }
      rewrite Hs'. f_equal. apply getitem_Normal in Hs'.
      by eapply NoDup_fst_funcional.
    - intros (s & Hs%getitem_Normal & HP). apply list_elem_of_fmap.
      exists (c, s). split; [done|]. by apply list_elem_of_filter. }
  assert (Hcat : getitem df' vt = Normal cat)
    by (unfold df'; by rewrite getitem_setitem, decide_True).
  split; [|split].
  - intros (s & Hs & HP)%Hsel; [|done]. rewrite Hcat in Hs. by injection Hs as <-.
  - intros (s & Hs & HP)%Hsel; [|done]. rewrite Hcat in Hs. by injection Hs as <-.
  - intros c Hne.
    assert (Hget : getitem df' c = getitem df c)
      by (unfold df'; by rewrite getitem_setitem, decide_False).
    split; rewrite !Hsel by done; by rewrite Hget.
Qed.

(** "Month" is an object column of [df_meses] before the call and is
    in neither part after it. *)
Lemma analisis_temporal_saca_de_separar_testigo :
  almacen !! 1%positive = Some df_meses ∧ bien_formado df_meses ∧
  ∃ h' r num cat num0 cat0,
    Visualizador.analisis_temporal (Visualizador.__init__ 1%positive)
      "PageValues" "Month" Visualizador.order_defecto almacen = Some (h', r) ∧
    Visualizador.separar_dataframes (Visualizador.__init__ 1%positive) almacen
      = Some (num0, cat0) ∧
    Visualizador.separar_dataframes (Visualizador.__init__ 1%positive) h'
      = Some (num, cat) ∧
    nombres cat0 = ["Month"] ∧ nombres cat = [] ∧ nombres num = ["PageValues"].
Proof.
  assert (Hbf : bien_formado df_meses) by (split; decidir).
  split; [reflexivity|]. split; [exact Hbf|].
  destruct (analisis_temporal_saca_de_separar almacen 1%positive df_meses
              "PageValues" "Month" Visualizador.order_defecto
              (texto ["Feb"; "June"; "Jan"]) eq_refl Hbf eq_refl)
    as (h' & r & num & cat & num0 & cat0 & H1 & H0 & H2 & _); [decidir|].
  exists h', r, num, cat, num0, cat0.
  split; [exact H1|]. split; [exact H0|]. split; [exact H2|].
  vm_compute in H1. injection H1 as <- <-.
  vm_compute in H0. injection H0 as <- <-.
  vm_compute in H2. injection H2 as <- <-.
  repeat split; reflexivity.
Defined.

(* ===================================================================== *)
(** * Further properties: detectar_orden_cat_bina *)
(* ===================================================================== *)

Section LoteLemas.
Variable sf : Q → Z → Q.
Variables (df : DataFrame) (var_respuesta : string) (sig_level : Q).

Lemma detectar_completa (lista : list string) :
  Forall (λ c, completa (cuerpo sf df var_respuesta sig_level c)) lista →
  detectar_orden_cat_bina sf df lista var_respuesta sig_level
  = (trazas (cuerpo sf df var_respuesta sig_level) lista, Normal tt).
Proof.
  intros H. unfold detectar_orden_cat_bina.
  rewrite <- (app_nil_r lista) at 1. rewrite for_each_app by done.
  simpl. by rewrite app_nil_r.
Qed.

(** The trace of an iteration that completes is one of the two
    reports. *)
Lemma cuerpo_completa_informe categoria :
  completa (cuerpo sf df var_respuesta sig_level categoria) →
  ∃ a b p expected,
    getitem df categoria = Normal a ∧ getitem df var_respuesta = Normal b ∧
    (p = 1%Q ∨ ∃ x d, p = sf x d) ∧
    expected = esperadas (crosstab a b) ∧
    (cuerpo sf df var_respuesta sig_level categoria).1
    = if Qltb p sig_level then informe_si categoria (crosstab a b) p expected
      else informe_no categoria (crosstab a b) p.
Proof.
  intros (a & b & Ha & Hb & Hps)%cuerpo_completa.
  rewrite cuerpo_eq, Ha, Hb. cbv zeta.
  rewrite (chi2_contingency_crosstab sf a b Hps). cbv zeta.
  destruct (_ =? 0)%Z.
  - exists a, b, 1%Q, (esperadas (crosstab a b)). repeat split; auto.
  - eexists a, b, _, _. split; [done|]. split; [done|].
    split; [right; eauto|]. split; reflexivity.
Qed.

(** Every table in the trace of a call was built by [pd.crosstab] from
    two columns of the frame. *)
Lemma cuerpo_muestra_crosstab categoria t :
  EvDisplay (DObservada t) ∈ (cuerpo sf df var_respuesta sig_level categoria).1 →
  ∃ a b, getitem df categoria = Normal a ∧ getitem df var_respuesta = Normal b ∧
         t = crosstab a b.
Proof.
  rewrite cuerpo_eq.
  destruct (getitem df categoria) as [a|e]; simpl.
  2: { intros H. apply elem_of_cons in H as [H|H]; [done|by apply elem_of_nil in H]. }
  destruct (getitem df var_respuesta) as [b|e]; simpl.
  2: { intros H. apply elem_of_cons in H as [H|H]; [done|by apply elem_of_nil in H]. }
  intros H. exists a, b. split; [done|]. split; [done|].
  destruct (chi2_contingency sf (crosstab a b)) as [[[[chi2 p] dof] expected]|e];
    [destruct (Qltb p sig_level)|]; simpl in H.
  all: repeat (apply elem_of_cons in H as [H|H];
               [try discriminate H; try (by injection H)|]).
  all: by apply elem_of_nil in H.
Qed.

Lemma for_each_elem {A} (f : A → M unit) (l : list A) (e : evento) :
  e ∈ (for_each l f).1 → ∃ x, x ∈ l ∧ e ∈ (f x).1.
Proof.
  induction l as [|x l IH]; [by intros ?%elem_of_nil|].
  rewrite for_each_cons. destruct (f x).2 eqn:E; simpl.
  - intros [H|H]%elem_of_app.
    + exists x. split; [by left|done].
    + destruct (IH H) as (y & Hy & He). exists y. split; [by right|done].
  - intros H. exists x. split; [by left|done].
Qed.
End LoteLemas.

(** X10.  When the frame does not have the response column, no table is
    ever built: a call on a non-empty list prints the first heading and
    raises [KeyError], with the name of the first column when the frame
    does not have it either, with the name of the response column
    otherwise.  A call on the empty list prints nothing and returns. *)
Theorem respuesta_desconocida (sf : Q → Z → Q) df lista var_respuesta sig_level :
  var_respuesta ∉ nombres df →
  (∀ t, EvDisplay (DObservada t)
          ∉ (detectar_orden_cat_bina sf df lista var_respuesta sig_level).1) ∧
  detectar_orden_cat_bina sf df lista var_respuesta sig_level =
    match lista with
    | [] => ([], Normal tt)
    | c :: _ =>
        ([EvPrint (MsgEvaluando (upper c))],
         Lanza (KeyError (if decide (c ∈ nombres df) then var_respuesta else c)))
    end.
Proof.
  intros Hvr. split.
  - intros t (c & _ & (a & b & _ & Hb & _)%cuerpo_muestra_crosstab)%for_each_elem.
    by rewrite (getitem_KeyError _ _ Hvr) in Hb.
  - destruct lista as [|c resto]; [done|].
    unfold detectar_orden_cat_bina. rewrite for_each_cons, cuerpo_eq.
    rewrite (getitem_KeyError _ _ Hvr).
    case_decide as Hc.
    + apply getitem_elem in Hc as [a ->]. done.
    + by rewrite (getitem_KeyError _ _ Hc).
Qed.

(** [df_mini] has no column "z". *)
Lemma respuesta_desconocida_testigo :
  ("z" ∉ nombres df_mini) ∧
  detectar_orden_cat_bina (sf_constante 0.001) df_mini ["A"; "B"] "z" sig_level_defecto
    = ([EvPrint (MsgEvaluando "A")], Lanza (KeyError "z")) ∧
  detectar_orden_cat_bina (sf_constante 0.001) df_mini ["W"; "B"] "z" sig_level_defecto
    = ([EvPrint (MsgEvaluando "W")], Lanza (KeyError "W")).
Proof.
  assert (Hz : "z" ∉ nombres df_mini) by decidir.
  split; [exact Hz|]. split.
  - destruct (respuesta_desconocida (sf_constante 0.001) df_mini ["A"; "B"] "z"
                sig_level_defecto Hz) as [_ Heq].
    rewrite Heq. reflexivity.
  - destruct (respuesta_desconocida (sf_constante 0.001) df_mini ["W"; "B"] "z"
                sig_level_defecto Hz) as [_ Heq].
    rewrite Heq. reflexivity.
Defined.

Lemma upper_ascii_idem c : upper_ascii (upper_ascii c) = upper_ascii c.
Proof. destruct c as [[] [] [] [] [] [] [] []]; reflexivity. Qed.

Lemma upper_ascii_ascii c :
  (nat_of_ascii c <? 128)%nat = true → (nat_of_ascii (upper_ascii c) <? 128)%nat = true.
Proof. destruct c as [[] [] [] [] [] [] [] []]; intros H; try reflexivity; discriminate H. Qed.

Lemma upper_idem s : upper (upper s) = upper s.
Proof. induction s as [|c s IH]; simpl; [done|]. by rewrite upper_ascii_idem, IH. Qed.

Lemma es_ascii_upper s : es_ascii s = true → es_ascii (upper s) = true.
Proof.
  unfold es_ascii. induction s as [|c s IH]; simpl; [done|].
  intros [Hc Hs]%andb_true_iff. by rewrite (upper_ascii_ascii c Hc), IH.
Qed.

(** X11.  In a call whose columns all complete and are named in ASCII,
    the headings are those of the listed columns, with the letters a to
    z in upper case, in the order of the list and one per column; they
    are ASCII and have no lower-case letter left.  The tables displayed
    are, in the same order, the tables of the listed columns against
    the response column. *)
Theorem informes_en_el_orden_de_la_lista (sf : Q → Z → Q) df lista var_respuesta sig_level :
  Forall (λ c, es_ascii c = true) lista →
  Forall (λ c, completa (cuerpo sf df var_respuesta sig_level c)) lista →
  completa (detectar_orden_cat_bina sf df lista var_respuesta sig_level) ∧
  encabezados (detectar_orden_cat_bina sf df lista var_respuesta sig_level).1
    = map upper lista ∧
  Forall (λ e, es_ascii e = true ∧ upper e = e)
         (encabezados (detectar_orden_cat_bina sf df lista var_respuesta sig_level).1) ∧
  Forall2 (λ c t, ∃ a b, getitem df c = Normal a ∧ getitem df var_respuesta = Normal b ∧
                         t = crosstab a b)
          lista (observadas (detectar_orden_cat_bina sf df lista var_respuesta sig_level).1).
Proof.
  intros Hascii Hall. rewrite detectar_completa by done. split; [done|]. simpl.
  assert (Henc : encabezados (trazas (cuerpo sf df var_respuesta sig_level) lista)
                 = map upper lista ∧
                 Forall2 (λ c t, ∃ a b, getitem df c = Normal a ∧
                                        getitem df var_respuesta = Normal b ∧
                                        t = crosstab a b)
                   lista (observadas (trazas (cuerpo sf df var_respuesta sig_level) lista))).
  { clear Hascii.
    induction Hall as [|c lista Hc _ [IH1 IH2]]; [by split; [|constructor]|].
    destruct (cuerpo_completa_informe sf df var_respuesta sig_level c Hc)
      as (a & b & p & expected & Ha & Hb & _ & _ & Htr).
    unfold trazas in *. simpl. unfold encabezados, observadas in *.
    rewrite !omap_app, IH1, Htr. split.
    - by destruct (Qltb p sig_level).
    - destruct (Qltb p sig_level); simpl; (constructor; [by exists a, b|done]). }
  destruct Henc as [Henc Hobs]. split; [exact Henc|]. split; [|exact Hobs].
  rewrite Henc. apply Forall_fmap. eapply Forall_impl; [exact Hascii|].
  intros c Hc. simpl. split; [by apply es_ascii_upper|apply upper_idem].
Qed.

(** The heading of "Gender" on [df_tienda]. *)
Lemma informes_en_el_orden_de_la_lista_testigo :
  Forall (λ c, es_ascii c = true) ["Gender"] ∧
  Forall (λ c, completa (cuerpo (sf_constante 0.5) df_tienda "Bought" sig_level_defecto c))
         ["Gender"] ∧
  encabezados (detectar_orden_cat_bina (sf_constante 0.5) df_tienda ["Gender"]
                 "Bought" sig_level_defecto).1 = ["GENDER"] ∧
  length (observadas (detectar_orden_cat_bina (sf_constante 0.5) df_tienda
                        ["Gender"] "Bought" sig_level_defecto).1) = 1%nat.
Proof.
  assert (Ha : Forall (λ c, es_ascii c = true) ["Gender"]) by (repeat constructor).
  assert (H : Forall (λ c, completa (cuerpo (sf_constante 0.5) df_tienda "Bought"
                                       sig_level_defecto c)) ["Gender"])
    by (repeat constructor).
  split; [exact Ha|]. split; [exact H|].
  destruct (informes_en_el_orden_de_la_lista (sf_constante 0.5) df_tienda
              ["Gender"] "Bought" sig_level_defecto Ha H) as (_ & Henc & _ & Hobs).
  split; [exact Henc|]. by apply Forall2_length in Hobs.
Defined.

(** X12.  The significance level is used as given.  With a survival
    function that stays within 0 and 1, as the real one does, a level
    of 0 or less reports every column that completes as "not
    significant", and a level above 1 reports every one as
    "significant". *)
Theorem umbral_sin_validar (sf : Q → Z → Q) df var_respuesta sig_level categoria :
  (∀ x d, (0 <= sf x d)%Q ∧ (sf x d <= 1)%Q) →
  completa (cuerpo sf df var_respuesta sig_level categoria) →
  ((sig_level <= 0)%Q →
     ∃ t p, (cuerpo sf df var_respuesta sig_level categoria).1
            = informe_no categoria t p) ∧
  ((1 < sig_level)%Q →
     ∃ t p expected, (cuerpo sf df var_respuesta sig_level categoria).1
                     = informe_si categoria t p expected).
Proof.
  intros Hsf Hc.
  destruct (cuerpo_completa_informe sf df var_respuesta sig_level categoria Hc)
    as (a & b & p & expected & _ & _ & Hp & _ & Htr).
  assert (Hp01 : (0 <= p)%Q ∧ (p <= 1)%Q).
  { destruct Hp as [->|(x & d & ->)]; [split; discriminate|apply Hsf]. }
  rewrite Htr. split; intros Hsig.
  - destruct (Qltb p sig_level) eqn:E; [|eauto].
    apply Qltb_lt in E. lra.
  - destruct (Qltb p sig_level) eqn:E; [eauto|].
    assert (p < sig_level)%Q as Hlt%Qltb_lt by lra. congruence.
Qed.

Lemma umbral_sin_validar_testigo :
  (∀ x d, (0 <= sf_constante 0.5 x d)%Q ∧ (sf_constante 0.5 x d <= 1)%Q) ∧
  completa (cuerpo (sf_constante 0.5) df_tienda "Bought" 2 "Gender") ∧
  ∃ t p expected, (cuerpo (sf_constante 0.5) df_tienda "Bought" 2 "Gender").1
                  = informe_si "Gender" t p expected.
Proof.
  assert (Hsf : ∀ x d, (0 <= sf_constante 0.5 x d)%Q ∧ (sf_constante 0.5 x d <= 1)%Q)
    by (intros; split; discriminate).
  assert (Hc : completa (cuerpo (sf_constante 0.5) df_tienda "Bought" 2 "Gender"))
    by reflexivity.
  split; [exact Hsf|]. split; [exact Hc|].
  destruct (umbral_sin_validar (sf_constante 0.5) df_tienda "Bought" 2 "Gender" Hsf Hc)
    as [_ Hsi].
  apply Hsi. reflexivity.
Defined.

Lemma crosstab_bien_formada a b : tabla_bien_formada (crosstab a b).
Proof.
  unfold tabla_bien_formada, crosstab. cbn [index columns values].
  set (ps := pares_presentes a b).
  split; [apply etiquetas_NoDup|]. split; [apply etiquetas_NoDup|].
  split.
  { apply Forall_app. split; apply Forall_forall; intros v Hv;
      apply etiquetas_elem, list_elem_of_fmap in Hv as ([u w] & -> & Hp);
      apply list_elem_of_filter in Hp as [[H1 H2] _]; done. }
  split; [by rewrite length_map|]. split.
  - apply Forall_fmap, Forall_forall. intros r Hr. simpl.
    split; [by rewrite length_map|]. split.
    + apply Forall_fmap, Forall_forall. intros c _. simpl. unfold cuenta. lia.
    + rewrite suma_fila_crosstab. apply etiquetas_elem, veces_pos in Hr. lia.
  - intros j Hj. unfold columna_tabla. cbn [values]. rewrite map_map.
    destruct (lookup_lt_is_Some_2 _ _ Hj) as [c Hc].
    erewrite map_ext.
    2: { intros r. simpl. rewrite (nth_lookup_Some _ _ _ _ (list_lookup_fmap_Some_2 _ _ _ _ Hc)).
         reflexivity. }
    rewrite suma_columna_crosstab.
    apply list_elem_of_lookup_2, etiquetas_elem, veces_pos in Hc. lia.
Qed.

(** X13.  Every contingency table a call displays, also a call that
    fails later, has row and column labels that are present values and
    distinct, as many rows of cells as row labels and as many cells per
    row as column labels, no negative cell, and at least one counted
    row in every row and in every column.  The order of the labels is
    not part of the statement. *)
Theorem tablas_mostradas_bien_formadas (sf : Q → Z → Q) df lista var_respuesta sig_level t :
  EvDisplay (DObservada t)
    ∈ (detectar_orden_cat_bina sf df lista var_respuesta sig_level).1 →
  tabla_bien_formada t.
Proof.
  intros (c & _ & (a & b & _ & _ & ->)%cuerpo_muestra_crosstab)%for_each_elem.
  apply crosstab_bien_formada.
Qed.

Lemma tablas_mostradas_bien_formadas_testigo :
  EvDisplay (DObservada (mkTabla [VStr "u"; VStr "v"] [VInt 0; VInt 1]
                                 [[1; 1]; [1; 1]]%Z))
    ∈ (detectar_orden_cat_bina (sf_constante 0.5) df_mini ["B"; "W"] "y"
         sig_level_defecto).1 ∧
  tabla_bien_formada (mkTabla [VStr "u"; VStr "v"] [VInt 0; VInt 1] [[1; 1]; [1; 1]]%Z).
Proof.
  assert (H : EvDisplay (DObservada (mkTabla [VStr "u"; VStr "v"] [VInt 0; VInt 1]
                                             [[1; 1]; [1; 1]]%Z))
                ∈ (detectar_orden_cat_bina (sf_constante 0.5) df_mini ["B"; "W"] "y"
                     sig_level_defecto).1) by pertenece.
  split; [exact H|].
  exact (tablas_mostradas_bien_formadas _ _ _ _ _ _ H).
Defined.

Lemma redondear_no_negativo x : (0 <= x)%Q → (0 ≤ redondear x)%Z.
Proof.
  intros Hx. pose proof (Qfloor_resp_le _ _ Hx) as Hf.
  change (Qfloor 0) with 0%Z in Hf. unfold redondear.
  destruct (_ ?= _)%Q; [destruct (Z.even _)| |]; lia.
Qed.

Lemma inject_Z_of_nat_no_negativo n : (0 <= inject_Z (Z.of_nat n))%Q.
Proof. change 0%Q with (inject_Z 0). rewrite <- Zle_Qle. lia. Qed.

(** The expected frequencies of a contingency table, written with its
    margins; none is negative. *)
Lemma esperadas_crosstab a b :
  esperadas (crosstab a b)
  = tabla_de (λ r c, (total_fila (cuenta_q (pares_presentes a b))
                        (etiquetas (pares_presentes a b).*2) r
                      * total_columna (cuenta_q (pares_presentes a b))
                          (etiquetas (pares_presentes a b).*1) c
                      / gran_total (cuenta_q (pares_presentes a b))
                          (etiquetas (pares_presentes a b).*1)
                          (etiquetas (pares_presentes a b).*2))%Q)
      (etiquetas (pares_presentes a b).*1) (etiquetas (pares_presentes a b).*2).
Proof.
  unfold esperadas. rewrite a_float_crosstab.
  change (columns (crosstab a b)) with (etiquetas (pares_presentes a b).*2).
  by rewrite expected_freq_obs.
Qed.

Lemma esperadas_no_negativas a b :
  Forall (Forall (λ x, (0 <= x)%Q)) (esperadas (crosstab a b)).
Proof.
  rewrite esperadas_crosstab.
  pose proof (total_a_float_crosstab a b) as HN.
  rewrite a_float_crosstab, total_obs in HN.
  unfold tabla_de. apply Forall_fmap, Forall_forall. intros r _. simpl.
  apply Forall_fmap, Forall_forall. intros c _. simpl.
  rewrite HN, margen_fila_crosstab, margen_columna_crosstab.
  apply Qmult_le_0_compat; [apply Qmult_le_0_compat|apply Qinv_le_0_compat];
    apply inject_Z_of_nat_no_negativo.
Qed.

Section EsperadaLemas.
Variable sf : Q → Z → Q.
Variables (df : DataFrame) (var_respuesta : string) (sig_level : Q).

(** The expected table is displayed only by the report of a significant
    column. *)
Lemma cuerpo_muestra_esperada categoria e :
  EvDisplay (DEsperada e) ∈ (cuerpo sf df var_respuesta sig_level categoria).1 →
  ∃ a b p,
    getitem df categoria = Normal a ∧ getitem df var_respuesta = Normal b ∧
    (p < sig_level)%Q ∧
    (cuerpo sf df var_respuesta sig_level categoria).1
      = informe_si categoria (crosstab a b) p (esperadas (crosstab a b)) ∧
    e = mkTabla (index (crosstab a b)) (columns (crosstab a b))
                (map (map redondear) (esperadas (crosstab a b))).
Proof.
  intros He.
  assert (Hc : completa (cuerpo sf df var_respuesta sig_level categoria)).
  { unfold completa. revert He. rewrite cuerpo_eq.
    destruct (getitem df categoria) as [a|ex]; simpl.
    2: { intros H. apply elem_of_cons in H as [H|H]; [done|by apply elem_of_nil in H]. }
    destruct (getitem df var_respuesta) as [b|ex]; simpl.
    2: { intros H. apply elem_of_cons in H as [H|H]; [done|by apply elem_of_nil in H]. }
    destruct (chi2_contingency sf (crosstab a b)) as [[[[chi2 p] dof] expected]|ex];
      [done|]. simpl. intros H.
    repeat (apply elem_of_cons in H as [H|H]; [discriminate H|]).
    by apply elem_of_nil in H. }
  destruct (cuerpo_completa_informe sf df var_respuesta sig_level categoria Hc)
    as (a & b & p & expected & Ha & Hb & _ & -> & Htr).
  rewrite Htr in He |- *.
  destruct (Qltb p sig_level) eqn:E.
  - exists a, b, p. split; [done|]. split; [done|].
    split; [by apply Qltb_lt|]. split; [done|].
    unfold informe_si in He.
    repeat (apply elem_of_cons in He as [He|He];
            [try discriminate He; try (by injection He)|]).
    by apply elem_of_nil in He.
  - unfold informe_no in He.
    repeat (apply elem_of_cons in He as [He|He]; [discriminate He|]).
    by apply elem_of_nil in He.
Qed.

(** What a loop wrote contains, whole and in one piece, the trace of
    each iteration it reached. *)
Lemma for_each_elem_segmento {A} (f : A → M unit) (l : list A) (e : evento) :
  e ∈ (for_each l f).1 →
  ∃ x antes despues,
    x ∈ l ∧ e ∈ (f x).1 ∧ (for_each l f).1 = antes ++ (f x).1 ++ despues.
Proof.
  induction l as [|x l IH]; [by intros ?%elem_of_nil|].
  rewrite for_each_cons. destruct (f x).2 eqn:E; simpl.
  - intros [H|H]%elem_of_app.
    + exists x, [], (for_each l f).1. split; [by left|]. by split.
    + destruct (IH H) as (y & antes & despues & Hy & He & Heq).
      exists y, ((f x).1 ++ antes), despues. split; [by right|]. split; [done|].
      by rewrite Heq, <- app_assoc.
  - intros H. exists x, [], []. split; [by left|]. split; [done|].
    by rewrite app_nil_r.
Qed.
End EsperadaLemas.

Lemma redondeadas_forma (n : nat) (E : list (list Q)) :
  Forall (Forall (λ x, (0 <= x)%Q)) E →
  Forall (λ fila, length fila = n) E →
  Forall (λ fila, length fila = n ∧ Forall (λ z, (0 ≤ z)%Z) fila)
         (map (map redondear) E).
Proof.
  induction 1 as [|fila E Hf _ IH]; intros Hn; [constructor|].
  apply Forall_cons in Hn as [Hn1 Hn2]. simpl. constructor; [|by apply IH].
  split; [by rewrite length_map|].
  apply Forall_fmap. eapply Forall_impl; [exact Hf|].
  intros x Hx. by apply redondear_no_negativo.
Qed.

(** X14.  A table of expected frequencies is displayed only inside
    the report of a listed column that is reported as significant.
    The trace holds, in one piece, the heading of that column, its
    contingency table, the message that it is significant with a
    p-value below the level, the table of expected frequencies and the
    separator.  The table of expected frequencies carries the row and
    column labels of that contingency table, has its shape, holds its
    rounded expected frequencies, and has no negative cell. *)
Theorem tabla_esperada_mostrada (sf : Q → Z → Q) df lista var_respuesta sig_level e :
  EvDisplay (DEsperada e)
    ∈ (detectar_orden_cat_bina sf df lista var_respuesta sig_level).1 →
  ∃ antes despues c a b p,
    c ∈ lista ∧
    getitem df c = Normal a ∧ getitem df var_respuesta = Normal b ∧
    (p < sig_level)%Q ∧
    (detectar_orden_cat_bina sf df lista var_respuesta sig_level).1
      = antes ++ informe_si c (crosstab a b) p (esperadas (crosstab a b)) ++ despues ∧
    e = mkTabla (index (crosstab a b)) (columns (crosstab a b))
                (map (map redondear) (esperadas (crosstab a b))) ∧
    length (values e) = length (index e) ∧
    Forall (λ fila, length fila = length (columns e) ∧ Forall (λ z, (0 ≤ z)%Z) fila)
           (values e).
Proof.
  intros (c & antes & despues & Hc & He & Heq)%for_each_elem_segmento.
  apply cuerpo_muestra_esperada in He as (a & b & p & Ha & Hb & Hp & Htr & ->).
  exists antes, despues, c, a, b, p. split; [done|]. split; [done|]. split; [done|].
  split; [done|]. split; [by rewrite <- Htr|]. split; [done|].
  cbn [index columns values]. split.
  - rewrite esperadas_crosstab. unfold tabla_de. by rewrite !length_map.
  - apply redondeadas_forma; [apply esperadas_no_negativas|].
    rewrite esperadas_crosstab. unfold tabla_de.
    apply Forall_fmap, Forall_forall. intros r _. simpl. by rewrite length_map.
Qed.

(** On [df_tienda] "Gender" is reported as significant at a p-value of
    0.001, and its expected frequencies are 20 in every cell. *)
Lemma tabla_esperada_mostrada_testigo :
  EvDisplay (DEsperada (mkTabla [VStr "F"; VStr "M"] [VInt 0; VInt 1]
                                [[20; 20]; [20; 20]]%Z))
    ∈ (detectar_orden_cat_bina (sf_constante 0.001) df_tienda ["Gender"] "Bought"
         sig_level_defecto).1 ∧
  ∃ antes despues c a b p,
    c ∈ ["Gender"] ∧ (p < sig_level_defecto)%Q ∧
    (detectar_orden_cat_bina (sf_constante 0.001) df_tienda ["Gender"] "Bought"
       sig_level_defecto).1
      = antes ++ informe_si c (crosstab a b) p (esperadas (crosstab a b)) ++ despues.
Proof.
  assert (H : EvDisplay (DEsperada (mkTabla [VStr "F"; VStr "M"] [VInt 0; VInt 1]
                                            [[20; 20]; [20; 20]]%Z))
                ∈ (detectar_orden_cat_bina (sf_constante 0.001) df_tienda ["Gender"]
                     "Bought" sig_level_defecto).1) by pertenece.
  split; [exact H|].
  destruct (tabla_esperada_mostrada _ _ _ _ _ _ H)
    as (antes & despues & c & a & b & p & Hc & _ & _ & Hp & Heq & _).
  by exists antes, despues, c, a, b, p.
Defined.

(* ===================================================================== *)
(** * Further properties: the drawing methods *)
(* ===================================================================== *)

Import Graficos.

Lemma G_seguido {A B} (m : G A) (k : G B) :
  (m ;; k) = match m.2 with
             | Hecho _ => (m.1 ++ k.1, k.2)
             | Falla f => (m.1, Falla f)
             end.
Proof. destruct m as [o [a|f]], k as [o' r]; reflexivity. Qed.

Lemma subplots_vacia nrows ncols :
  nrows = 0%nat ∨ ncols = 0%nat → subplots nrows ncols = ([Figure], Falla RejillaVacia).
Proof.
  intros H. unfold subplots.
  assert ((nrows =? 0)%nat || (ncols =? 0)%nat = true) as ->; [|done].
  destruct H as [-> | ->]; [done|]. by rewrite orb_true_r.
Qed.

Lemma subplots_arreglo nrows ncols :
  (0 < nrows)%nat → (0 < ncols)%nat → (nrows * ncols ≠ 1)%nat →
  subplots nrows ncols = ([Figure; Subplots nrows ncols], Hecho (Arreglo (nrows * ncols))).
Proof.
  intros Hr Hc H1. unfold subplots.
  assert ((nrows =? 0)%nat || (ncols =? 0)%nat = false) as ->.
  { apply orb_false_iff. split; apply Nat.eqb_neq; lia. }
  assert ((nrows * ncols =? 1)%nat = false) as -> by (by apply Nat.eqb_neq).
  reflexivity.
Qed.

(** A grid with more than one cell: the loop runs over its flat view. *)
Lemma con_rejilla {B} nrows ncols (k : nat → G B) :
  (0 < nrows)%nat → (0 < ncols)%nat → (nrows * ncols ≠ 1)%nat →
  (axes ← subplots nrows ncols; axes ← flat axes; k axes)
  = (Figure :: Subplots nrows ncols :: (k (nrows * ncols)%nat).1, (k (nrows * ncols)%nat).2).
Proof.
  intros Hr Hc H1. rewrite subplots_arreglo by done. simpl.
  by destruct (k _).
Qed.

Lemma ceil_mitad_cota n : (n ≤ 2 * ceil_mitad n)%nat ∧ (2 * ceil_mitad n - n = n mod 2)%nat.
Proof.
  unfold ceil_mitad.
  pose proof (Nat.div_mod_eq (n + 1) 2) as H1. pose proof (Nat.mod_upper_bound (n + 1) 2) as H2.
  pose proof (Nat.div_mod_eq n 2) as H3. pose proof (Nat.mod_upper_bound n 2) as H4.
  assert (((n + 1) mod 2 = 1 - n mod 2)%nat).
  { rewrite Nat.Div0.add_mod by lia. destruct (n mod 2)%nat as [|[|?]]; simpl; try lia. }
  lia.
Qed.

Lemma ceil_mitad_pos n : (0 < n)%nat → (0 < ceil_mitad n)%nat.
Proof. pose proof (ceil_mitad_cota n). lia. Qed.

Lemma nombres_select_dtypes f df c :
  c ∈ nombres (select_dtypes f df) → c ∈ nombres df.
Proof.
  unfold nombres, select_dtypes. cbn [columnas].
  intros (p & -> & [_ Hp]%list_elem_of_filter)%list_elem_of_fmap.
  apply list_elem_of_fmap. eauto.
Qed.

(** How a loop over an enumerated list ends: after every iteration, or
    at the first one that fails. *)
Lemma para_cada_desde_casos {A} (cuerpo : nat → A → G unit)
    (ev : nat → A → list llamada) (l : list A) (i : nat) :
  (∀ j c, l !! j = Some c → (cuerpo (i + j)%nat c).2 = Hecho tt →
          (cuerpo (i + j)%nat c).1 = ev (i + j)%nat c) →
  match (para_cada_desde i l cuerpo).2 with
  | Hecho _ =>
      (para_cada_desde i l cuerpo).1 = concat (zip_with ev (seq i (length l)) l) ∧
      ∀ j c, l !! j = Some c → (cuerpo (i + j)%nat c).2 = Hecho tt
  | Falla f =>
      ∃ k c, l !! k = Some c ∧ (cuerpo (i + k)%nat c).2 = Falla f ∧
             (para_cada_desde i l cuerpo).1
             = concat (zip_with ev (seq i k) (take k l)) ++ (cuerpo (i + k)%nat c).1 ∧
             ∀ j c', (j < k)%nat → l !! j = Some c' → (cuerpo (i + j)%nat c').2 = Hecho tt
  end.
Proof.
  revert i. induction l as [|x l IH]; intros i Hev; simpl.
  { split; [done|]. intros j c Hj. done. }
  rewrite G_seguido.
  pose proof (Hev 0%nat x eq_refl) as H0. rewrite Nat.add_0_r in H0.
  destruct (cuerpo i x) as [o [[]|f]] eqn:Ex; simpl in *.
  - specialize (IH (S i)).
    assert (Hev' : ∀ j c, l !! j = Some c → (cuerpo (S i + j)%nat c).2 = Hecho tt →
                          (cuerpo (S i + j)%nat c).1 = ev (S i + j)%nat c).
    { intros j c Hj. replace (S i + j)%nat with (i + S j)%nat by lia. by apply Hev. }
    specialize (IH Hev').
    destruct (para_cada_desde (S i) l cuerpo) as [o' [[]|f]]; simpl in *.
    + destruct IH as [-> Hall]. split; [by rewrite H0|].
      intros [|j] c Hj; simpl in Hj.
      * injection Hj as <-. by rewrite Nat.add_0_r, Ex.
      * replace (i + S j)%nat with (S i + j)%nat by lia. by apply Hall.
    + destruct IH as (k & c & Hk & Hf & -> & Hprev).
      exists (S k), c. split; [done|].
      replace (i + S k)%nat with (S i + k)%nat by lia. split; [done|]. split.
      * simpl. rewrite H0 by done. by rewrite app_assoc.
      * intros [|j] c' Hlt Hj; simpl in Hj.
        -- injection Hj as <-. by rewrite Nat.add_0_r, Ex.
        -- replace (i + S j)%nat with (S i + j)%nat by lia. apply Hprev; [lia|done].
  - exists 0%nat, x. split; [done|]. rewrite Nat.add_0_r, Ex. simpl.
    split; [done|]. split; [done|]. intros j c' Hlt. lia.
Qed.

Section DibujoLemas.
Variable falla_seaborn : DataFrame → llamada → bool.
Variable df : DataFrame.

(** One drawing on the axes of its position. *)
Lemma dibujo_en_eje (n j : nat) (variables : list string) (c : nat → llamada) :
  (j < n)%nat → Forall (λ v, v ∈ nombres df) variables →
  (ax ← indexar n j; seaborn falla_seaborn df variables (c ax))
  = if falla_seaborn df (c j) then ([], Falla OtroFallo) else ([c j], Hecho tt).
Proof.
  intros Hj Hv. unfold indexar.
  assert ((j <? n)%nat = true) as -> by (by apply Nat.ltb_lt). simpl.
  unfold seaborn.
  assert (filter (λ v, v ∉ nombres df) variables = []) as ->.
  { induction Hv as [|v l Hv _ IH]; [done|].
    rewrite filter_cons, decide_False by (intros H; by apply H). done. }
  by destruct (falla_seaborn df (c j)).
Qed.
End DibujoLemas.

Lemma concat_zip_with_uno {A B} (f : nat → A → B) (l : list A) (i : nat) (k : nat) :
  concat (zip_with (λ j c, [f j c]) (seq i k) l) = zip_with f (seq i k) l.
Proof.
  revert i l. induction k as [|k IH]; intros i [|x l]; simpl; try done.
  by rewrite IH.
Qed.

Section BucleDibujo.
Variable cuerpo : nat → string → G unit.
Variable ev : nat → string → list llamada.
Variable falla : nat → string → bool.
Variable l : list string.
Hypothesis cuerpo_spec : ∀ j c, l !! j = Some c →
  if falla j c then (cuerpo j c).2 = Falla OtroFallo else cuerpo j c = (ev j c, Hecho tt).

(** A loop whose iterations can only fail inside seaborn: it returns
    exactly when none does, with the drawings of all of them. *)
Lemma bucle_dibujo :
  ((para_cada_enumerado l cuerpo).2 = Hecho tt
   ∨ (para_cada_enumerado l cuerpo).2 = Falla OtroFallo) ∧
  ((para_cada_enumerado l cuerpo).2 = Hecho tt
   ↔ ∀ i c, l !! i = Some c → falla i c = false) ∧
  ((para_cada_enumerado l cuerpo).2 = Hecho tt →
   (para_cada_enumerado l cuerpo).1 = concat (zip_with ev (seq 0 (length l)) l)).
Proof.
  unfold para_cada_enumerado.
  pose proof (para_cada_desde_casos cuerpo ev l 0) as H. simpl in H.
  lapply H.
  2: { intros j c Hj Hok. pose proof (cuerpo_spec j c Hj) as Hs.
       destruct (falla j c); [congruence|by rewrite Hs]. }
  clear H. intros H.
  destruct (para_cada_desde 0 l cuerpo) as [o [[]|f]]; cbn [fst snd] in *.
  - destruct H as [-> Hall]. split; [left; reflexivity|]. split; [|done].
    split; [|done]. intros _ i c Hi. specialize (Hall i c Hi).
    pose proof (cuerpo_spec i c Hi) as Hs. destruct (falla i c); [congruence|done].
  - destruct H as (k & c & Hk & Hf & _ & _).
    pose proof (cuerpo_spec k c Hk) as Hs.
    destruct (falla k c) eqn:E; [|rewrite Hs in Hf; done].
    rewrite Hs in Hf. injection Hf as <-. split; [right; reflexivity|]. split; [|done].
    split; [done|]. intros Hall. specialize (Hall k c Hk). congruence.
Qed.
End BucleDibujo.

Lemma omap_zip_with_None {A B C D} (g : C → option D) (f : A → B → C) la lb :
  (∀ a b, g (f a b) = None) → omap g (zip_with f la lb) = [].
Proof.
  intros H. revert lb. induction la as [|a la IH]; intros [|b lb]; simpl; try done.
  by rewrite H, IH.
Qed.

Lemma omap_zip_with_Some {A B C D} (g : C → option D) (f : A → B → C) (h : A → B → D) la lb :
  (∀ a b, g (f a b) = Some (h a b)) → omap g (zip_with f la lb) = zip_with h la lb.
Proof.
  intros H. revert lb. induction la as [|a la IH]; intros [|b lb]; simpl; try done.
  by rewrite H, IH.
Qed.

Lemma seaborn_nombres (falla_seaborn : DataFrame → llamada → bool) df variables c :
  Forall (λ v, v ∈ nombres df) variables →
  seaborn falla_seaborn df variables c
  = if falla_seaborn df c then ([], Falla OtroFallo) else ([c], Hecho tt).
Proof.
  intros Hv. unfold seaborn.
  assert (filter (λ v, v ∉ nombres df) variables = []) as ->.
  { induction Hv as [|v l Hv _ IH]; [done|].
    rewrite filter_cons, decide_False by (intros H; by apply H). done. }
  by destruct (falla_seaborn df c).
Qed.

Lemma indexar_dentro n j : (j < n)%nat → indexar n j = ([], Hecho j).
Proof.
  intros Hj. unfold indexar.
  by assert ((j <? n)%nat = true) as -> by (by apply Nat.ltb_lt).
Qed.

(** X15.  [plot_numericas] on a frame without numeric columns fails in
    [plt.subplots], which is asked for a grid with no column, having
    only opened the figure.  With numeric columns the index into the
    axes is always in range: the call returns exactly when no seaborn
    call fails, and then it has drawn one histogram per numeric column,
    in the frame's order, on the axes of the column's position; an odd
    number of columns leaves one panel of the grid empty. *)
Theorem plot_numericas_resultado (falla_seaborn : DataFrame → llamada → bool) df :
  let lista_num := nombres (select_dtypes es_number df) in
  let n := length lista_num in
  let llamada := plot_numericas falla_seaborn df in
  (lista_num = [] → llamada = ([Figure], Falla RejillaVacia)) ∧
  (lista_num ≠ [] →
     (llamada.2 = Hecho tt ∨ llamada.2 = Falla OtroFallo) ∧
     (llamada.2 = Hecho tt ↔
        ∀ i c, lista_num !! i = Some c → falla_seaborn df (Histplot c None i) = false) ∧
     (llamada.2 = Hecho tt →
        llamada.1 = [Figure; Subplots 2 (ceil_mitad n)]
                    ++ zip_with (λ i c, Histplot c None i) (seq 0 n) lista_num
                    ++ [Suptitle TitNumericas; TightLayout]) ∧
     (2 * ceil_mitad n - n = n mod 2)%nat).
Proof.
  intros lista_num n llamada. split.
  - intros Hl. unfold llamada, plot_numericas. fold lista_num. by rewrite Hl.
  - intros Hl.
    assert (Hn : (0 < n)%nat) by (unfold n; destruct lista_num; [done|simpl; lia]).
    pose proof (ceil_mitad_cota n) as [Hcota Hmod].
    pose proof (ceil_mitad_pos n Hn) as Hpos.
    unfold llamada, plot_numericas. fold lista_num. fold n.
    rewrite con_rejilla by lia.
    destruct (bucle_dibujo
                (λ indice columna, ax ← indexar (2 * ceil_mitad n) indice;
                   seaborn falla_seaborn df [columna] (Histplot columna None ax))
                (λ i c, [Histplot c None i]) (λ i c, falla_seaborn df (Histplot c None i))
                lista_num) as (Hcasos & Hiff & Htr).
    { intros j c Hj. rewrite (dibujo_en_eje falla_seaborn df _ j [c] (Histplot c None)).
      - by destruct (falla_seaborn df _).
      - apply lookup_lt_Some in Hj. fold n in Hj. lia.
      - constructor; [|done].
        by apply (nombres_select_dtypes es_number), list_elem_of_lookup_2 with j. }
    rewrite concat_zip_with_uno in Htr.
    rewrite G_seguido.
    change (trazar (Suptitle TitNumericas) ;; trazar TightLayout)
      with ([Suptitle TitNumericas; TightLayout], Hecho tt).
    destruct (para_cada_enumerado lista_num _) as [o [[]|f]]; cbn [fst snd] in *.
    + split; [left; reflexivity|]. split; [exact Hiff|]. split; [|exact Hmod].
      intros _. rewrite Htr by done. reflexivity.
    + split; [exact Hcasos|]. split; [exact Hiff|]. split; [done|exact Hmod].
Qed.

Lemma omap_concat_zip_with_uno {A B C D} (g : C → option D) (ev : A → B → list C)
    (h : A → B → D) la lb :
  (∀ a b, omap g (ev a b) = [h a b]) →
  omap g (concat (zip_with ev la lb)) = zip_with h la lb.
Proof.
  intros H. revert lb. induction la as [|a la IH]; intros [|b lb]; simpl; try done.
  by rewrite omap_app, H, IH.
Qed.

Lemma omap_concat_zip_with_nil {A B C D} (g : C → option D) (ev : A → B → list C) la lb :
  (∀ a b, omap g (ev a b) = []) →
  omap g (concat (zip_with ev la lb)) = [].
Proof.
  intros H. revert lb. induction la as [|a la IH]; intros [|b lb]; simpl; try done.
  by rewrite omap_app, H, IH.
Qed.

(** X16.  [plot_categoricas] on a frame without text columns fails in
    [plt.subplots], having only opened the figure.  With text columns it
    returns exactly when no seaborn call fails, and then it has drawn
    one bar chart per text column and titled its axes with the column
    name, by the column's position among the text columns, and nothing
    for any other column. *)
Theorem plot_categoricas_resultado (falla_seaborn : DataFrame → llamada → bool) df :
  let lista_cat := nombres (select_dtypes es_object df) in
  let n := length lista_cat in
  let llamada := plot_categoricas falla_seaborn df in
  (lista_cat = [] → llamada = ([Figure], Falla RejillaVacia)) ∧
  (lista_cat ≠ [] →
     (llamada.2 = Hecho tt ∨ llamada.2 = Falla OtroFallo) ∧
     (llamada.2 = Hecho tt ↔
        ∀ i c, lista_cat !! i = Some c →
               falla_seaborn df (Countplot c None true i) = false) ∧
     (llamada.2 = Hecho tt →
        barras llamada.1 = zip_with (λ i c, (c, i)) (seq 0 n) lista_cat ∧
        titulados llamada.1 = zip_with (λ i c, (i, TitColumna c)) (seq 0 n) lista_cat ∧
        histogramas llamada.1 = [] ∧ cajas llamada.1 = [] ∧ borrados llamada.1 = [])).
Proof.
  intros lista_cat n llamada. split.
  - intros Hl. unfold llamada, plot_categoricas. cbv zeta. fold lista_cat. by rewrite Hl.
  - intros Hl.
    assert (Hn : (0 < n)%nat) by (unfold n; destruct lista_cat; [done|simpl; lia]).
    pose proof (ceil_mitad_cota n) as [Hcota _].
    pose proof (ceil_mitad_pos n Hn) as Hpos.
    unfold llamada, plot_categoricas. cbv zeta. fold lista_cat. fold n.
    rewrite con_rejilla by lia.
    match goal with
    | |- context [para_cada_enumerado lista_cat ?cuerpo] =>
        destruct (bucle_dibujo cuerpo
          (λ i c, [Countplot c None true i; TickParams i; SetTitle i (TitColumna c);
                   QuitarXlabel i])
          (λ i c, falla_seaborn df (Countplot c None true i))
          lista_cat) as (Hcasos & Hiff & Htr)
    end.
    { intros j c Hj.
      assert (Hjn : (j < 2 * ceil_mitad n)%nat).
      { apply lookup_lt_Some in Hj. fold n in Hj. lia. }
      rewrite !(indexar_dentro _ _ Hjn). simpl.
      rewrite seaborn_nombres.
      2: { constructor; [|done].
           by apply (nombres_select_dtypes es_object), list_elem_of_lookup_2 with j. }
      by destruct (falla_seaborn df _). }
    rewrite G_seguido.
    change (trazar TightLayout ;; trazar (Suptitle TitCategoricas))
      with ([TightLayout; Suptitle TitCategoricas], Hecho tt).
    destruct (para_cada_enumerado lista_cat _) as [o [[]|f]]; cbn [fst snd] in *.
    + split; [left; reflexivity|]. split; [exact Hiff|].
      intros _. rewrite Htr by done. fold n.
      unfold barras, titulados, histogramas, cajas, borrados.
      cbn [omap list_omap]. rewrite !omap_app. cbn [omap list_omap].
      rewrite (omap_concat_zip_with_uno _ _ (λ i c, (c, i))) by done.
      rewrite (omap_concat_zip_with_uno _ _ (λ i c, (i, TitColumna c))) by done.
      rewrite !omap_concat_zip_with_nil by done.
      by rewrite !app_nil_r.
    + split; [exact Hcasos|]. split; [exact Hiff|]. done.
Qed.

Lemma filter_seq_distinto n :
  filter (λ ax, ax ∉ [n]) (seq 0 (S n)) = seq 0 n.
Proof.
  rewrite seq_S, filter_app. simpl.
  rewrite filter_cons, decide_False, filter_nil, app_nil_r.
  2: { intros H. apply H. by left. }
  induction (seq 0 n) as [|x s IH] eqn:E; [done|].
  assert (Hall : Forall (λ x, x ≠ n) (x :: s)).
  { rewrite <- E. apply Forall_forall. intros y Hy%list_elem_of_In%in_seq. lia. }
  clear E IH. induction Hall as [|y s' Hy _ IH]; [done|].
  rewrite filter_cons, decide_True, IH; [done|].
  intros [?| H]%elem_of_cons; [done|by apply elem_of_nil in H].
Qed.

Lemma filter_seq_todos n : filter (λ ax, ax ∉ ([] : list nat)) (seq 0 n) = seq 0 n.
Proof.
  induction (seq 0 n) as [|x s IH]; [done|].
  rewrite filter_cons, decide_True, IH; [done|]. by intros H%elem_of_nil.
Qed.

(** X17.  [deteccion_outliers] on a frame without numeric columns fails
    in [plt.subplots].  With numeric columns it can only fail inside
    seaborn; when it returns it has drawn one box plot per numeric
    column, by position, it has removed the last axes of the grid
    exactly when the number of columns is odd, and the figure is left
    with exactly the axes that hold a box plot. *)
Theorem deteccion_outliers_resultado (falla_seaborn : DataFrame → llamada → bool) df :
  let lista_num := nombres (select_dtypes es_number df) in
  let n := length lista_num in
  let llamada := deteccion_outliers falla_seaborn df in
  (lista_num = [] → llamada = ([Figure], Falla RejillaVacia)) ∧
  (lista_num ≠ [] →
     (llamada.2 = Hecho tt ∨ llamada.2 = Falla OtroFallo) ∧
     (llamada.2 = Hecho tt →
        cajas llamada.1 = zip_with (λ i c, (c, i)) (seq 0 n) lista_num ∧
        borrados llamada.1 = (if (n mod 2 =? 0)%nat then [] else [n]) ∧
        ejes_restantes llamada.1 = seq 0 n)).
Proof.
  intros lista_num n llamada. split.
  - intros Hl. unfold llamada, deteccion_outliers. fold lista_num. by rewrite Hl.
  - intros Hl.
    assert (Hn : (0 < n)%nat) by (unfold n; destruct lista_num; [done|simpl; lia]).
    pose proof (ceil_mitad_cota n) as [Hcota Hmod].
    pose proof (ceil_mitad_pos n Hn) as Hpos.
    pose proof (Nat.mod_upper_bound n 2) as Hmod2.
    unfold llamada, deteccion_outliers. fold lista_num. fold n.
    rewrite con_rejilla by lia.
    match goal with
    | |- context [para_cada_enumerado lista_num ?cuerpo] =>
        destruct (bucle_dibujo cuerpo (λ i c, [Boxplot c i])
          (λ i c, falla_seaborn df (Boxplot c i)) lista_num) as (Hcasos & Hiff & Htr)
    end.
    { intros j c Hj. rewrite (dibujo_en_eje falla_seaborn df _ j [c] (Boxplot c)).
      - by destruct (falla_seaborn df _).
      - apply lookup_lt_Some in Hj. fold n in Hj. lia.
      - constructor; [|done].
        by apply (nombres_select_dtypes es_number), list_elem_of_lookup_2 with j. }
    rewrite concat_zip_with_uno in Htr. fold n in Htr.
    rewrite G_seguido.
    destruct (para_cada_enumerado lista_num _) as [o [[]|f]]; cbn [fst snd] in *.
    2: { split; [exact Hcasos|done]. }
    rewrite Htr by done. clear Htr Hiff Hcasos.
    destruct (n mod 2 =? 0)%nat eqn:Epar.
    + apply Nat.eqb_eq in Epar.
      change ((mret tt : G unit) ;; trazar TightLayout) with ([TightLayout], Hecho tt).
      cbn [fst snd]. split; [left; reflexivity|]. intros _.
      unfold ejes_restantes, cajas, borrados, rejillas.
      cbn [omap list_omap]. rewrite !omap_app. cbn [omap list_omap].
      rewrite (omap_zip_with_Some _ _ (λ i c, (c, i))) by done.
      rewrite !omap_zip_with_None by done.
      rewrite app_nil_r. split; [done|]. split; [done|].
      simpl. rewrite app_nil_r.
      replace (ceil_mitad n + (ceil_mitad n + 0))%nat with n by lia.
      apply filter_seq_todos.
    + apply Nat.eqb_neq in Epar.
      assert (H2 : (2 * ceil_mitad n = S n)%nat) by lia.
      unfold ultimo. rewrite H2. simpl Nat.eqb. rewrite Nat.sub_1_r. simpl Nat.pred.
      change ((mret n ≫= λ ax, trazar (Delaxes ax)) ;; trazar TightLayout)
        with ([Delaxes n; TightLayout], Hecho tt).
      cbn [fst snd]. split; [left; reflexivity|]. intros _.
      unfold ejes_restantes, cajas, borrados, rejillas.
      cbn [omap list_omap]. rewrite !omap_app. cbn [omap list_omap].
      rewrite (omap_zip_with_Some _ _ (λ i c, (c, i))) by done.
      rewrite !omap_zip_with_None by done.
      rewrite app_nil_r. split; [done|]. split; [done|].
      simpl. rewrite app_nil_r.
      replace (ceil_mitad n + (ceil_mitad n + 0))%nat with (S n) by lia.
      apply filter_seq_distinto.
Qed.

Lemma elem_of_concat_zip_with_desde {A C} (ev : nat → A → list C) (l : list A) (s : nat) (x : C) :
  x ∈ concat (zip_with ev (seq s (length l)) l)
  ↔ ∃ i c, l !! i = Some c ∧ x ∈ ev (s + i)%nat c.
Proof.
  revert s. induction l as [|a l IH]; intros s; simpl.
  { split; [by intros ?%elem_of_nil|by intros (i & c & ? & _)]. }
  rewrite elem_of_app, IH. split.
  - intros [H|(i & c & Hi & Hx)].
    + exists 0%nat, a. by rewrite Nat.add_0_r.
    + exists (S i), c. split; [done|]. by replace (s + S i)%nat with (S s + i)%nat by lia.
  - intros ([|i] & c & Hi & Hx); simpl in Hi.
    + injection Hi as <-. left. by rewrite Nat.add_0_r in Hx.
    + right. exists i, c. split; [done|].
      by replace (S s + i)%nat with (s + S i)%nat by lia.
Qed.

Lemma elem_of_concat_zip_with_seq {A C} (ev : nat → A → list C) (l : list A) (x : C) :
  x ∈ concat (zip_with ev (seq 0 (length l)) l) ↔ ∃ i c, l !! i = Some c ∧ x ∈ ev i c.
Proof. apply (elem_of_concat_zip_with_desde ev l 0 x). Qed.

Section PlotRelacion.
Variable falla_seaborn : DataFrame → llamada → bool.
Variables (df : DataFrame) (vr : string).

Local Abbreviation lista_num := (nombres (select_dtypes es_number df)).
Local Abbreviation lista_cat := (nombres (select_dtypes es_object df)).

(** One iteration of the loop of [plot_relacion], for a column of the
    frame at a position within the grid. *)
Lemma plot_relacion_cuerpo (n j : nat) (c : string) :
  (j < n)%nat → c ∈ nombres df →
  ((if decide (c = vr) then
      ax ← indexar n j;
      trazar (Delaxes ax)
    else if decide (c ∈ lista_num) then
      ax ← indexar n j;
      seaborn falla_seaborn df [c; vr] (Histplot c (Some vr) ax)
    else if decide (c ∈ lista_cat) then
      ax ← indexar n j;
      seaborn falla_seaborn df [c; vr] (Countplot c (Some vr) false ax)
    else mret tt) ;;
   ax ← indexar n j;
   trazar (SetTitle ax (TitRelacion c vr)))
  = if decide (c = vr) then ([Delaxes j; SetTitle j (TitRelacion c vr)], Hecho tt)
    else if decide (c ∈ lista_num ∨ c ∈ lista_cat) then
      if decide (vr ∈ nombres df) then
        let d := if decide (c ∈ lista_num) then Histplot c (Some vr) j
                 else Countplot c (Some vr) false j in
        if falla_seaborn df d then ([], Falla OtroFallo)
        else ([d; SetTitle j (TitRelacion c vr)], Hecho tt)
      else ([], Falla (NombreDesconocido vr))
    else ([SetTitle j (TitRelacion c vr)], Hecho tt).
Proof.
  intros Hj Hc. rewrite !(indexar_dentro n j Hj).
  assert (Hsb : ∀ d, seaborn falla_seaborn df [c; vr] d
                     = if decide (vr ∈ nombres df)
                       then (if falla_seaborn df d then ([], Falla OtroFallo)
                             else ([d], Hecho tt))
                       else ([], Falla (NombreDesconocido vr))).
  { intros d. case_decide as Hvr.
    - apply seaborn_nombres. by repeat constructor.
    - unfold seaborn. rewrite filter_cons, decide_False by (intros H; by apply H).
      by rewrite filter_cons, decide_True. }
  destruct (decide (c = vr)) as [->|Hne]; [done|].
  destruct (decide (c ∈ lista_num)) as [Hnum|Hnum].
  - rewrite decide_True by (by left). simpl. rewrite Hsb.
    case_decide; [|done]. cbv zeta. by destruct (falla_seaborn df _).
  - destruct (decide (c ∈ lista_cat)) as [Hcat|Hcat].
    + rewrite decide_True by (by right). simpl. rewrite Hsb.
      case_decide; [|done]. cbv zeta. by destruct (falla_seaborn df _).
    + rewrite decide_False by tauto. done.
Qed.
End PlotRelacion.

(** X18.  [plot_relacion] with a [vr] that is not a column of the frame
    never draws and never removes axes.  On a frame without columns it
    fails in [plt.subplots]; when the frame has a numeric or a text
    column it fails at the first of them, in seaborn, which cannot
    interpret [vr]; otherwise it returns, having only set one title per
    column. *)
Theorem plot_relacion_respuesta_desconocida
    (falla_seaborn : DataFrame → llamada → bool) df vr :
  vr ∉ nombres df →
  let lista_num := nombres (select_dtypes es_number df) in
  let lista_cat := nombres (select_dtypes es_object df) in
  let llamada := plot_relacion falla_seaborn df vr in
  histogramas llamada.1 = [] ∧ barras llamada.1 = [] ∧ borrados llamada.1 = [] ∧
  (nombres df = [] → llamada = ([Figure], Falla RejillaVacia)) ∧
  (lista_num ≠ [] ∨ lista_cat ≠ [] → llamada.2 = Falla (NombreDesconocido vr)) ∧
  (nombres df ≠ [] → lista_num = [] → lista_cat = [] →
     llamada.2 = Hecho tt ∧
     titulados llamada.1
     = zip_with (λ i c, (i, TitRelacion c vr)) (seq 0 (length (nombres df))) (nombres df)).
Proof.
  intros Hvr lista_num lista_cat llamada.
  destruct (nombres df) as [|c0 resto] eqn:El.
  { assert (Hnum : lista_num = []).
    { destruct lista_num as [|c l] eqn:E; [done|].
      assert (c ∈ nombres df) as H by (apply (nombres_select_dtypes es_number); fold lista_num;
                                       rewrite E; by left).
      rewrite El in H. by apply elem_of_nil in H. }
    assert (Hcat : lista_cat = []).
    { destruct lista_cat as [|c l] eqn:E; [done|].
      assert (c ∈ nombres df) as H by (apply (nombres_select_dtypes es_object); fold lista_cat;
                                       rewrite E; by left).
      rewrite El in H. by apply elem_of_nil in H. }
    assert (llamada = ([Figure], Falla RejillaVacia)) as ->.
    { unfold llamada, plot_relacion. by rewrite El. }
    repeat split; try done. intros [?|?]; done. }
  assert (Hm : (0 < length (nombres df))%nat) by (rewrite El; simpl; lia).
  rewrite <- El in *. clear El c0 resto.
  set (m := length (nombres df)) in *.
  pose proof (ceil_mitad_cota m) as [Hcota _].
  pose proof (ceil_mitad_pos m Hm) as Hpos.
  unfold llamada, plot_relacion. fold m.
  rewrite con_rejilla by lia.
  match goal with
  | |- context [para_cada_enumerado (nombres df) ?cuerpo] =>
      pose proof (para_cada_desde_casos cuerpo
        (λ j c, [SetTitle j (TitRelacion c vr)]) (nombres df) 0) as H;
      assert (Hcuerpo : ∀ j c, nombres df !! j = Some c →
                cuerpo j c
                = if decide (c ∈ lista_num ∨ c ∈ lista_cat)
                  then ([], Falla (NombreDesconocido vr))
                  else ([SetTitle j (TitRelacion c vr)], Hecho tt))
  end.
  { intros j c Hj.
    assert (Hc : c ∈ nombres df) by (by apply list_elem_of_lookup_2 with j).
    rewrite (plot_relacion_cuerpo falla_seaborn df vr (ceil_mitad m * 2) j c).
    - rewrite decide_False by (intros ->; done).
      unfold lista_num, lista_cat.
      destruct (decide (_ ∨ _)); [|done]. by rewrite decide_False.
    - apply lookup_lt_Some in Hj. fold m in Hj. lia.
    - done. }
  simpl in H. lapply H.
  2: { intros j c Hj. rewrite (Hcuerpo j c Hj). by case_decide. }
  clear H. intros H. fold m in H.
  unfold para_cada_enumerado. rewrite G_seguido.
  change (trazar TightLayout) with ([TightLayout], Hecho tt).
  assert (Hvacia : nombres df ≠ []).
  { intros E. unfold m in Hm. rewrite E in Hm. simpl in Hm. lia. }
  destruct (para_cada_desde 0 (nombres df) _) as [o [[]|f]]; cbn [fst snd] in *.
  - destruct H as [-> Hall].
    assert (Hno : ∀ c, c ∈ nombres df → ¬ (c ∈ lista_num ∨ c ∈ lista_cat)).
    { intros c [j Hj]%list_elem_of_lookup Hd. specialize (Hall j c Hj).
      rewrite (Hcuerpo j c Hj), decide_True in Hall by done. done. }
    unfold histogramas, barras, borrados, titulados.
    cbn [omap list_omap]. rewrite !omap_app. cbn [omap list_omap].
    rewrite !omap_concat_zip_with_nil by done.
    rewrite (omap_concat_zip_with_uno _ _ (λ i c, (i, TitRelacion c vr))) by done.
    split; [done|]. split; [done|]. split; [done|]. split; [done|].
    split; [|intros _ _ _; by rewrite app_nil_r].
    intros [Hd|Hd]; exfalso.
    + destruct lista_num as [|c l] eqn:E; [done|].
      apply (Hno c); [|left; by left].
      apply (nombres_select_dtypes es_number). fold lista_num. rewrite E. by left.
    + destruct lista_cat as [|c l] eqn:E; [done|].
      apply (Hno c); [|right; by left].
      apply (nombres_select_dtypes es_object). fold lista_cat. rewrite E. by left.
  - destruct H as (k & c & Hk & Hf & -> & _).
    rewrite (Hcuerpo k c Hk) in Hf |- *.
    case_decide as Hd; [|done]. simpl in Hf. injection Hf as <-.
    unfold histogramas, barras, borrados.
    cbn [omap list_omap fst]. rewrite !omap_app. cbn [omap list_omap].
    rewrite !omap_concat_zip_with_nil by done.
    split; [done|]. split; [done|]. split; [done|]. split; [done|].
    split; [done|].
    intros _ Hnum Hcat. rewrite Hnum, Hcat in Hd.
    destruct Hd as [Hd|Hd]; by apply elem_of_nil in Hd.
Qed.

(** [df_mini] has text columns and no column "z". *)
Lemma plot_relacion_respuesta_desconocida_testigo :
  ("z" ∉ nombres df_mini) ∧
  (plot_relacion seaborn_fiable df_mini "z").2 = Falla (NombreDesconocido "z").
Proof.
  assert (Hz : "z" ∉ nombres df_mini) by decidir.
  split; [exact Hz|].
  destruct (plot_relacion_respuesta_desconocida seaborn_fiable df_mini "z" Hz)
    as (_ & _ & _ & _ & Hf & _).
  apply Hf. right. discriminate.
Defined.

(** X19.  When [plot_relacion] returns for a [vr] that is a column, the
    grid has two columns and half as many rows as the frame has columns,
    rounded up; every column of the frame, [vr] included, has the title
    set on the axes of its position; the axes removed are those of
    [vr], so its title goes to axes that are no longer in the figure;
    a histogram is drawn for each other numeric column and a bar chart
    for each other text column, and a column of any other type gets a
    title on empty axes. *)
Theorem plot_relacion_paneles (falla_seaborn : DataFrame → llamada → bool) df vr :
  vr ∈ nombres df →
  (plot_relacion falla_seaborn df vr).2 = Hecho tt →
  let lista_num := nombres (select_dtypes es_number df) in
  let lista_cat := nombres (select_dtypes es_object df) in
  let o := (plot_relacion falla_seaborn df vr).1 in
  rejillas o = [(ceil_mitad (length (nombres df)), 2%nat)] ∧
  titulados o
  = zip_with (λ i c, (i, TitRelacion c vr)) (seq 0 (length (nombres df))) (nombres df) ∧
  (∀ i, i ∈ borrados o ↔ nombres df !! i = Some vr) ∧
  (∀ c i, (c, i) ∈ histogramas o ↔
          nombres df !! i = Some c ∧ c ≠ vr ∧ c ∈ lista_num) ∧
  (∀ c i, (c, i) ∈ barras o ↔
          nombres df !! i = Some c ∧ c ≠ vr ∧ (c ∉ lista_num) ∧ c ∈ lista_cat).
Proof.
  intros Hvr Hret lista_num lista_cat o. revert Hret. unfold o. clear o.
  set (m := length (nombres df)).
  assert (Hm : (0 < m)%nat).
  { unfold m. destruct (nombres df); [by apply elem_of_nil in Hvr|simpl; lia]. }
  pose proof (ceil_mitad_cota m) as [Hcota _].
  pose proof (ceil_mitad_pos m Hm) as Hpos.
  unfold plot_relacion. fold m.
  rewrite con_rejilla by lia.
  set (ev := λ (j : nat) (c : string),
         (if decide (c = vr) then [Delaxes j]
          else if decide (c ∈ lista_num) then [Histplot c (Some vr) j]
          else if decide (c ∈ lista_cat) then [Countplot c (Some vr) false j]
          else []) ++ [SetTitle j (TitRelacion c vr)]).
  match goal with
  | |- context [para_cada_enumerado (nombres df) ?cuerpo] =>
      pose proof (para_cada_desde_casos cuerpo ev (nombres df) 0) as H
  end.
  simpl in H. lapply H.
  2: { intros j c Hj.
       rewrite (plot_relacion_cuerpo falla_seaborn df vr (ceil_mitad m * 2) j c).
       - unfold ev, lista_num, lista_cat.
         destruct (decide (c = vr)); [done|].
         destruct (decide (_ ∨ _)) as [Hd|Hd].
         + rewrite decide_True by done. cbv zeta.
           destruct (decide (c ∈ _)).
           * by destruct (falla_seaborn df _).
           * destruct Hd as [?|Hd]; [done|]. rewrite decide_True by done.
             by destruct (falla_seaborn df _).
         + rewrite !decide_False by tauto. done.
       - apply lookup_lt_Some in Hj. fold m in Hj. lia.
       - by apply list_elem_of_lookup_2 with j. }
  clear H. intros H. fold m in H.
  unfold para_cada_enumerado. rewrite G_seguido.
  change (trazar TightLayout) with ([TightLayout], Hecho tt).
  destruct (para_cada_desde 0 (nombres df) _) as [o [[]|f]]; cbn [fst snd] in *; [|done].
  destruct H as [-> _]. intros _.
  unfold rejillas, titulados, borrados, histogramas, barras.
  cbn [omap list_omap]. rewrite !omap_app. cbn [omap list_omap]. rewrite !app_nil_r.
  split.
  { rewrite omap_concat_zip_with_nil; [done|].
    intros j c. unfold ev. rewrite omap_app. by repeat case_decide. }
  split.
  { apply omap_concat_zip_with_uno.
    intros j c. unfold ev. rewrite omap_app. by repeat case_decide. }
  assert (Hel : ∀ {D} (g : llamada → option D) (x : D),
            x ∈ omap g (concat (zip_with ev (seq 0 m) (nombres df)))
            ↔ ∃ i c, nombres df !! i = Some c ∧ x ∈ omap g (ev i c)).
  { intros D g x. rewrite list_elem_of_omap. split.
    - intros (e & He & Hg). apply elem_of_concat_zip_with_seq in He as (i & c & Hi & He).
      exists i, c. split; [done|]. apply list_elem_of_omap. eauto.
    - intros (i & c & Hi & (e & He & Hg)%list_elem_of_omap).
      exists e. split; [|done]. apply elem_of_concat_zip_with_seq. eauto. }
  split; [|split].
  - intros i. rewrite Hel. split.
    + intros (j & c & Hj & Hx). unfold ev in Hx. rewrite omap_app in Hx.
      repeat case_decide; simpl in Hx;
        repeat (apply elem_of_cons in Hx as [Hx|Hx]; [|]); try (by apply elem_of_nil in Hx).
      by subst.
    + intros Hi. exists i, vr. split; [done|]. unfold ev.
      rewrite decide_True by done. simpl. by left.
  - intros c i. rewrite Hel. split.
    + intros (j & c' & Hj & Hx). unfold ev in Hx. rewrite omap_app in Hx.
      repeat case_decide; simpl in Hx;
        repeat (apply elem_of_cons in Hx as [Hx|Hx]; [|]); try (by apply elem_of_nil in Hx).
      injection Hx as -> ->. done.
    + intros (Hi & Hne & Hnum). exists i, c. split; [done|]. unfold ev.
      rewrite decide_False, decide_True by done. simpl. by left.
  - intros c i. rewrite Hel. split.
    + intros (j & c' & Hj & Hx). unfold ev in Hx. rewrite omap_app in Hx.
      repeat case_decide; simpl in Hx;
        repeat (apply elem_of_cons in Hx as [Hx|Hx]; [|]); try (by apply elem_of_nil in Hx).
      injection Hx as -> ->. done.
    + intros (Hi & Hne & Hnum & Hcat). exists i, c. split; [done|]. unfold ev.
      rewrite decide_False by done. rewrite decide_False by done.
      rewrite decide_True by done. simpl. by left.
Qed.

(** [df_tipos] has one column of each type; "edad" is its first. *)
Lemma plot_relacion_paneles_testigo :
  ("edad" ∈ nombres df_tipos) ∧
  (plot_relacion seaborn_fiable df_tipos "edad").2 = Hecho tt ∧
  rejillas (plot_relacion seaborn_fiable df_tipos "edad").1 = [(4, 2)%nat] ∧
  (0%nat ∈ borrados (plot_relacion seaborn_fiable df_tipos "edad").1
   ↔ nombres df_tipos !! 0%nat = Some "edad").
Proof.
  assert (H1 : "edad" ∈ nombres df_tipos) by decidir.
  assert (H2 : (plot_relacion seaborn_fiable df_tipos "edad").2 = Hecho tt)
    by (vm_compute; reflexivity).
  split; [exact H1|]. split; [exact H2|].
  destruct (plot_relacion_paneles seaborn_fiable df_tipos "edad" H1 H2)
    as (Hr & _ & Hb & _).
  split; [exact Hr|]. exact (Hb 0%nat).
Defined.

Lemma para_cada_desde_const {A} (l : list A) (f : A → G unit) (i : nat) :
  para_cada_desde i l (λ _, f) = para_cada l f.
Proof. revert i. induction l as [|x l IH]; intros i; simpl; [done|]. by rewrite IH. Qed.

Lemma concat_zip_with_const {A C} (ev : A → list C) (l : list A) (i : nat) :
  concat (zip_with (λ _, ev) (seq i (length l)) l) = concat (map ev l).
Proof. revert i. induction l as [|x l IH]; intros i; simpl; [done|]. by rewrite IH. Qed.

Lemma para_cada_desde_elem {A} (cuerpo : nat → A → G unit) (l : list A) (i : nat) e :
  e ∈ (para_cada_desde i l cuerpo).1 →
  ∃ j c, l !! j = Some c ∧ e ∈ (cuerpo (i + j)%nat c).1.
Proof.
  revert i. induction l as [|x l IH]; intros i; simpl; [by intros ?%elem_of_nil|].
  rewrite G_seguido. destruct (cuerpo i x) as [o [[]|f]] eqn:Ex; cbn [fst snd].
  - intros [H|H]%elem_of_app.
    + exists 0%nat, x. by rewrite Nat.add_0_r, Ex.
    + destruct (IH _ H) as (j & c & Hj & He). exists (S j), c. split; [done|].
      by replace (i + S j)%nat with (S i + j)%nat by lia.
  - intros H. exists 0%nat, x. by rewrite Nat.add_0_r, Ex.
Qed.

Lemma para_cada_desde_todas {A} (cuerpo : nat → A → G unit) (ev : nat → A → list llamada)
    (l : list A) (i : nat) :
  (∀ j c, l !! j = Some c → cuerpo (i + j)%nat c = (ev (i + j)%nat c, Hecho tt)) →
  para_cada_desde i l cuerpo = (concat (zip_with ev (seq i (length l)) l), Hecho tt).
Proof.
  revert i. induction l as [|x l IH]; intros i H; simpl; [done|].
  pose proof (H 0%nat x eq_refl) as H0. rewrite Nat.add_0_r in H0.
  rewrite H0, IH; [done|].
  intros j c Hj. replace (S i + j)%nat with (i + S j)%nat by lia. by apply H.
Qed.

Lemma omap_concat_map {A C D} (g : C → option D) (F : A → list C) (F' : A → list D) l :
  (∀ a, omap g (F a) = F' a) → omap g (concat (map F l)) = concat (map F' l).
Proof.
  intros H. induction l as [|a l IH]; simpl; [done|]. by rewrite omap_app, H, IH.
Qed.

Section Dispersion.
Variable falla_seaborn : DataFrame → llamada → bool.
Variable df : DataFrame.

Local Abbreviation cats := (nombres (select_dtypes es_categorica df)).
Local Abbreviation nums := (nombres (select_dtypes es_number df)).

(** With a single categorical column the grid is 1 x 1, [plt.subplots]
    returns the [Axes] itself, [axes.flat] fails and the handler draws
    on the current axes. *)
Lemma una_categorica_iteracion (c num : string) (bucle : nat → G unit) :
  c ∈ nombres df → num ∈ nombres df →
  intentar
    (axes ← subplots (length [c]) 1;
     axes ← flat axes;
     trazar (Suptitle (TitDispersion num)) ;; bucle axes ;; trazar TightLayout)
    (hue ← primero [c];
     seaborn falla_seaborn df [num; hue] (Scatterplot num hue None) ;;
     trazar Legend ;; trazar (Xlabel num) ;; trazar Ylabel ;; trazar TightLayout)
  = if falla_seaborn df (Scatterplot num c None)
    then ([Figure; Subplots 1 1], Falla OtroFallo)
    else ([Figure; Subplots 1 1; Scatterplot num c None; Legend; Xlabel num; Ylabel;
           TightLayout], Hecho tt).
Proof.
  intros Hc Hnum. simpl. rewrite seaborn_nombres by (by repeat constructor).
  by destruct (falla_seaborn df _).
Qed.
End Dispersion.

(** X20.  Without categorical columns [visualizar_categoricas_numericas]
    only prints its message.  With exactly one, the [try] block never
    gets past [axes.flat]: for every numeric column a figure with one
    axes is opened and the handler draws one scatter plot on the current
    axes, so no figure title is ever set and nothing is drawn on indexed
    axes; the call returns exactly when no seaborn call of the handler
    fails. *)
Theorem visualizar_con_una_categorica (falla_seaborn : DataFrame → llamada → bool) df :
  let cats := nombres (select_dtypes es_categorica df) in
  let nums := nombres (select_dtypes es_number df) in
  let llamada := visualizar_categoricas_numericas falla_seaborn df in
  (cats = [] → llamada = ([PrintSinCategoricas], Hecho tt)) ∧
  (∀ c, cats = [c] →
     (llamada.2 = Hecho tt ∨ llamada.2 = Falla OtroFallo) ∧
     (llamada.2 = Hecho tt ↔
        ∀ num, num ∈ nums → falla_seaborn df (Scatterplot num c None) = false) ∧
     (llamada.2 = Hecho tt →
        llamada.1 = flat_map (λ num, [Figure; Subplots 1 1; Scatterplot num c None;
                                      Legend; Xlabel num; Ylabel; TightLayout]) nums) ∧
     (∀ e, e ∈ llamada.1 →
           (∀ t, e ≠ Suptitle t) ∧ (∀ x hue ax, e ≠ Scatterplot x hue (Some ax)))).
Proof.
  intros cats nums llamada. split.
  { intros Hc. unfold llamada, visualizar_categoricas_numericas. fold cats. by rewrite Hc. }
  intros c Hc.
  assert (Hcdf : c ∈ nombres df).
  { apply (nombres_select_dtypes es_categorica). fold cats. rewrite Hc. by left. }
  unfold llamada, visualizar_categoricas_numericas. fold cats nums. rewrite Hc.
  change (0 <? length [c])%nat with true. cbv iota.
  rewrite <- (para_cada_desde_const nums _ 0).
  set (ev := λ (_ : nat) (num : string),
         [Figure; Subplots 1 1; Scatterplot num c None; Legend; Xlabel num; Ylabel;
          TightLayout]).
  match goal with
  | |- context [para_cada_desde 0 nums ?cuerpo] =>
      assert (Hcuerpo : ∀ j num, nums !! j = Some num →
                cuerpo j num
                = if falla_seaborn df (Scatterplot num c None)
                  then ([Figure; Subplots 1 1], Falla OtroFallo)
                  else (ev j num, Hecho tt));
      [|pose proof (bucle_dibujo cuerpo ev
                     (λ _ num, falla_seaborn df (Scatterplot num c None)) nums) as H;
        pose proof (para_cada_desde_elem cuerpo nums 0) as Hel]
  end.
  { intros j num Hj. cbv beta.
    apply (una_categorica_iteracion falla_seaborn df c num); [done|].
    by apply (nombres_select_dtypes es_number), list_elem_of_lookup_2 with j. }
  lapply H.
  2: { intros j num Hj. rewrite (Hcuerpo j num Hj). by destruct (falla_seaborn df _). }
  clear H. unfold para_cada_enumerado. intros (Hcasos & Hiff & Htr).
  split; [exact Hcasos|]. split; [|split].
  - rewrite Hiff. split.
    + intros H num [j Hj]%list_elem_of_lookup. by apply (H j).
    + intros H j num Hj. apply H. by apply list_elem_of_lookup_2 with j.
  - intros Hret. rewrite (Htr Hret). unfold ev.
    by rewrite concat_zip_with_const, flat_map_concat_map.
  - intros e (j & num & Hj & He)%Hel.
    pose proof (Hcuerpo j num Hj) as Hc'. cbv beta in Hc', He. rewrite Hc' in He.
    destruct (falla_seaborn df _); unfold ev in He; simpl in He;
      repeat (apply elem_of_cons in He as [->|He]; [by split|]);
      by apply elem_of_nil in He.
Qed.

Lemma para_cada_todas {A} (f : A → G unit) (ev : A → list llamada) (l : list A) :
  (∀ x, x ∈ l → f x = (ev x, Hecho tt)) →
  para_cada l f = (concat (map ev l), Hecho tt).
Proof.
  intros H. rewrite <- (para_cada_desde_const l f 0).
  rewrite (para_cada_desde_todas (λ _, f) (λ _, ev)).
  - by rewrite concat_zip_with_const.
  - intros j c Hj. apply H. by apply list_elem_of_lookup_2 with j.
Qed.

(** X21.  With two or more categorical columns and a seaborn that does
    not fail, [visualizar_categoricas_numericas] returns; for every
    numeric column it opens one figure with one row of axes per
    categorical column, and draws on them, in order, the scatter plots
    of that numeric column coloured by each categorical column: as many
    scatter plots as there are pairs of a numeric and a categorical
    column. *)
Theorem visualizar_con_varias_categoricas (falla_seaborn : DataFrame → llamada → bool) df :
  (2 ≤ length (nombres (select_dtypes es_categorica df)))%nat →
  (∀ c, falla_seaborn df c = false) →
  let cats := nombres (select_dtypes es_categorica df) in
  let nums := nombres (select_dtypes es_number df) in
  let llamada := visualizar_categoricas_numericas falla_seaborn df in
  llamada.2 = Hecho tt ∧
  rejillas llamada.1 = map (λ _, (length cats, 1%nat)) nums ∧
  dispersiones llamada.1
  = flat_map (λ num, zip_with (λ i cat, (num, cat, Some i)) (seq 0 (length cats)) cats)
             nums ∧
  length (dispersiones llamada.1) = (length nums * length cats)%nat.
Proof.
  intros Hk Hfiable cats nums llamada.
  unfold llamada, visualizar_categoricas_numericas. fold cats nums. fold cats in Hk.
  set (k := length cats) in *.
  assert ((0 <? k)%nat = true) as -> by (apply Nat.ltb_lt; lia).
  set (dentro := λ (num : string) (j : nat) (cat : string),
         [Scatterplot num cat (Some j); SetXlabel j num; SetYlabel j; LegendAx j]).
  set (ev := λ num : string,
         Figure :: Subplots k 1 :: Suptitle (TitDispersion num)
         :: concat (zip_with (dentro num) (seq 0 k) cats) ++ [TightLayout]).
  rewrite (para_cada_todas _ ev).
  2: { intros num Hnum%(nombres_select_dtypes es_number).
       rewrite con_rejilla by lia.
       unfold para_cada_enumerado.
       rewrite (para_cada_desde_todas _ (dentro num)).
       - reflexivity.
       - intros j cat Hj. simpl.
         assert (Hjk : (j < k * 1)%nat) by (apply lookup_lt_Some in Hj; fold k in Hj; lia).
         rewrite !(indexar_dentro _ _ Hjk). simpl.
         rewrite seaborn_nombres, Hfiable; [done|].
         constructor; [done|]. constructor; [|done].
         by apply (nombres_select_dtypes es_categorica), list_elem_of_lookup_2 with j. }
  cbn [fst snd]. split; [done|].
  assert (Hd : dispersiones (concat (map ev nums))
               = flat_map (λ num, zip_with (λ i cat, (num, cat, Some i)) (seq 0 k) cats)
                          nums).
  { rewrite flat_map_concat_map. apply omap_concat_map. intros num. unfold ev.
    cbn [omap list_omap]. rewrite omap_app. cbn [omap list_omap]. rewrite app_nil_r.
    by apply omap_concat_zip_with_uno. }
  split; [|split; [exact Hd|]].
  - unfold rejillas. rewrite (omap_concat_map _ _ (λ _, [(k, 1%nat)])).
    + clear. induction nums as [|x l IH]; [done|]. simpl. by rewrite IH.
    + intros num. unfold ev. cbn [omap list_omap]. rewrite omap_app.
      cbn [omap list_omap]. by rewrite omap_concat_zip_with_nil.
  - rewrite Hd. clear. induction nums as [|x l IH]; [done|].
    simpl. rewrite length_app, IH, length_zip_with_l_eq; [|by rewrite length_seq].
    rewrite length_seq. done.
Qed.

(** [df_nulos] has two text columns and two numeric ones. *)
Lemma visualizar_con_varias_categoricas_testigo :
  (2 ≤ length (nombres (select_dtypes es_categorica df_nulos)))%nat ∧
  (∀ c, seaborn_fiable df_nulos c = false) ∧
  length (dispersiones (visualizar_categoricas_numericas seaborn_fiable df_nulos).1)
  = (length (nombres (select_dtypes es_number df_nulos))
     * length (nombres (select_dtypes es_categorica df_nulos)))%nat.
Proof.
  assert (H1 : (2 ≤ length (nombres (select_dtypes es_categorica df_nulos)))%nat)
    by (vm_compute; lia).
  assert (H2 : ∀ c, seaborn_fiable df_nulos c = false) by done.
  split; [exact H1|]. split; [exact H2|].
  destruct (visualizar_con_varias_categoricas seaborn_fiable df_nulos H1 H2)
    as (_ & _ & _ & Hlen).
  exact Hlen.
Defined.

Lemma select_dtypes_elem (P : dtype → bool) (df : DataFrame) c :
  NoDup (nombres df) →
  c ∈ nombres (select_dtypes P df) ↔ ∃ s, getitem df c = Normal s ∧ P (s_dtype s) = true.
Proof.
  intros Hn. unfold nombres, select_dtypes in *. cbn [columnas]. split.
  - intros ([n s] & -> & [HP Hin]%list_elem_of_filter)%list_elem_of_fmap.
    exists s. split; [|done]. simpl.
    destruct (proj2 (getitem_elem df n)) as [s' Hs'].
    { apply list_elem_of_fmap. by exists (n, s). }
    rewrite Hs'. f_equal. apply getitem_Normal in Hs'.
    by eapply NoDup_fst_funcional.
  - intros (s & Hs%getitem_Normal & HP). apply list_elem_of_fmap.
    exists (c, s). split; [done|]. by apply list_elem_of_filter.
Qed.

(** X22.  [analisis_temporal] turns the temporal column into a
    categorical one.  When it was the only text column of the frame,
    [plot_categoricas], which could not fail in [plt.subplots] before
    the call, fails there after it, since no text column is left; the
    column is still one of the categorical columns that
    [visualizar_categoricas_numericas] selects. *)
Theorem analisis_temporal_deja_sin_texto (falla_seaborn : DataFrame → llamada → bool)
    (h : gmap ref DataFrame) d df vr vt order col :
  h !! d = Some df →
  bien_formado df →
  getitem df vt = Normal col →
  NoDup order →
  nombres (select_dtypes es_object df) = [vt] →
  ∃ h' r df',
    Visualizador.analisis_temporal (Visualizador.__init__ d) vr vt order h = Some (h', r) ∧
    h' !! d = Some df' ∧
    (plot_categoricas falla_seaborn df).2 ≠ Falla RejillaVacia ∧
    plot_categoricas falla_seaborn df' = ([Figure], Falla RejillaVacia) ∧
    vt ∈ nombres (select_dtypes es_categorica df').
Proof.
  intros Hd [Hnd _] Hcol Hord Hobj.
  assert (Hvt : vt ∈ nombres df) by (apply getitem_elem; eauto).
  rewrite (analisis_temporal_exito h d df vr vt order col Hd Hcol Hord).
  set (cat := mkSeries (category order true) (map (restringir order) (s_values col))).
  set (df' := setitem df vt cat).
  exists (<[d := df']> h), (Visualizador.trazado df' vr), df'.
  split; [reflexivity|]. split; [by rewrite lookup_insert_eq|].
  assert (Hnd' : NoDup (nombres df')) by (unfold df'; by rewrite nombres_setitem).
  assert (Hcat : getitem df' vt = Normal cat)
    by (unfold df'; by rewrite getitem_setitem, decide_True).
  split; [|split].
  - unfold plot_categoricas. cbv zeta. rewrite Hobj.
    change (ceil_mitad (length [vt])) with 1%nat.
    rewrite con_rejilla by lia.
    unfold para_cada_enumerado. cbn [para_cada_desde].
    rewrite !(indexar_dentro (2 * 1) 0) by lia.
    pose proof (seaborn_nombres falla_seaborn df [vt] (Countplot vt None true 0)) as Hsb.
    lapply Hsb; [clear Hsb; intros Hsb|by repeat constructor].
    cbn [mbind G_bind]. rewrite Hsb.
    by destruct (falla_seaborn df _).
  - assert (nombres (select_dtypes es_object df') = []) as Hvacio.
    { destruct (nombres (select_dtypes es_object df')) as [|c l] eqn:E; [done|].
      assert (Hc : c ∈ nombres (select_dtypes es_object df')) by (rewrite E; by left).
      apply select_dtypes_elem in Hc as (s & Hs & HP); [|done].
      destruct (decide (c = vt)) as [->|Hne].
      - rewrite Hcat in Hs. by injection Hs as <-.
      - unfold df' in Hs. rewrite getitem_setitem, decide_False in Hs by done.
        assert (c ∈ nombres (select_dtypes es_object df)) as Hin
          by (apply select_dtypes_elem; eauto).
        rewrite Hobj in Hin. apply elem_of_cons in Hin as [?|Hin]; [done|].
        by apply elem_of_nil in Hin. }
    unfold plot_categoricas. cbv zeta. by rewrite Hvacio.
  - apply select_dtypes_elem; [done|]. by exists cat.
Qed.

(** "Month" is the only text column of [df_meses]. *)
Lemma analisis_temporal_deja_sin_texto_testigo :
  almacen !! 1%positive = Some df_meses ∧ bien_formado df_meses ∧
  nombres (select_dtypes es_object df_meses) = ["Month"] ∧
  ∃ h' r df',
    Visualizador.analisis_temporal (Visualizador.__init__ 1%positive)
      "PageValues" "Month" Visualizador.order_defecto almacen = Some (h', r) ∧
    h' !! 1%positive = Some df' ∧
    plot_categoricas seaborn_fiable df' = ([Figure], Falla RejillaVacia).
Proof.
  assert (Hbf : bien_formado df_meses) by (split; decidir).
  split; [reflexivity|]. split; [exact Hbf|]. split; [reflexivity|].
  destruct (analisis_temporal_deja_sin_texto seaborn_fiable almacen 1%positive df_meses
              "PageValues" "Month" Visualizador.order_defecto
              (texto ["Feb"; "June"; "Jan"]) eq_refl Hbf eq_refl)
    as (h' & r & df' & H1 & H2 & _ & H3 & _); [decidir|reflexivity|].
  by exists h', r, df'.
Defined.

Lemma fila_triu_visibles (n i : nat) :
  length (filter (λ b, b = false) (map (λ j, (i <=? j)%nat) (seq 0 n))) = Nat.min i n.
Proof.
  induction n as [|n IH]; [by rewrite Nat.min_0_r|].
  rewrite seq_S, map_app, filter_app, length_app, IH. simpl.
  rewrite filter_cons. destruct (i <=? n)%nat eqn:E.
  - apply Nat.leb_le in E. rewrite decide_False by done. simpl. lia.
  - apply Nat.leb_gt in E. rewrite decide_True by done. simpl. lia.
Qed.

Lemma triu_unos_visibles (n m : nat) :
  (m ≤ n)%nat →
  (2 * length (filter (λ b, b = false)
                 (concat (map (λ i, map (λ j, (i <=? j)%nat) (seq 0 n)) (seq 0 m))))
   = m * (m - 1))%nat.
Proof.
  induction m as [|m IH]; intros Hm; [done|].
  rewrite seq_S, map_app, concat_app, filter_app, length_app.
  cbn [map concat]. rewrite app_nil_r, fila_triu_visibles.
  change (0 + m)%nat with m. rewrite Nat.min_l by lia.
  specialize (IH ltac:(lia)).
  set (T := length _) in *.
  destruct m as [|m]; [lia|].
  replace (S m - 1)%nat with m in IH by lia.
  replace (S (S m) - 1)%nat with (S m) by lia. nia.
Qed.

Lemma triu_unos_abierta (n i j : nat) :
  (∃ fila, triu_unos n !! i = Some fila ∧ fila !! j = Some false) ↔ (j < i < n)%nat.
Proof.
  unfold triu_unos. split.
  - intros (fila & Hi & Hj).
    apply list_lookup_fmap_Some in Hi as (i' & -> & Hi).
    apply lookup_seq in Hi as [-> Hin].
    apply list_lookup_fmap_Some in Hj as (j' & Hb & Hj).
    apply lookup_seq in Hj as [-> Hjn]. simpl in Hb.
    symmetry in Hb. apply Nat.leb_gt in Hb. lia.
  - intros [Hji Hin]. exists (map (λ j, (i <=? j)%nat) (seq 0 n)). split.
    + rewrite list_lookup_fmap, lookup_seq_lt by done. done.
    + rewrite list_lookup_fmap, lookup_seq_lt by lia. simpl. f_equal.
      apply Nat.leb_gt. lia.
Qed.

Lemma celdas_fila_cota (g : nat → bool) (i j : nat) (fila : list bool) :
  (length (celdas_fila g i j fila) ≤ length (filter (λ b, b = false) fila))%nat ∧
  ((∀ k, g k = false) →
   length (celdas_fila g i j fila) = length (filter (λ b, b = false) fila)).
Proof.
  revert j. induction fila as [|b fila IH]; intros j; [done|].
  destruct (IH (S j)) as [IH1 IH2]. cbn [celdas_fila].
  rewrite filter_cons, length_app. split.
  - destruct b.
    + rewrite decide_False by done. simpl. lia.
    + rewrite decide_True by done. simpl. destruct (g j); simpl; lia.
  - intros Hg. rewrite (IH2 Hg), Hg. destruct b.
    + by rewrite decide_False.
    + by rewrite decide_True.
Qed.

Lemma celdas_desde_cota (nulo : nat → nat → bool) (i : nat) (mask : list (list bool)) :
  (length (celdas_desde nulo i mask) ≤ cuenta_sin_mascara mask)%nat ∧
  ((∀ k j, nulo k j = false) →
   length (celdas_desde nulo i mask) = cuenta_sin_mascara mask).
Proof.
  unfold cuenta_sin_mascara. revert i.
  induction mask as [|fila mask IH]; intros i; [done|].
  destruct (IH (S i)) as [IH1 IH2].
  destruct (celdas_fila_cota (nulo i) i 0 fila) as [F1 F2]. simpl.
  rewrite filter_app, !length_app. split; [lia|].
  intros Hn. rewrite (IH2 Hn), F2; [done|]. intros k. apply Hn.
Qed.

Lemma celdas_fila_elem (g : nat → bool) (i j0 : nat) (fila : list bool) a b :
  (a, b) ∈ celdas_fila g i j0 fila ↔
  a = i ∧ (j0 ≤ b)%nat ∧ fila !! (b - j0)%nat = Some false ∧ g b = false.
Proof.
  revert j0. induction fila as [|b0 fila IH]; intros j0.
  { split; [by intros ?%elem_of_nil|by intros (_ & _ & ? & _)]. }
  cbn [celdas_fila]. rewrite elem_of_app, IH. split.
  - intros [H|(-> & Hle & Hl & Hg)].
    + destruct b0; [by apply elem_of_nil in H|]. simpl in H.
      destruct (g j0) eqn:Eg; [by apply elem_of_nil in H|].
      apply elem_of_cons in H as [[= -> ->]|H]; [|by apply elem_of_nil in H].
      by rewrite Nat.sub_diag.
    + split; [done|]. split; [lia|]. split; [|done].
      replace (b - j0)%nat with (S (b - S j0)) by lia. done.
  - intros (-> & Hle & Hl & Hg).
    destruct (decide (b = j0)) as [->|Hne].
    + left. rewrite Nat.sub_diag in Hl. injection Hl as ->. rewrite Hg. by left.
    + right. split; [done|]. split; [lia|]. split; [|done].
      replace (b - j0)%nat with (S (b - S j0)) in Hl by lia. done.
Qed.

Lemma celdas_desde_elem (nulo : nat → nat → bool) (i0 : nat) (mask : list (list bool)) a b :
  (a, b) ∈ celdas_desde nulo i0 mask ↔
  (i0 ≤ a)%nat ∧ (∃ fila, mask !! (a - i0)%nat = Some fila ∧ fila !! b = Some false) ∧
  nulo a b = false.
Proof.
  revert i0. induction mask as [|fila mask IH]; intros i0.
  { split; [by intros ?%elem_of_nil|by intros (_ & (? & ? & _) & _)]. }
  cbn [celdas_desde]. rewrite elem_of_app, IH, celdas_fila_elem. split.
  - intros [(-> & _ & Hl & Hg)|(Hle & (f & Hf & Hb) & Hg)].
    + split; [done|]. split; [|done]. exists fila. rewrite Nat.sub_diag.
      split; [done|]. by rewrite Nat.sub_0_r in Hl.
    + split; [lia|]. split; [|done]. exists f.
      replace (a - i0)%nat with (S (a - S i0)) by lia. done.
  - intros (Hle & (f & Hf & Hb) & Hg).
    destruct (decide (a = i0)) as [->|Hne].
    + left. rewrite Nat.sub_diag in Hf. injection Hf as ->.
      split; [done|]. split; [lia|]. by rewrite Nat.sub_0_r.
    + right. split; [lia|]. split; [|done]. exists f.
      replace (a - i0)%nat with (S (a - S i0)) in Hf by lia. done.
Qed.

(** X23.  The heat map that [correlacion] draws is over the integer,
    floating and boolean columns of the frame.  Its mask hides the
    diagonal and everything above it, and seaborn also leaves out a
    cell whose correlation is missing: a cell is drawn exactly when it
    is strictly below the diagonal and its correlation is not missing.
    So at most half of the off-diagonal cells are drawn, exactly half
    when no correlation is missing, and none when there is a single
    column. *)
Theorem correlacion_bajo_la_diagonal (falla_seaborn : DataFrame → llamada → bool) df
    rotulos mask :
  Heatmap rotulos mask ∈ (correlacion falla_seaborn df).1 →
  rotulos = nombres (select_dtypes es_numerico df) ∧
  ∀ nulo : nat → nat → bool,
    (∀ i j, (i, j) ∈ celdas_dibujadas nulo mask
            ↔ (j < i < length rotulos)%nat ∧ nulo i j = false) ∧
    (2 * length (celdas_dibujadas nulo mask)
     ≤ length rotulos * (length rotulos - 1))%nat ∧
    ((∀ i j, nulo i j = false) →
     (2 * length (celdas_dibujadas nulo mask)
      = length rotulos * (length rotulos - 1))%nat).
Proof.
  unfold correlacion. cbv zeta. rewrite G_seguido. cbn [trazar fst snd].
  set (cols := nombres (select_dtypes es_numerico df)).
  destruct (falla_seaborn df _); cbn [fst snd lanzar trazar]; intros H.
  - rewrite app_nil_r in H. apply elem_of_cons in H as [H|H]; [done|].
    by apply elem_of_nil in H.
  - apply elem_of_cons in H as [H|H]; [done|].
    apply elem_of_cons in H as [H|H]; [|by apply elem_of_nil in H].
    injection H as -> ->. split; [done|]. intros nulo.
    pose proof (triu_unos_visibles (length cols) (length cols) (le_n _)) as Hn.
    destruct (celdas_desde_cota nulo 0 (triu_unos (length cols))) as [Hle Heq].
    unfold celdas_dibujadas.
    split; [|split].
    + intros i j. rewrite celdas_desde_elem, Nat.sub_0_r.
      rewrite (triu_unos_abierta (length cols) i j).
      split; [by intros (_ & ? & ?)|intros [? ?]; split; [lia|done]].
    + unfold cuenta_sin_mascara, triu_unos in *. lia.
    + intros Hnulo. rewrite (Heq Hnulo). exact Hn.
Qed.

(** [df_tipos] has three such columns: "edad", "activo" and
    "precio".  Without missing correlations three cells are drawn; when
    those of "precio" are missing, one. *)
Lemma correlacion_bajo_la_diagonal_testigo :
  Heatmap ["edad"; "activo"; "precio"]
          [[true; true; true]; [false; true; true]; [false; false; true]]
    ∈ (correlacion seaborn_fiable df_tipos).1 ∧
  (length (celdas_dibujadas (λ _ _, false)
             [[true; true; true]; [false; true; true]; [false; false; true]]) = 3)%nat ∧
  ((1, 0)%nat ∈ celdas_dibujadas (λ i j, (i =? 2)%nat)
                  [[true; true; true]; [false; true; true]; [false; false; true]]).
Proof.
  assert (H : Heatmap ["edad"; "activo"; "precio"]
                [[true; true; true]; [false; true; true]; [false; false; true]]
                ∈ (correlacion seaborn_fiable df_tipos).1) by pertenece.
  split; [exact H|].
  destruct (correlacion_bajo_la_diagonal seaborn_fiable df_tipos _ _ H) as [_ Hm].
  split.
  - destruct (Hm (λ _ _, false)) as (_ & _ & Heq).
    specialize (Heq (λ _ _, eq_refl)).
    change (length ["edad"; "activo"; "precio"]) with 3%nat in Heq. lia.
  - destruct (Hm (λ i j, (i =? 2)%nat)) as (Hel & _ & _).
    apply Hel. simpl. split; [lia|reflexivity].
Defined.
